(** * GameForge simulation back end: a shallow embedding and its properties

    The development embeds the Python modules

      - [app/simulations/prisoners_dilemma.py]
      - [app/simulations/auction_mechanisms.py]
      - [app/simulations/tragedy_of_commons.py]
      - [app/simulations/registry.py]
      - [app/api/routes.py]

    together with [app/simulations/matching_pennies.py] and the helper
    functions [_backward_induction] of [app/simulations/pirate_division.py]
    and [_predict] of [app/simulations/el_farol_bar.py].

    Conventions of the embedding.

    - A configuration is a Python [dict] with string keys: a [gmap string value].
      Values are the scalars of the data model: [int], [float] and [str].
    - A Python [float] is embedded as an exact rational ([Q]); rounding of the
      binary representation is outside the model.  [int] is [Z].  Sums and
      quotients are kept in lowest terms ([Qred]), which leaves their value
      unchanged; [x ** 0.5] is the real square root, observed through
      [round(_, 2)] only.  A statement that would depend on the size or the
      last bit of a float carries hypotheses that keep the inputs where the
      float and the exact computation agree on what is stated (the declared
      ranges of the parameters, or integers below 2^53).
    - A Python exception is an outcome [Raise e] of the [result] type.
    - The module-level generator of [random] is embedded as three tapes of
      draws that share a cursor; every call consumes one cell.
      [random.sample] draws without replacement, one cell per element.
      Theorems quantify over all tapes.
    - A class that implements [BaseGame] is a constructor of
      [registry.BaseGame]; a Python module is a module of the same name.
    - [time.time()] and the [compute_time_ms] entry of the metadata are left
      out. *)

From Stdlib Require Import ZArith QArith Qround List String Lia Lqa.
From stdpp Require Import gmap strings pretty.
Import ListNotations.

Local Open Scope string_scope.
Local Open Scope Z_scope.

(** ** Python runtime fragments *)

Inductive exn : Type :=
  | ZeroDivisionError
  | TypeError
  | IndexError
  | KeyError
  | ValueError.

Inductive result (A : Type) : Type :=
  | Ok (a : A)
  | Raise (e : exn).
Arguments Ok {A} a.
Arguments Raise {A} e.

Definition rbind {A B : Type} (r : result A) (k : A -> result B) : result B :=
  match r with
  | Ok a => k a
  | Raise e => Raise e
  end.

(** Scalars a configuration can hold. *)
Inductive value : Type :=
  | VInt (n : Z)
  | VFloat (x : Q)
  | VStr (s : string).

(** [dict.get(key, default)] *)
Definition dict_get (cfg : gmap string value) (key : string) (dflt : value) : value :=
  match cfg !! key with
  | Some v => v
  | None => dflt
  end.

(** [l[-1]] *)
Definition last_item {A : Type} (l : list A) : result A :=
  match last l with
  | Some x => Ok x
  | None => Raise IndexError
  end.

(** [x in l] for a list of strings *)
Definition str_in (x : string) (l : list string) : bool :=
  existsb (String.eqb x) l.

(** [range(1, n + 1)] *)
Definition range1 (n : Z) : list Z :=
  map Z.of_nat (seq 1 (Z.to_nat n)).

(** [range(n)] *)
Definition range0 (n : Z) : list Z :=
  map Z.of_nat (seq 0 (Z.to_nat n)).

(** Association-list lookup: a [dict] literal whose insertion order matters. *)
Fixpoint assoc {V : Type} (k : string) (l : list (string * V)) : option V :=
  match l with
  | [] => None
  | (k', v) :: l' => if String.eqb k k' then Some v else assoc k l'
  end.

(** *** The random generator *)

Record Rng : Type := {
  index_tape : nat -> nat;    (* raw integer draws, read by [random.choice] *)
  uniform_tape : nat -> Q;    (* draws of [random.random()] *)
  gauss_tape : nat -> Q;      (* standard normal deviates of [random.gauss] *)
  cursor : nat;
}.

Definition advance (g : Rng) : Rng :=
  {| index_tape := index_tape g; uniform_tape := uniform_tape g;
     gauss_tape := gauss_tape g; cursor := S (cursor g) |}.

(** A computation that may consume draws and may raise. *)
Definition Sim (A : Type) : Type := Rng -> result (A * Rng).

Definition ret {A : Type} (a : A) : Sim A := fun g => Ok (a, g).
Definition throw {A : Type} (e : exn) : Sim A := fun _ => Raise e.
Definition bind {A B : Type} (m : Sim A) (k : A -> Sim B) : Sim B :=
  fun g => match m g with
           | Ok (a, g') => k a g'
           | Raise e => Raise e
           end.
Definition lift {A : Type} (r : result A) : Sim A :=
  fun g => match r with
           | Ok a => Ok (a, g)
           | Raise e => Raise e
           end.

Notation "'let*' x ':=' m 'in' k" := (bind m (fun x => k))
  (at level 10, x pattern, m at level 100, k at level 200).

(** [random.choice(seq)]; an empty sequence raises [IndexError]. *)
Definition random_choice {A : Type} (l : list A) : Sim A :=
  fun g =>
    match l with
    | [] => Raise IndexError
    | x :: _ =>
        Ok (nth (index_tape g (cursor g) mod length l)%nat l x, advance g)
    end.

(** [random.random()] *)
Definition random_random : Sim Q :=
  fun g => Ok (uniform_tape g (cursor g), advance g).

(** A [for] loop over a list that threads the loop-carried variables. *)
Fixpoint for_each {I S : Type} (l : list I) (body : I -> S -> Sim S) (s : S) : Sim S :=
  match l with
  | [] => ret s
  | i :: l' => let* s' := body i s in for_each l' body s'
  end.

(** A numeric operand; a string in arithmetic raises [TypeError]. *)
Definition as_number (v : value) : result Q :=
  match v with
  | VInt n => Ok (inject_Z n)
  | VFloat x => Ok x
  | VStr _ => Raise TypeError
  end.

Definition is_number (v : value) : bool :=
  match v with
  | VStr _ => false
  | _ => true
  end.

(** An operand of [range]; only an [int] is accepted. *)
Definition as_int (v : value) : result Z :=
  match v with
  | VInt n => Ok n
  | _ => Raise TypeError
  end.

(** [random.gauss(mu, sigma)] returns [mu + z * sigma] for a standard normal
    deviate [z]. *)
Definition random_gauss (mu sigma : value) : Sim Q :=
  fun g =>
    rbind (as_number mu) (fun m =>
    rbind (as_number sigma) (fun s =>
    Ok (Qred (m + gauss_tape g (cursor g) * s), advance g))).

(** [k] draws without replacement from [pool]. *)
Fixpoint draw_sample (k : nat) (pool : list Z) : Sim (list Z) :=
  match k with
  | O => ret []
  | S k' =>
      match pool with
      | [] => throw ValueError
      | x :: _ =>
          fun g =>
            let j := (index_tape g (cursor g) mod length pool)%nat in
            (let* rest := draw_sample k' (delete j pool) in
             ret (nth j pool x :: rest)) (advance g)
      end
  end.

(** [random.sample(population, k)]: a negative [k] or one larger than the
    population raises [ValueError]. *)
Definition random_sample (population : list Z) (k : Z) : Sim (list Z) :=
  if (k <? 0) || (Z.of_nat (length population) <? k) then throw ValueError
  else draw_sample (Z.to_nat k) population.

(** [l[i]], with Python's negative indices. *)
Definition list_index {A : Type} (l : list A) (i : Z) : result A :=
  let j := if i <? 0 then Z.of_nat (length l) + i else i in
  if j <? 0 then Raise IndexError
  else match nth_error l (Z.to_nat j) with
       | Some x => Ok x
       | None => Raise IndexError
       end.

(** [max(idxs, key=...)]: the first index whose key is maximal; an empty
    sequence raises [ValueError]. *)
Fixpoint max_from (best : Z) (kbest : Q) (idxs : list Z) (key : Z -> result Q)
  : result Z :=
  match idxs with
  | [] => Ok best
  | i :: idxs' =>
      rbind (key i) (fun ki =>
      if Qle_bool ki kbest then max_from best kbest idxs' key
      else max_from i ki idxs' key)
  end.

Definition max_by_key (idxs : list Z) (key : Z -> result Q) : result Z :=
  match idxs with
  | [] => Raise ValueError
  | i :: idxs' => rbind (key i) (fun ki => max_from i ki idxs' key)
  end.

(** [sorted(l, reverse=True)] *)
Fixpoint insert_desc (x : Q) (l : list Q) : list Q :=
  match l with
  | [] => [x]
  | y :: l' => if Qle_bool y x then x :: l else y :: insert_desc x l'
  end.

Definition sorted_desc (l : list Q) : list Q := fold_right insert_desc [] l.

(** [sum(l)]; the running total is kept in lowest terms. *)
Definition py_sum (l : list Q) : Q := fold_left (fun acc x => Qred (acc + x)) l 0%Q.

(** [x / y] *)
Definition py_div (x y : Q) : result Q :=
  if Qeq_bool y 0 then Raise ZeroDivisionError else Ok (Qred (x / y)).

(** Rounding to the nearest integer, ties to even. *)
Definition round_half_even (x : Q) : Z :=
  let f := Qfloor x in
  match Qcompare (x - inject_Z f) (1 # 2) with
  | Lt => f
  | Gt => f + 1
  | Eq => if Z.even f then f else f + 1
  end.

(** [round(x, nd)] for [nd >= 0] *)
Definition py_round (x : Q) (nd : Z) : Q :=
  Qred (inject_Z (round_half_even (x * inject_Z (10 ^ nd))) / inject_Z (10 ^ nd)).

(** [round(x ** 0.5, 2)] for [x >= 0]: the multiple of [1/100] nearest to the
    real square root, ties to even. *)
Definition round2_sqrt (x : Q) : Q :=
  let t := (40000 * x)%Q in
  let s := Z.sqrt (Qfloor t) in
  let k := if Qeq_bool t (inject_Z (s * s)) && Z.odd s
           then (if Z.even ((s - 1) / 2) then (s - 1) / 2 else (s + 1) / 2)
           else (s + 1) / 2 in
  Qred (inject_Z k / 100).

(** Two decimal digits of a fraction in [0, 100). *)
Definition two_digits (n : Z) : string :=
  if n <? 10 then "0" ++ pretty n else pretty n.

(** [f"{x:.2f}"] of the exact rational.  Python formats the nearest float,
    so a rational that lies exactly half-way between two two-digit decimals
    (0.975, 0.995) can print with a last digit one lower than here. *)
Definition fmt2 (x : Q) : string :=
  let k := round_half_even (x * 100) in
  (if k <? 0 then "-" else "") ++
  pretty (Z.abs k / 100) ++ "." ++ two_digits (Z.abs k mod 100).

(** [int(x)]: truncation towards zero *)
Definition py_int (x : Q) : Z :=
  if Qle_bool 0 x then Qfloor x else Qceiling x.

(** [min(x, y)] *)
Definition qmin (x y : Q) : Q := if Qle_bool x y then x else y.

(** [x > y] *)
Definition qgt (x y : Q) : bool := negb (Qle_bool x y).

(** [[f() for _ in range(n)]] *)
Fixpoint call_each {A : Type} (n : nat) (f : Sim A) : Sim (list A) :=
  match n with
  | O => ret []
  | S n' =>
      let* x := f in
      let* rest := call_each n' f in
      ret (x :: rest)
  end.

(** [l[i] = v], with Python's negative indices; an index out of range raises
    [IndexError]. *)
Definition list_set {A : Type} (l : list A) (i : Z) (v : A) : result (list A) :=
  let j := if i <? 0 then Z.of_nat (length l) + i else i in
  if (j <? 0) || (Z.of_nat (length l) <=? j) then Raise IndexError
  else Ok (<[Z.to_nat j := v]> l).

(** [range(start, stop, -step)] for a positive [step] *)
Definition range_down (start stop step : Z) : list Z :=
  map (fun j => start - step * Z.of_nat j)
      (seq 0 (Z.to_nat ((start - stop + step - 1) / step))).

(** A [for] loop that reads no draw. *)
Fixpoint for_pure {I S : Type} (l : list I) (body : I -> S -> result S) (s : S)
  : result S :=
  match l with
  | [] => Ok s
  | i :: l' => rbind (body i s) (for_pure l' body)
  end.

(** *** Records of [app/models/schemas.py] *)

Record RoundData (A S : Type) : Type := {
  round_num : Z;
  actions : list A;
  payoffs : list Q;
  state : S;
}.
Arguments round_num {A S} _.
Arguments actions {A S} _.
Arguments payoffs {A S} _.
Arguments state {A S} _.

Record Equilibrium : Type := {
  eq_name : string;
  eq_strategies : list value;
  eq_payoffs : option (list Q);
  eq_description : string;
}.

Record SimulationResult (R U : Type) : Type := {
  game_id : string;
  config : gmap string value;
  rounds : list R;
  equilibria : list Equilibrium;
  summary : U;
  metadata_engine : string;
}.
Arguments game_id {R U} _.
Arguments config {R U} _.
Arguments rounds {R U} _.
Arguments equilibria {R U} _.
Arguments summary {R U} _.
Arguments metadata_engine {R U} _.

Record ParameterSpec : Type := {
  p_name : string;
  p_type : string;
  p_default : value;
  p_min : option Q;
  p_max : option Q;
  p_options : option (list string);
}.

Record GameInfo : Type := {
  id : string;
  name : string;
  category : string;
  tier : Z;
  parameters : list ParameterSpec;
  available : bool;
  engine : string;
  tags : list string;
}.

(** The catalogue texts ([short_description], [long_description],
    [theory_card] and the [description] of a parameter) are not embedded. *)

(** ** [prisoners_dilemma.py] *)

Module prisoners_dilemma.

(** A decision function: own history, opponent history. *)
Definition strategy : Type := list string -> list string -> Sim string.

Definition always_cooperate : strategy := fun _ _ => ret "C".
Definition always_defect : strategy := fun _ _ => ret "D".
Definition random : strategy := fun _ _ => random_choice ["C"; "D"].
Definition tit_for_tat : strategy :=
  fun _ opp => match opp with
               | [] => ret "C"
               | _ => lift (last_item opp)
               end.
Definition grim_trigger : strategy :=
  fun _ opp => if str_in "D" opp then ret "D" else ret "C".
Definition pavlov : strategy :=
  fun h opp =>
    match h with
    | [] => ret "C"
    | _ =>
        let* a := lift (last_item h) in
        let* b := lift (last_item opp) in
        ret (if String.eqb a b then "C" else "D")
    end.

Definition STRATEGIES : list (string * strategy) :=
  [ ("always_cooperate", always_cooperate);
    ("always_defect", always_defect);
    ("random", random);
    ("tit_for_tat", tit_for_tat);
    ("grim_trigger", grim_trigger);
    ("pavlov", pavlov) ].

(** [PAYOFF_MATRIX[(a1, a2)]]; a missing key raises [KeyError]. *)
Definition PAYOFF_MATRIX : list ((string * string) * (Z * Z)) :=
  [ (("C", "C"), (3, 3));
    (("C", "D"), (0, 5));
    (("D", "C"), (5, 0));
    (("D", "D"), (1, 1)) ].

Fixpoint payoff_lookup (a1 a2 : string) (m : list ((string * string) * (Z * Z)))
  : result (Z * Z) :=
  match m with
  | [] => Raise KeyError
  | ((k1, k2), p) :: m' =>
      if (String.eqb a1 k1 && String.eqb a2 k2)%bool then Ok p
      else payoff_lookup a1 a2 m'
  end.

Definition info : GameInfo :=
  {| id := "prisoners_dilemma";
     name := "Prisoner's Dilemma";
     category := "classical";
     tier := 1;
     parameters :=
       [ {| p_name := "rounds"; p_type := "int"; p_default := VInt 100;
            p_min := Some 1%Q; p_max := Some 10000%Q;
            p_options := None |};
         {| p_name := "noise"; p_type := "float"; p_default := VFloat 0;
            p_min := Some 0%Q; p_max := Some (1 # 2)%Q;
            p_options := None |};
         {| p_name := "strategy_p1"; p_type := "select"; p_default := VStr "tit_for_tat";
            p_min := None; p_max := None;
            p_options := Some (map fst STRATEGIES) |};
         {| p_name := "strategy_p2"; p_type := "select"; p_default := VStr "always_defect";
            p_min := None; p_max := None;
            p_options := Some (map fst STRATEGIES) |} ];
     available := true;
     engine := "browser";
     tags := ["cooperation"; "classic"; "iterated"] |}.

(** [STRATEGIES.get(name, STRATEGIES["random"])].  A key that is not a
    string is hashable and absent from the table. *)
Definition resolve (name : value) : strategy :=
  match name with
  | VStr s => match assoc s STRATEGIES with
              | Some f => f
              | None => random
              end
  | _ => random
  end.

Record State : Type := {
  cumulative : list Q;
  coop_rate : Q;
}.

Record Summary : Type := {
  total_payoff_p1 : Q;
  total_payoff_p2 : Q;
  avg_payoff_p1 : Q;
  avg_payoff_p2 : Q;
  cooperation_rate : Q;
  strategy_p1 : value;
  strategy_p2 : value;
}.

Definition Round : Type := RoundData string State.
Definition Result : Type := SimulationResult Round Summary.

(** The variables the round loop carries. *)
Record Loop : Type := {
  h1 : list string;
  h2 : list string;
  round_data : list Round;
  total_p1 : Q;
  total_p2 : Q;
  coop_count : Z;
}.

Definition loop_init : Loop :=
  {| h1 := []; h2 := []; round_data := [];
     total_p1 := 0; total_p2 := 0; coop_count := 0 |}.

(** [noise > 0]: a string operand raises [TypeError]. *)
Definition noise_positive (noise : value) : result bool :=
  match noise with
  | VInt n => Ok (0 <? n)
  | VFloat x => Ok (negb (Qle_bool x 0))
  | VStr _ => Raise TypeError
  end.

(** [random.random() < noise], reached only for a numeric [noise]. *)
Definition below_noise (u : Q) (noise : value) : result bool :=
  match noise with
  | VInt n => Ok (negb (Qle_bool (inject_Z n) u))
  | VFloat x => Ok (negb (Qle_bool x u))
  | VStr _ => Raise TypeError
  end.

Definition flip (a : string) : string :=
  if String.eqb a "C" then "D" else "C".

Definition maybe_flip (noise : value) (a : string) : Sim string :=
  let* u := random_random in
  let* b := lift (below_noise u noise) in
  ret (if b : bool then flip a else a).

Definition apply_noise (noise : value) (a1 a2 : string) : Sim (string * string) :=
  let* pos := lift (noise_positive noise) in
  if pos : bool then
    let* a1' := maybe_flip noise a1 in
    let* a2' := maybe_flip noise a2 in
    ret (a1', a2')
  else ret (a1, a2).

Definition count_C (a : string) : Z :=
  if String.eqb a "C" then 1 else 0.

(** One iteration of [for r in range(1, rounds + 1)]. *)
Definition body (s1 s2 : strategy) (noise : value) (r : Z) (st : Loop) : Sim Loop :=
  let* a1 := s1 (h1 st) (h2 st) in
  let* a2 := s2 (h2 st) (h1 st) in
  let* (a1, a2) := apply_noise noise a1 a2 in
  let* (p1, p2) := lift (payoff_lookup a1 a2 PAYOFF_MATRIX) in
  let total_p1' := (total_p1 st + inject_Z p1)%Q in
  let total_p2' := (total_p2 st + inject_Z p2)%Q in
  let coop' := coop_count st + count_C a1 + count_C a2 in
  ret {| h1 := h1 st ++ [a1];
         h2 := h2 st ++ [a2];
         round_data := round_data st ++
           [ {| round_num := r;
                actions := [a1; a2];
                payoffs := [inject_Z p1; inject_Z p2];
                state := {| cumulative := [total_p1'; total_p2'];
                            coop_rate := (inject_Z coop' / inject_Z (2 * r))%Q |} |} ];
         total_p1 := total_p1';
         total_p2 := total_p2';
         coop_count := coop' |}.

(** [x / rounds] in the summary. *)
Definition div_rounds (x : Q) (rounds : Z) : result Q :=
  if rounds =? 0 then Raise ZeroDivisionError
  else Ok (x / inject_Z rounds)%Q.

Definition nash : Equilibrium :=
  {| eq_name := "Nash Equilibrium (one-shot)";
     eq_strategies := [VStr "D"; VStr "D"];
     eq_payoffs := Some [1%Q; 1%Q];
     eq_description := "Mutual defection is the dominant strategy equilibrium." |}.

Definition finish (cfg : gmap string value) (rounds : Z) (s1_name s2_name : value)
    (st : Loop) : result Result :=
  rbind (div_rounds (total_p1 st) rounds) (fun avg1 =>
  rbind (div_rounds (total_p2 st) rounds) (fun avg2 =>
  rbind (div_rounds (inject_Z (coop_count st)) (2 * rounds)) (fun rate =>
  Ok {| game_id := "prisoners_dilemma";
        config := cfg;
        rounds := round_data st;
        equilibria := [nash];
        summary := {| total_payoff_p1 := total_p1 st;
                      total_payoff_p2 := total_p2 st;
                      avg_payoff_p1 := avg1;
                      avg_payoff_p2 := avg2;
                      cooperation_rate := rate;
                      strategy_p1 := s1_name;
                      strategy_p2 := s2_name |};
        metadata_engine := "server" |}))).

(** The run once both strategies have been resolved. *)
Definition run (cfg : gmap string value) (s1 s2 : strategy) : Sim Result :=
  let rounds := dict_get cfg "rounds" (VInt 100) in
  let noise := dict_get cfg "noise" (VFloat 0) in
  let s1_name := dict_get cfg "strategy_p1" (VStr "tit_for_tat") in
  let s2_name := dict_get cfg "strategy_p2" (VStr "always_defect") in
  match rounds with
  | VInt n =>
      let* st := for_each (range1 n) (body s1 s2 noise) loop_init in
      lift (finish cfg n s1_name s2_name st)
  | _ => throw TypeError   (* [rounds + 1] or [range] rejects the operand *)
  end.

Definition compute (cfg : gmap string value) : Sim Result :=
  run cfg (resolve (dict_get cfg "strategy_p1" (VStr "tit_for_tat")))
          (resolve (dict_get cfg "strategy_p2" (VStr "always_defect"))).

End prisoners_dilemma.


(** ** [auction_mechanisms.py] *)

Module auction_mechanisms.

Definition info : GameInfo :=
  {| id := "auction_mechanisms";
     name := "Auction Mechanisms";
     category := "underrated";
     tier := 2;
     parameters :=
       [ {| p_name := "auction_type"; p_type := "select"; p_default := VStr "vickrey";
            p_min := None; p_max := None;
            p_options := Some ["vickrey"; "english"; "dutch"] |};
         {| p_name := "n_bidders"; p_type := "int"; p_default := VInt 5;
            p_min := Some 2%Q; p_max := Some 50%Q;
            p_options := None |};
         {| p_name := "value_mean"; p_type := "float"; p_default := VFloat 100;
            p_min := Some 10%Q; p_max := Some 1000%Q;
            p_options := None |};
         {| p_name := "value_std"; p_type := "float"; p_default := VFloat 20;
            p_min := Some 1%Q; p_max := Some 200%Q;
            p_options := None |};
         {| p_name := "n_auctions"; p_type := "int"; p_default := VInt 500;
            p_min := Some 50%Q; p_max := Some 5000%Q;
            p_options := None |} ];
     available := true;
     engine := "server";
     tags := ["auction"; "mechanism-design"; "revenue-equivalence"] |}.

Record State : Type := {
  st_values : list Q;
  st_winner : Z;
  st_price : Q;
  st_revenue : Q;
}.

Record Summary : Type := {
  avg_revenue : Q;
  avg_winner_surplus : Q;
  revenue_std : Q;
  auction_type : value;
  efficiency : Q;
}.

Definition Round : Type := RoundData Q State.
Definition Result : Type := SimulationResult Round Summary.

Record Loop : Type := {
  round_data : list Round;
  revenues : list Q;
  winner_surpluses : list Q;
}.

Definition loop_init : Loop :=
  {| round_data := []; revenues := []; winner_surpluses := [] |}.

(** [[max(0, random.gauss(v_mean, v_std)) for _ in range(n_bidders)]] *)
Fixpoint draw_values (n : nat) (v_mean v_std : value) : Sim (list Q) :=
  match n with
  | O => ret []
  | S n' =>
      let* x := random_gauss v_mean v_std in
      let* rest := draw_values n' v_mean v_std in
      ret ((if Qle_bool x 0 then 0%Q else x) :: rest)
  end.

(** [atype == "vickrey"]: a value that is not a string is unequal. *)
Definition is_type (atype : value) (s : string) : bool :=
  match atype with
  | VStr t => String.eqb t s
  | _ => false
  end.

(** The three branches: bids, winner and price of one auction.  The first
    two compare the values and do no arithmetic on them.  The shaded bids of
    the third are exact here: two values one float apart can shade to the
    same float in the source and then to a different winner. *)
Definition mechanism (atype : value) (n_bidders : Z) (values : list Q)
  : result (list Q * Z * Q) :=
  if is_type atype "vickrey" then
    let bids := values in
    rbind (max_by_key (range0 n_bidders) (list_index bids)) (fun winner_idx =>
    rbind (list_index (sorted_desc bids) 1) (fun price =>
    Ok (bids, winner_idx, price)))
  else if is_type atype "english" then
    let bids := values in
    rbind (max_by_key (range0 n_bidders) (list_index values)) (fun winner_idx =>
    rbind (list_index (sorted_desc values) 1) (fun price =>
    Ok (bids, winner_idx, price)))
  else
    let bids := map (fun v => (v * inject_Z (n_bidders - 1) / inject_Z n_bidders)%Q)
                    values in
    rbind (max_by_key (range0 n_bidders) (list_index bids)) (fun winner_idx =>
    rbind (list_index bids winner_idx) (fun price =>
    Ok (bids, winner_idx, price))).

(** The payoffs of a materialised round. *)
Fixpoint round_payoffs (idxs : list Z) (values : list Q) (winner_idx : Z) (price : Q)
  : result (list Q) :=
  match idxs with
  | [] => Ok []
  | i :: idxs' =>
      rbind (if i =? winner_idx
             then rbind (list_index values i) (fun v => Ok (py_round (v - price) 2))
             else Ok 0%Q) (fun p =>
      rbind (round_payoffs idxs' values winner_idx price) (fun ps =>
      Ok (p :: ps)))
  end.

(** One iteration of [for a in range(n_auctions)]. *)
Definition body (atype n_bidders v_mean v_std : value) (sample_indices : gset Z)
    (a : Z) (st : Loop) : Sim Loop :=
  let* nb := lift (as_int n_bidders) in
  let* values := draw_values (Z.to_nat nb) v_mean v_std in
  let* (bids, winner_idx, price) := lift (mechanism atype nb values) in
  let revenue := price in
  let* v_win := lift (list_index values winner_idx) in
  let surplus := (v_win - price)%Q in
  if bool_decide (a ∈ sample_indices) then
    let* pays := lift (round_payoffs (range0 nb) values winner_idx price) in
    ret {| round_data := round_data st ++
             [ {| round_num := a + 1;
                  actions := map (fun b => py_round b 2) bids;
                  payoffs := pays;
                  state := {| st_values := map (fun v => py_round v 2) values;
                              st_winner := winner_idx;
                              st_price := py_round price 2;
                              st_revenue := py_round revenue 2 |} |} ];
           revenues := revenues st ++ [revenue];
           winner_surpluses := winner_surpluses st ++ [surplus] |}
  else
    ret {| round_data := round_data st;
           revenues := revenues st ++ [revenue];
           winner_surpluses := winner_surpluses st ++ [surplus] |}.

(** Whether the recorded winner is the first index of the largest recorded
    value. *)
Definition round_efficient (nb : Z) (rd : Round) : result bool :=
  rbind (max_by_key (range0 nb) (list_index (st_values (state rd)))) (fun best =>
  Ok (st_winner (state rd) =? best)).

Fixpoint count_efficient (nb : Z) (rds : list Round) : result Z :=
  match rds with
  | [] => Ok 0
  | rd :: rds' =>
      rbind (round_efficient nb rd) (fun e =>
      rbind (count_efficient nb rds') (fun c =>
      Ok ((if e : bool then 1 else 0) + c)))
  end.

(** The [efficiency] entry of the summary. *)
Definition efficiency_of (nb : Z) (rds : list Round) : result Q :=
  match rds with
  | [] => Ok 1%Q
  | _ =>
      rbind (count_efficient nb rds) (fun c =>
      rbind (py_div (inject_Z c) (inject_Z (Z.of_nat (length rds)))) (fun e =>
      Ok (py_round e 3)))
  end.

(** The mean of the squared deviations, in exact arithmetic.  In the source a
    square beyond the largest float raises [OverflowError]; the declared
    ranges of the parameters keep the values far below that. *)
Definition variance (l : list Q) (avg : Q) : result Q :=
  py_div (py_sum (map (fun r => ((r - avg) * (r - avg))%Q) l))
         (inject_Z (Z.of_nat (length l))).

Definition equilibria_of (nb : Z) : result (list Equilibrium) :=
  rbind (py_div (inject_Z (nb - 1)) (inject_Z nb)) (fun ratio =>
  Ok [ {| eq_name := "Dominant Strategy (Vickrey)";
          eq_strategies := [VStr "bid = true value"];
          eq_payoffs := None;
          eq_description :=
            "In Vickrey auctions, truthful bidding is weakly dominant." |};
       {| eq_name := "Bayesian NE (Dutch/First-price)";
          eq_strategies := [VStr ("bid = value × " ++ fmt2 ratio)];
          eq_payoffs := None;
          eq_description :=
            "Optimal bid-shading: b(v) = v × (n-1)/n = v × " ++ fmt2 ratio |} ]).

Definition finish (cfg : gmap string value) (atype n_bidders : value) (st : Loop)
  : result Result :=
  let n := inject_Z (Z.of_nat (length (revenues st))) in
  rbind (py_div (py_sum (revenues st)) n) (fun avg_rev =>
  rbind (py_div (py_sum (winner_surpluses st))
                (inject_Z (Z.of_nat (length (winner_surpluses st))))) (fun avg_surplus =>
  rbind (as_int n_bidders) (fun nb =>
  rbind (equilibria_of nb) (fun eqs =>
  rbind (variance (revenues st) avg_rev) (fun var =>
  rbind (efficiency_of nb (round_data st)) (fun eff =>
  Ok {| game_id := "auction_mechanisms";
        config := cfg;
        rounds := round_data st;
        equilibria := eqs;
        summary := {| avg_revenue := py_round avg_rev 2;
                      avg_winner_surplus := py_round avg_surplus 2;
                      revenue_std := round2_sqrt var;
                      auction_type := atype;
                      efficiency := eff |};
        metadata_engine := "server" |})))))).

(** Everything after [sample_indices] has been drawn. *)
Definition run (cfg : gmap string value) (n_auctions : Z) (sample_indices : gset Z)
  : Sim Result :=
  let atype := dict_get cfg "auction_type" (VStr "vickrey") in
  let n_bidders := dict_get cfg "n_bidders" (VInt 5) in
  let v_mean := dict_get cfg "value_mean" (VFloat 100) in
  let v_std := dict_get cfg "value_std" (VFloat 20) in
  let* st := for_each (range0 n_auctions)
               (body atype n_bidders v_mean v_std sample_indices) loop_init in
  lift (finish cfg atype n_bidders st).

Definition compute (cfg : gmap string value) : Sim Result :=
  let* n_auctions := lift (as_int (dict_get cfg "n_auctions" (VInt 500))) in
  let* picked := random_sample (range0 n_auctions) (Z.min 200 n_auctions) in
  run cfg n_auctions (list_to_set picked).

End auction_mechanisms.

(** ** [tragedy_of_commons.py] *)

Module tragedy_of_commons.

(** A decision function: usage history, per-agent cap. *)
Definition strategy : Type := list Q -> Q -> Sim Z.

(** [max(1, int(x))] for the exact product [x].  Where the exact product is
    an integer the float product can fall just below it, and [int] then
    gives one unit less than here; the properties stated about the commons
    are bounds and orderings, which both computations satisfy. *)
Definition harvest (x : Q) : Z := Z.max 1 (py_int x).

Definition sustainable : strategy := fun _ cap => ret (harvest (cap * (3 # 10))).
Definition greedy : strategy := fun _ cap => ret (harvest (cap * (7 # 10))).
Definition moderate : strategy := fun _ cap => ret (harvest (cap * (1 # 2))).
Definition adaptive : strategy :=
  fun h cap =>
    match h with
    | [] => ret (harvest (cap * (2 # 5)))
    | _ =>
        let recent := skipn (length h - 5) h in
        let high := List.filter (fun x => qgt x (3 # 5)) recent in
        ret (harvest (cap * (1 # 2) *
                      (1 - inject_Z (Z.of_nat (length high)) / 5)))
    end.
Definition random : strategy :=
  fun _ cap =>
    let* u := random_random in
    ret (harvest (((1 # 10) + ((4 # 5) - (1 # 10)) * u) * cap)).
Definition tit_for_tat : strategy :=
  fun h cap =>
    match last h with
    | Some x => ret (harvest (cap * x))
    | None => ret (harvest (cap * (2 # 5)))
    end.

Definition STRATEGIES : list (string * strategy) :=
  [ ("sustainable", sustainable);
    ("greedy", greedy);
    ("moderate", moderate);
    ("adaptive", adaptive);
    ("random", random);
    ("tit_for_tat", tit_for_tat) ].

Definition info : GameInfo :=
  {| id := "tragedy_of_commons";
     name := "Tragedy of the Commons";
     category := "underrated";
     tier := 2;
     parameters :=
       [ {| p_name := "n_agents"; p_type := "int"; p_default := VInt 6;
            p_min := Some 2%Q; p_max := Some 20%Q;
            p_options := None |};
         {| p_name := "resource_capacity"; p_type := "float"; p_default := VFloat 1000;
            p_min := Some 100%Q; p_max := Some 10000%Q;
            p_options := None |};
         {| p_name := "regeneration_rate"; p_type := "float"; p_default := VFloat (1 # 5);
            p_min := Some (1 # 20)%Q; p_max := Some (1 # 2)%Q;
            p_options := None |};
         {| p_name := "rounds"; p_type := "int"; p_default := VInt 100;
            p_min := Some 10%Q; p_max := Some 500%Q;
            p_options := None |};
         {| p_name := "strategy"; p_type := "select"; p_default := VStr "moderate";
            p_min := None; p_max := None;
            p_options := Some (map fst STRATEGIES) |} ];
     available := true;
     engine := "server";
     tags := ["commons"; "sustainability"; "cooperation"; "environmental"] |}.

(** [STRATEGIES.get(strat_name, STRATEGIES["moderate"])] *)
Definition resolve (strat_name : value) : strategy :=
  match strat_name with
  | VStr s => match assoc s STRATEGIES with
              | Some f => f
              | None => moderate
              end
  | _ => moderate
  end.

Record State : Type := {
  st_pool : Q;
  st_total_harvest : Q;
  st_usage_ratio : Q;
}.

Record Summary : Type := {
  final_pool : Q;
  sum_total_harvested : Q;
  depleted : bool;
  sum_depleted_round : option Z;
  avg_harvest_per_agent : Q;
  sustainability_score : Q;
}.

Definition Round : Type := RoundData Q State.
Definition Result : Type := SimulationResult Round Summary.

Record Loop : Type := {
  pool : Q;
  rd : list Round;
  history : list Q;
  total_harvested : Q;
  depleted_round : option Z;
}.

(** One iteration of [for r in range(1, rounds + 1)]. *)
Definition body (n regen : value) (capacity : Q) (strat_fn : strategy)
    (r : Z) (st : Loop) : Sim Loop :=
  let* per_agent_cap :=
    lift (if qgt (pool st) 0
          then rbind (as_number n) (fun nq => py_div (pool st) nq)
          else Ok 0%Q) in
  let* ni := lift (as_int n) in
  let* harvests := call_each (Z.to_nat ni) (strat_fn (history st) per_agent_cap) in
  let total_harvest := fold_left Z.add harvests 0 in
  let actual := qmin (inject_Z total_harvest) (pool st) in
  let scale := if 0 <? total_harvest
               then (actual / inject_Z total_harvest)%Q else 0%Q in
  let actual_harvests := map (fun h => (inject_Z h * scale)%Q) harvests in
  let pool1 := (pool st - actual)%Q in
  let* rg := lift (as_number regen) in
  let pool2 := Qred (qmin capacity (pool1 + pool1 * rg)) in
  let total' := Qred (total_harvested st + actual) in
  let depleted' := if qgt 1 pool2
                   then match depleted_round st with
                        | None => Some r
                        | Some d => Some d
                        end
                   else depleted_round st in
  let usage_ratio := if qgt capacity 0 then (actual / capacity)%Q else 0%Q in
  let* pay := lift (py_div actual (inject_Z ni)) in
  ret {| pool := pool2;
         rd := rd st ++
           [ {| round_num := r;
                actions := actual_harvests;
                payoffs := [pay];
                state := {| st_pool := py_round pool2 2;
                            st_total_harvest := py_round actual 2;
                            st_usage_ratio := py_round usage_ratio 4 |} |} ];
         history := history st ++ [usage_ratio];
         total_harvested := total';
         depleted_round := depleted' |}.

Section Render.

(** [str(x)] of a [float]; the decimal rendering is left abstract. *)
Variable float_str : Q -> string.

Definition py_str (v : value) : string :=
  match v with
  | VInt n => pretty n
  | VFloat x => float_str x
  | VStr s => s
  end.

Definition finish (cfg : gmap string value) (n : value) (capacity : Q)
    (rounds : Z) (strat_name : value) (st : Loop) : result Result :=
  rbind (as_int n) (fun ni =>
  let eq :=
    {| eq_name := "Overexploitation NE";
       eq_strategies := repeat strat_name (Z.to_nat ni);
       eq_payoffs := None;
       eq_description :=
         "Pool " ++
         match depleted_round st with
         | Some d => "depleted at round " ++ pretty d
         | None => "survived"
         end ++
         " with " ++ pretty ni ++ " agents using '" ++ py_str strat_name ++
         "' strategy." |} in
  rbind (py_div (total_harvested st) (inject_Z (ni * rounds))) (fun avg =>
  rbind (py_div (pool st) capacity) (fun score =>
  Ok {| game_id := "tragedy_of_commons";
        config := cfg;
        rounds := rd st;
        equilibria := [eq];
        summary := {| final_pool := py_round (pool st) 2;
                      sum_total_harvested := py_round (total_harvested st) 2;
                      depleted := match depleted_round st with
                                  | Some _ => true
                                  | None => false
                                  end;
                      sum_depleted_round := depleted_round st;
                      avg_harvest_per_agent := py_round avg 2;
                      sustainability_score := py_round score 3 |};
        metadata_engine := "server" |}))).

(** The run once the strategy has been resolved.  [rounds] is first used by
    [range], and [pool = capacity] is first used as a number by [pool > 0]
    in the loop or by [round(pool, 2)] in the summary: a [rounds] that is
    not an [int], or a [capacity] that is a string, raises [TypeError] on
    every path.  [n] and [regen] are checked where an iteration uses
    them. *)
Definition run (cfg : gmap string value) (strat_fn : strategy) : Sim Result :=
  let n := dict_get cfg "n_agents" (VInt 6) in
  let capacity := dict_get cfg "resource_capacity" (VFloat 1000) in
  let regen := dict_get cfg "regeneration_rate" (VFloat (1 # 5)) in
  let rounds := dict_get cfg "rounds" (VInt 100) in
  let strat_name := dict_get cfg "strategy" (VStr "moderate") in
  let* nr := lift (as_int rounds) in
  let* cap := lift (as_number capacity) in
  let* st := for_each (range1 nr) (body n regen cap strat_fn)
               {| pool := cap; rd := []; history := [];
                  total_harvested := 0; depleted_round := None |} in
  lift (finish cfg n cap nr strat_name st).

Definition compute (cfg : gmap string value) : Sim Result :=
  run cfg (resolve (dict_get cfg "strategy" (VStr "moderate"))).

End Render.

End tragedy_of_commons.

(** ** The other simulation modules

    The catalogue entry [info] of each of these modules is embedded;
    [matching_pennies] is embedded in full, [el_farol_bar] and
    [pirate_division] with one helper function each. *)

Module public_goods.

Definition info : GameInfo :=
  {| id := "public_goods";
     name := "Public Goods Game";
     category := "classical";
     tier := 1;
     parameters :=
       [ {| p_name := "n_players"; p_type := "int"; p_default := VInt 5;
            p_min := Some 2%Q; p_max := Some 20%Q;
            p_options := None |};
         {| p_name := "endowment"; p_type := "float"; p_default := VFloat 10;
            p_min := Some 1%Q; p_max := Some 100%Q;
            p_options := None |};
         {| p_name := "multiplier"; p_type := "float"; p_default := VFloat 2;
            p_min := Some (11 # 10)%Q; p_max := Some 10%Q;
            p_options := None |};
         {| p_name := "rounds"; p_type := "int"; p_default := VInt 50;
            p_min := Some 1%Q; p_max := Some 500%Q;
            p_options := None |};
         {| p_name := "punishment_cost"; p_type := "float"; p_default := VFloat 0;
            p_min := Some 0%Q; p_max := Some 5%Q;
            p_options := None |};
         {| p_name := "strategy"; p_type := "select"; p_default := VStr "conditional_cooperator";
            p_min := None; p_max := None;
            p_options := Some ["full_cooperator"; "free_rider"; "conditional_cooperator"; "random"] |} ];
     available := true;
     engine := "browser";
     tags := ["cooperation"; "public-goods"; "n-player"; "free-riding"] |}.

End public_goods.

Module stag_hunt.

Definition info : GameInfo :=
  {| id := "stag_hunt";
     name := "Stag Hunt";
     category := "classical";
     tier := 1;
     parameters :=
       [ {| p_name := "rounds"; p_type := "int"; p_default := VInt 100;
            p_min := Some 1%Q; p_max := Some 5000%Q;
            p_options := None |};
         {| p_name := "strategy_p1"; p_type := "select"; p_default := VStr "tit_for_tat";
            p_min := None; p_max := None;
            p_options := Some ["always_stag"; "always_hare"; "tit_for_tat"; "random"; "cautious"; "pavlov"] |};
         {| p_name := "strategy_p2"; p_type := "select"; p_default := VStr "cautious";
            p_min := None; p_max := None;
            p_options := Some ["always_stag"; "always_hare"; "tit_for_tat"; "random"; "cautious"; "pavlov"] |} ];
     available := true;
     engine := "server";
     tags := ["coordination"; "trust"] |}.

End stag_hunt.

Module battle_of_sexes.

Definition info : GameInfo :=
  {| id := "battle_of_sexes";
     name := "Battle of the Sexes";
     category := "classical";
     tier := 1;
     parameters :=
       [ {| p_name := "rounds"; p_type := "int"; p_default := VInt 100;
            p_min := Some 1%Q; p_max := Some 5000%Q;
            p_options := None |};
         {| p_name := "strategy_p1"; p_type := "select"; p_default := VStr "stubborn_70";
            p_min := None; p_max := None;
            p_options := Some ["always_opera"; "always_football"; "alternate"; "tit_for_tat"; "random"; "stubborn_70"] |};
         {| p_name := "strategy_p2"; p_type := "select"; p_default := VStr "tit_for_tat";
            p_min := None; p_max := None;
            p_options := Some ["always_opera"; "always_football"; "alternate"; "tit_for_tat"; "random"; "stubborn_70"] |} ];
     available := true;
     engine := "server";
     tags := ["coordination"; "mixed-NE"] |}.

End battle_of_sexes.

Module matching_pennies.

Definition info : GameInfo :=
  {| id := "matching_pennies";
     name := "Matching Pennies";
     category := "classical";
     tier := 1;
     parameters :=
       [ {| p_name := "rounds"; p_type := "int"; p_default := VInt 200;
            p_min := Some 1%Q; p_max := Some 10000%Q;
            p_options := None |};
         {| p_name := "strategy_matcher"; p_type := "select"; p_default := VStr "random_50";
            p_min := None; p_max := None;
            p_options := Some ["always_heads"; "always_tails"; "random_50"; "biased_70h"; "anti_pattern"; "win_stay_lose_shift"] |};
         {| p_name := "strategy_mismatcher"; p_type := "select"; p_default := VStr "anti_pattern";
            p_min := None; p_max := None;
            p_options := Some ["always_heads"; "always_tails"; "random_50"; "biased_70h"; "anti_pattern"; "win_stay_lose_shift"] |} ];
     available := true;
     engine := "server";
     tags := ["zero-sum"; "mixed-NE"] |}.

(** A decision function: own history, opponent history. *)
Definition strategy : Type := list string -> list string -> Sim string.

(** The matcher wins when the coins agree. *)
Definition PAYOFF : list ((string * string) * (Z * Z)) :=
  [ (("H", "H"), (1, -1));
    (("H", "T"), (-1, 1));
    (("T", "H"), (-1, 1));
    (("T", "T"), (1, -1)) ].

(** [PAYOFF[(a1, a2)]]; a missing key raises [KeyError]. *)
Fixpoint payoff_lookup (a1 a2 : string) (m : list ((string * string) * (Z * Z)))
  : result (Z * Z) :=
  match m with
  | [] => Raise KeyError
  | ((k1, k2), p) :: m' =>
      if (String.eqb a1 k1 && String.eqb a2 k2)%bool then Ok p
      else payoff_lookup a1 a2 m'
  end.

(** [PAYOFF.get((a1, a2), (0, 0))] *)
Definition payoff_get (a1 a2 : string) : Z * Z :=
  match payoff_lookup a1 a2 PAYOFF with
  | Ok p => p
  | Raise _ => (0, 0)
  end.

Definition other_side (a : string) : string :=
  if String.eqb a "H" then "T" else "H".

Definition always_heads : strategy := fun _ _ => ret "H".
Definition always_tails : strategy := fun _ _ => ret "T".
Definition random_50 : strategy := fun _ _ => random_choice ["H"; "T"].
Definition biased_70h : strategy :=
  fun _ _ =>
    let* u := random_random in
    ret (if qgt (7 # 10) u then "H" else "T").
Definition anti_pattern : strategy :=
  fun _ o =>
    match o with
    | [] => random_choice ["H"; "T"]
    | _ =>
        let* b := lift (last_item o) in
        ret (other_side b)
    end.
Definition win_stay_lose_shift : strategy :=
  fun h o =>
    match h with
    | [] => ret "H"
    | _ =>
        let* a := lift (last_item h) in
        let* b := lift (last_item o) in
        ret (if 0 <? fst (payoff_get a b) then a else other_side a)
    end.

Definition STRATEGIES : list (string * strategy) :=
  [ ("always_heads", always_heads);
    ("always_tails", always_tails);
    ("random_50", random_50);
    ("biased_70h", biased_70h);
    ("anti_pattern", anti_pattern);
    ("win_stay_lose_shift", win_stay_lose_shift) ].

(** [STRATEGIES.get(name, STRATEGIES["random_50"])].  A key that is not a
    string is hashable and absent from the table. *)
Definition resolve (name : value) : strategy :=
  match name with
  | VStr s => match assoc s STRATEGIES with
              | Some f => f
              | None => random_50
              end
  | _ => random_50
  end.

Record State : Type := {
  cumulative : list Z;
  st_match_rate : Q;
}.

Record Summary : Type := {
  total_payoff_matcher : Z;
  total_payoff_mismatcher : Z;
  avg_payoff_matcher : Q;
  match_rate : Q;
}.

Definition Round : Type := RoundData string State.
Definition Result : Type := SimulationResult Round Summary.

(** The variables the round loop carries. *)
Record Loop : Type := {
  h1 : list string;
  h2 : list string;
  rd : list Round;
  tot1 : Z;
  tot2 : Z;
  match_count : Z;
}.

Definition loop_init : Loop :=
  {| h1 := []; h2 := []; rd := []; tot1 := 0; tot2 := 0; match_count := 0 |}.

(** One iteration of [for r in range(1, rounds + 1)]. *)
Definition body (s1 s2 : strategy) (r : Z) (st : Loop) : Sim Loop :=
  let* a1 := s1 (h1 st) (h2 st) in
  let* a2 := s2 (h2 st) (h1 st) in
  let* (p1, p2) := lift (payoff_lookup a1 a2 PAYOFF) in
  let tot1' := tot1 st + p1 in
  let tot2' := tot2 st + p2 in
  let match_count' := if String.eqb a1 a2 then match_count st + 1
                      else match_count st in
  let* rate := lift (py_div (inject_Z match_count') (inject_Z r)) in
  ret {| h1 := h1 st ++ [a1];
         h2 := h2 st ++ [a2];
         rd := rd st ++
           [ {| round_num := r;
                actions := [a1; a2];
                payoffs := [inject_Z p1; inject_Z p2];
                state := {| cumulative := [tot1'; tot2'];
                            st_match_rate := rate |} |} ];
         tot1 := tot1';
         tot2 := tot2';
         match_count := match_count' |}.

Definition mixed : Equilibrium :=
  {| eq_name := "Mixed-Strategy NE";
     eq_strategies := [VStr "50% H"; VStr "50% H"];
     eq_payoffs := Some [0%Q; 0%Q];
     eq_description := "Both randomize 50/50; expected payoff is 0." |}.

Definition finish (cfg : gmap string value) (rounds : Z) (st : Loop) : result Result :=
  rbind (py_div (inject_Z (tot1 st)) (inject_Z rounds)) (fun avg =>
  rbind (py_div (inject_Z (match_count st)) (inject_Z rounds)) (fun rate =>
  Ok {| game_id := "matching_pennies";
        config := cfg;
        rounds := rd st;
        equilibria := [mixed];
        summary := {| total_payoff_matcher := tot1 st;
                      total_payoff_mismatcher := tot2 st;
                      avg_payoff_matcher := avg;
                      match_rate := rate |};
        metadata_engine := "server" |})).

(** The run once both strategies have been resolved. *)
Definition run (cfg : gmap string value) (s1 s2 : strategy) : Sim Result :=
  let rounds := dict_get cfg "rounds" (VInt 200) in
  match rounds with
  | VInt n =>
      let* st := for_each (range1 n) (body s1 s2) loop_init in
      lift (finish cfg n st)
  | _ => throw TypeError   (* [rounds + 1] or [range] rejects the operand *)
  end.

Definition compute (cfg : gmap string value) : Sim Result :=
  run cfg (resolve (dict_get cfg "strategy_matcher" (VStr "random_50")))
          (resolve (dict_get cfg "strategy_mismatcher" (VStr "anti_pattern"))).

End matching_pennies.

Module rock_paper_scissors.

Definition info : GameInfo :=
  {| id := "rock_paper_scissors";
     name := "Rock-Paper-Scissors";
     category := "classical";
     tier := 1;
     parameters :=
       [ {| p_name := "rounds"; p_type := "int"; p_default := VInt 200;
            p_min := Some 1%Q; p_max := Some 10000%Q;
            p_options := None |};
         {| p_name := "strategy_p1"; p_type := "select"; p_default := VStr "beat_last";
            p_min := None; p_max := None;
            p_options := Some ["random"; "always_rock"; "always_paper"; "always_scissors"; "beat_last"; "cycle"; "frequency_counter"] |};
         {| p_name := "strategy_p2"; p_type := "select"; p_default := VStr "frequency_counter";
            p_min := None; p_max := None;
            p_options := Some ["random"; "always_rock"; "always_paper"; "always_scissors"; "beat_last"; "cycle"; "frequency_counter"] |} ];
     available := true;
     engine := "server";
     tags := ["zero-sum"; "cyclic"] |}.

End rock_paper_scissors.

Module ultimatum.

Definition info : GameInfo :=
  {| id := "ultimatum";
     name := "Ultimatum Game";
     category := "classical";
     tier := 1;
     parameters :=
       [ {| p_name := "rounds"; p_type := "int"; p_default := VInt 100;
            p_min := Some 1%Q; p_max := Some 5000%Q;
            p_options := None |};
         {| p_name := "pie_size"; p_type := "float"; p_default := VFloat 100;
            p_min := Some 1%Q; p_max := Some 10000%Q;
            p_options := None |};
         {| p_name := "proposer_strategy"; p_type := "select"; p_default := VStr "adaptive";
            p_min := None; p_max := None;
            p_options := Some ["fair"; "greedy"; "generous"; "random"; "adaptive"] |};
         {| p_name := "responder_strategy"; p_type := "select"; p_default := VStr "fair_minded";
            p_min := None; p_max := None;
            p_options := Some ["rational"; "fair_minded"; "spiteful"; "random"; "adaptive"] |} ];
     available := true;
     engine := "server";
     tags := ["fairness"; "behavioral"] |}.

End ultimatum.

Module centipede.

Definition info : GameInfo :=
  {| id := "centipede";
     name := "Centipede Game";
     category := "classical";
     tier := 1;
     parameters :=
       [ {| p_name := "max_stages"; p_type := "int"; p_default := VInt 10;
            p_min := Some 2%Q; p_max := Some 50%Q;
            p_options := None |};
         {| p_name := "simulations"; p_type := "int"; p_default := VInt 200;
            p_min := Some 1%Q; p_max := Some 5000%Q;
            p_options := None |};
         {| p_name := "growth_rate"; p_type := "float"; p_default := VFloat 2;
            p_min := Some (11 # 10)%Q; p_max := Some 5%Q;
            p_options := None |};
         {| p_name := "strategy_p1"; p_type := "select"; p_default := VStr "pass_until_80pct";
            p_min := None; p_max := None;
            p_options := Some ["always_take"; "always_pass"; "backward_induction"; "random"; "pass_until_half"; "pass_until_80pct"; "generous"] |};
         {| p_name := "strategy_p2"; p_type := "select"; p_default := VStr "pass_until_half";
            p_min := None; p_max := None;
            p_options := Some ["always_take"; "always_pass"; "backward_induction"; "random"; "pass_until_half"; "pass_until_80pct"; "generous"] |} ];
     available := true;
     engine := "server";
     tags := ["sequential"; "backward-induction"] |}.

End centipede.

Module ess_module.

Definition info : GameInfo :=
  {| id := "ess_module";
     name := "Evolutionary Stable Strategies";
     category := "classical";
     tier := 1;
     parameters :=
       [ {| p_name := "generations"; p_type := "int"; p_default := VInt 200;
            p_min := Some 10%Q; p_max := Some 5000%Q;
            p_options := None |};
         {| p_name := "population_size"; p_type := "int"; p_default := VInt 1000;
            p_min := Some 50%Q; p_max := Some 10000%Q;
            p_options := None |};
         {| p_name := "preset"; p_type := "select"; p_default := VStr "hawk_dove";
            p_min := None; p_max := None;
            p_options := Some ["hawk_dove"; "prisoners_dilemma"; "coordination"; "rps_extended"] |};
         {| p_name := "mutation_rate"; p_type := "float"; p_default := VFloat (1 # 100);
            p_min := Some 0%Q; p_max := Some (1 # 5)%Q;
            p_options := None |} ];
     available := true;
     engine := "server";
     tags := ["evolutionary"; "replicator"] |}.

End ess_module.

Module trust_game.

Definition info : GameInfo :=
  {| id := "trust_game";
     name := "Trust Game";
     category := "underrated";
     tier := 2;
     parameters :=
       [ {| p_name := "rounds"; p_type := "int"; p_default := VInt 200;
            p_min := Some 10%Q; p_max := Some 2000%Q;
            p_options := None |};
         {| p_name := "endowment"; p_type := "float"; p_default := VFloat 10;
            p_min := Some 1%Q; p_max := Some 100%Q;
            p_options := None |};
         {| p_name := "multiplier"; p_type := "float"; p_default := VFloat 3;
            p_min := Some (3 # 2)%Q; p_max := Some 5%Q;
            p_options := None |};
         {| p_name := "investor_strategy"; p_type := "select"; p_default := VStr "adaptive";
            p_min := None; p_max := None;
            p_options := Some ["trusting"; "cautious"; "adaptive"; "random"; "tit_for_tat"] |};
         {| p_name := "trustee_strategy"; p_type := "select"; p_default := VStr "reciprocal";
            p_min := None; p_max := None;
            p_options := Some ["reciprocal"; "selfish"; "fair"; "generous"; "random"] |} ];
     available := true;
     engine := "server";
     tags := ["trust"; "reciprocity"; "sequential"; "behavioral"] |}.

End trust_game.

Module voting_game.

Definition info : GameInfo :=
  {| id := "voting_game";
     name := "Voting Game";
     category := "underrated";
     tier := 2;
     parameters :=
       [ {| p_name := "n_voters"; p_type := "int"; p_default := VInt 100;
            p_min := Some 10%Q; p_max := Some 1000%Q;
            p_options := None |};
         {| p_name := "n_candidates"; p_type := "int"; p_default := VInt 4;
            p_min := Some 3%Q; p_max := Some 8%Q;
            p_options := None |};
         {| p_name := "simulations"; p_type := "int"; p_default := VInt 200;
            p_min := Some 10%Q; p_max := Some 2000%Q;
            p_options := None |};
         {| p_name := "strategic_fraction"; p_type := "float"; p_default := VFloat (1 # 5);
            p_min := Some 0%Q; p_max := Some 1%Q;
            p_options := None |} ];
     available := true;
     engine := "server";
     tags := ["voting"; "social-choice"; "arrow"; "mechanism-design"] |}.

End voting_game.

Module bayesian_signaling.

Definition info : GameInfo :=
  {| id := "bayesian_signaling";
     name := "Bayesian Signaling Game";
     category := "underrated";
     tier := 2;
     parameters :=
       [ {| p_name := "simulations"; p_type := "int"; p_default := VInt 500;
            p_min := Some 10%Q; p_max := Some 5000%Q;
            p_options := None |};
         {| p_name := "high_type_prob"; p_type := "float"; p_default := VFloat (2 # 5);
            p_min := Some (1 # 20)%Q; p_max := Some (19 # 20)%Q;
            p_options := None |};
         {| p_name := "signal_cost_low"; p_type := "float"; p_default := VFloat 2;
            p_min := Some (1 # 10)%Q; p_max := Some 10%Q;
            p_options := None |};
         {| p_name := "signal_cost_high"; p_type := "float"; p_default := VFloat (1 # 2);
            p_min := Some (1 # 10)%Q; p_max := Some 10%Q;
            p_options := None |};
         {| p_name := "acceptance_threshold"; p_type := "float"; p_default := VFloat 3;
            p_min := Some 0%Q; p_max := Some 20%Q;
            p_options := None |} ];
     available := true;
     engine := "server";
     tags := ["information"; "signaling"] |}.

End bayesian_signaling.

Module supply_chain.

Definition info : GameInfo :=
  {| id := "supply_chain";
     name := "Supply Chain Coordination";
     category := "underrated";
     tier := 2;
     parameters :=
       [ {| p_name := "rounds"; p_type := "int"; p_default := VInt 100;
            p_min := Some 10%Q; p_max := Some 1000%Q;
            p_options := None |};
         {| p_name := "n_tiers"; p_type := "int"; p_default := VInt 4;
            p_min := Some 2%Q; p_max := Some 8%Q;
            p_options := None |};
         {| p_name := "base_demand"; p_type := "float"; p_default := VFloat 100;
            p_min := Some 10%Q; p_max := Some 1000%Q;
            p_options := None |};
         {| p_name := "demand_variance"; p_type := "float"; p_default := VFloat 15;
            p_min := Some 1%Q; p_max := Some 100%Q;
            p_options := None |};
         {| p_name := "info_sharing"; p_type := "select"; p_default := VStr "none";
            p_min := None; p_max := None;
            p_options := Some ["none"; "partial"; "full"] |} ];
     available := true;
     engine := "server";
     tags := ["operations"; "coordination"] |}.

End supply_chain.

Module stackelberg.

Definition info : GameInfo :=
  {| id := "stackelberg";
     name := "Stackelberg Competition";
     category := "underrated";
     tier := 2;
     parameters :=
       [ {| p_name := "simulations"; p_type := "int"; p_default := VInt 200;
            p_min := Some 10%Q; p_max := Some 5000%Q;
            p_options := None |};
         {| p_name := "demand_intercept"; p_type := "float"; p_default := VFloat 100;
            p_min := Some 20%Q; p_max := Some 500%Q;
            p_options := None |};
         {| p_name := "marginal_cost"; p_type := "float"; p_default := VFloat 20;
            p_min := Some 0%Q; p_max := Some 200%Q;
            p_options := None |};
         {| p_name := "leader_strategy"; p_type := "select"; p_default := VStr "stackelberg_optimal";
            p_min := None; p_max := None;
            p_options := Some ["stackelberg_optimal"; "cournot_naive"; "aggressive"; "cautious"; "adaptive"] |};
         {| p_name := "follower_strategy"; p_type := "select"; p_default := VStr "best_response";
            p_min := None; p_max := None;
            p_options := Some ["best_response"; "match_leader"; "undercut"; "random"] |} ];
     available := true;
     engine := "server";
     tags := ["oligopoly"; "sequential"] |}.

End stackelberg.

Module cournot_bertrand.

Definition info : GameInfo :=
  {| id := "cournot_bertrand";
     name := "Cournot vs. Bertrand";
     category := "underrated";
     tier := 2;
     parameters :=
       [ {| p_name := "simulations"; p_type := "int"; p_default := VInt 200;
            p_min := Some 10%Q; p_max := Some 5000%Q;
            p_options := None |};
         {| p_name := "mode"; p_type := "select"; p_default := VStr "cournot";
            p_min := None; p_max := None;
            p_options := Some ["cournot"; "bertrand"; "both"] |};
         {| p_name := "n_firms"; p_type := "int"; p_default := VInt 3;
            p_min := Some 2%Q; p_max := Some 10%Q;
            p_options := None |};
         {| p_name := "demand_intercept"; p_type := "float"; p_default := VFloat 100;
            p_min := Some 20%Q; p_max := Some 500%Q;
            p_options := None |};
         {| p_name := "marginal_cost"; p_type := "float"; p_default := VFloat 20;
            p_min := Some 0%Q; p_max := Some 200%Q;
            p_options := None |};
         {| p_name := "differentiation"; p_type := "float"; p_default := VFloat 0;
            p_min := Some 0%Q; p_max := Some 1%Q;
            p_options := None |} ];
     available := true;
     engine := "server";
     tags := ["oligopoly"; "IO"] |}.

End cournot_bertrand.

Module reputation_trust.

Definition info : GameInfo :=
  {| id := "reputation_trust";
     name := "Reputation & Trust Dynamics";
     category := "underrated";
     tier := 2;
     parameters :=
       [ {| p_name := "rounds"; p_type := "int"; p_default := VInt 200;
            p_min := Some 10%Q; p_max := Some 5000%Q;
            p_options := None |};
         {| p_name := "investment"; p_type := "float"; p_default := VFloat 10;
            p_min := Some 1%Q; p_max := Some 100%Q;
            p_options := None |};
         {| p_name := "multiplier"; p_type := "float"; p_default := VFloat 3;
            p_min := Some (3 # 2)%Q; p_max := Some 10%Q;
            p_options := None |};
         {| p_name := "trust_decay"; p_type := "float"; p_default := VFloat (1 # 50);
            p_min := Some 0%Q; p_max := Some (1 # 5)%Q;
            p_options := None |};
         {| p_name := "trustor_strategy"; p_type := "select"; p_default := VStr "threshold_50";
            p_min := None; p_max := None;
            p_options := Some ["always_trust"; "never_trust"; "threshold_50"; "threshold_75"; "gradual"; "random"] |};
         {| p_name := "trustee_type"; p_type := "select"; p_default := VStr "strategic";
            p_min := None; p_max := None;
            p_options := Some ["honest"; "dishonest"; "strategic"; "opportunist"; "reformed"; "conditional"] |} ];
     available := true;
     engine := "server";
     tags := ["RL"; "trust"; "repeated"] |}.

End reputation_trust.

Module el_farol_bar.

Definition info : GameInfo :=
  {| id := "el_farol_bar";
     name := "El Farol Bar Problem";
     category := "innovation";
     tier := 3;
     parameters :=
       [ {| p_name := "n_agents"; p_type := "int"; p_default := VInt 100;
            p_min := Some 20%Q; p_max := Some 500%Q;
            p_options := None |};
         {| p_name := "threshold"; p_type := "float"; p_default := VFloat (3 # 5);
            p_min := Some (3 # 10)%Q; p_max := Some (9 # 10)%Q;
            p_options := None |};
         {| p_name := "rounds"; p_type := "int"; p_default := VInt 100;
            p_min := Some 10%Q; p_max := Some 500%Q;
            p_options := None |};
         {| p_name := "n_strategies"; p_type := "int"; p_default := VInt 5;
            p_min := Some 2%Q; p_max := Some 10%Q;
            p_options := None |};
         {| p_name := "memory"; p_type := "int"; p_default := VInt 5;
            p_min := Some 2%Q; p_max := Some 20%Q;
            p_options := None |} ];
     available := true;
     engine := "server";
     tags := ["minority-game"; "bounded-rationality"; "complexity"; "inductive"] |}.

(** [_predict(strategy, history, n)] for a history of integers and an
    integer [n].  The quotient of the "mean" predictor is exact here and a
    float in the source: both truncate to the same integer as long as
    [(max(history) + 1) * len(history)] is below 2^53. *)
Definition _predict (strategy : string) (history : list Z) (n : Z) : result Z :=
  match history with
  | [] => Ok (n / 2)
  | _ =>
      if String.eqb strategy "mean" then
        rbind (py_div (inject_Z (fold_left Z.add history 0))
                      (inject_Z (Z.of_nat (length history))))
              (fun q => Ok (py_int q))
      else if String.eqb strategy "last" then list_index history (-1)
      else if String.eqb strategy "trend" then
        if Z.of_nat (length history) <? 2 then list_index history (-1)
        else
          rbind (list_index history (-1)) (fun last =>
          rbind (list_index history (-2)) (fun before =>
          let delta := last - before in
          Ok (Z.max 0 (Z.min n (last + delta)))))
      else if String.eqb strategy "cycle" then
        list_index history (- Z.min 3 (Z.of_nat (length history)))
      else if String.eqb strategy "contrarian" then
        rbind (list_index history (-1)) (fun last => Ok (n - last))
      else Ok (n / 2)
  end.

End el_farol_bar.

Module coordination_general.

Definition info : GameInfo :=
  {| id := "coordination_general";
     name := "Generalized Coordination";
     category := "underrated";
     tier := 2;
     parameters :=
       [ {| p_name := "rounds"; p_type := "int"; p_default := VInt 100;
            p_min := Some 10%Q; p_max := Some 2000%Q;
            p_options := None |};
         {| p_name := "n_players"; p_type := "int"; p_default := VInt 20;
            p_min := Some 3%Q; p_max := Some 100%Q;
            p_options := None |};
         {| p_name := "n_actions"; p_type := "int"; p_default := VInt 3;
            p_min := Some 2%Q; p_max := Some 10%Q;
            p_options := None |};
         {| p_name := "strategy"; p_type := "select"; p_default := VStr "best_response";
            p_min := None; p_max := None;
            p_options := Some ["random"; "focal_0"; "majority_follow"; "stubborn"; "best_response"] |};
         {| p_name := "coordination_bonus"; p_type := "float"; p_default := VFloat 2;
            p_min := Some (1 # 2)%Q; p_max := Some 10%Q;
            p_options := None |} ];
     available := true;
     engine := "server";
     tags := ["coordination"; "multi-equilibria"] |}.

End coordination_general.

Module coalition_formation.

Definition info : GameInfo :=
  {| id := "coalition_formation";
     name := "Dynamic Coalition Formation";
     category := "innovation";
     tier := 3;
     parameters :=
       [ {| p_name := "rounds"; p_type := "int"; p_default := VInt 100;
            p_min := Some 10%Q; p_max := Some 1000%Q;
            p_options := None |};
         {| p_name := "n_agents"; p_type := "int"; p_default := VInt 8;
            p_min := Some 3%Q; p_max := Some 20%Q;
            p_options := None |};
         {| p_name := "synergy_factor"; p_type := "float"; p_default := VFloat (3 # 2);
            p_min := Some 1%Q; p_max := Some 5%Q;
            p_options := None |};
         {| p_name := "stability"; p_type := "float"; p_default := VFloat (7 # 10);
            p_min := Some 0%Q; p_max := Some 1%Q;
            p_options := None |} ];
     available := true;
     engine := "server";
     tags := ["coalition"; "Shapley"; "cooperative"] |}.

End coalition_formation.

Module pirate_division.

Definition info : GameInfo :=
  {| id := "pirate_division";
     name := "Pirate Division";
     category := "innovation";
     tier := 3;
     parameters :=
       [ {| p_name := "n_pirates"; p_type := "int"; p_default := VInt 5;
            p_min := Some 3%Q; p_max := Some 10%Q;
            p_options := None |};
         {| p_name := "treasure"; p_type := "int"; p_default := VInt 100;
            p_min := Some 10%Q; p_max := Some 10000%Q;
            p_options := None |};
         {| p_name := "simulations"; p_type := "int"; p_default := VInt 500;
            p_min := Some 10%Q; p_max := Some 5000%Q;
            p_options := None |};
         {| p_name := "rationality"; p_type := "float"; p_default := VFloat (4 # 5);
            p_min := Some 0%Q; p_max := Some 1%Q;
            p_options := None |} ];
     available := true;
     engine := "server";
     tags := ["backward-induction"; "bargaining"; "sequential"] |}.

(** [_backward_induction(n, treasure)] for integer arguments. *)
Definition _backward_induction (n treasure : Z) : result (list Z) :=
  if n =? 1 then Ok [treasure]
  else if n =? 2 then Ok [treasure; 0]
  else
    let votes_needed := n / 2 in
    rbind (for_pure (range_down (n - 1) 0 2)
             (fun i '(division, bought) =>
                if bought <? votes_needed
                then rbind (list_set division i 1) (fun division' =>
                     Ok (division', bought + 1))
                else Ok (division, bought))
             (repeat 0 (Z.to_nat n), 0))
          (fun '(division, _) =>
             list_set division 0 (treasure - fold_left Z.add division 0)).

End pirate_division.

(** ** [registry.py] *)

Module registry.

(** The classes that implement [BaseGame]. *)
Inductive BaseGame : Type :=
  | PrisonersDilemma
  | PublicGoodsGame
  | StagHunt
  | BattleOfSexes
  | MatchingPennies
  | RockPaperScissors
  | UltimatumGame
  | CentipedeGame
  | ESSModule
  | TragedyOfCommons
  | AuctionMechanisms
  | TrustGame
  | VotingGame
  | BayesianSignaling
  | SupplyChain
  | Stackelberg
  | CournotBertrand
  | ReputationTrust
  | ElFarolBar
  | CoordinationGeneral
  | CoalitionFormation
  | PirateDivision.

(** [game.info()] *)
Definition info (game : BaseGame) : GameInfo :=
  match game with
  | PrisonersDilemma => prisoners_dilemma.info
  | PublicGoodsGame => public_goods.info
  | StagHunt => stag_hunt.info
  | BattleOfSexes => battle_of_sexes.info
  | MatchingPennies => matching_pennies.info
  | RockPaperScissors => rock_paper_scissors.info
  | UltimatumGame => ultimatum.info
  | CentipedeGame => centipede.info
  | ESSModule => ess_module.info
  | TragedyOfCommons => tragedy_of_commons.info
  | AuctionMechanisms => auction_mechanisms.info
  | TrustGame => trust_game.info
  | VotingGame => voting_game.info
  | BayesianSignaling => bayesian_signaling.info
  | SupplyChain => supply_chain.info
  | Stackelberg => stackelberg.info
  | CournotBertrand => cournot_bertrand.info
  | ReputationTrust => reputation_trust.info
  | ElFarolBar => el_farol_bar.info
  | CoordinationGeneral => coordination_general.info
  | CoalitionFormation => coalition_formation.info
  | PirateDivision => pirate_division.info
  end.

(** The [dict] literal, in insertion order. *)
Definition _GAMES : list (string * BaseGame) :=
  [ ("prisoners_dilemma", PrisonersDilemma);
    ("public_goods", PublicGoodsGame);
    ("stag_hunt", StagHunt);
    ("battle_of_sexes", BattleOfSexes);
    ("matching_pennies", MatchingPennies);
    ("rock_paper_scissors", RockPaperScissors);
    ("ultimatum", UltimatumGame);
    ("centipede", CentipedeGame);
    ("ess_module", ESSModule);
    ("tragedy_of_commons", TragedyOfCommons);
    ("auction_mechanisms", AuctionMechanisms);
    ("trust_game", TrustGame);
    ("voting_game", VotingGame);
    ("bayesian_signaling", BayesianSignaling);
    ("supply_chain", SupplyChain);
    ("stackelberg", Stackelberg);
    ("cournot_bertrand", CournotBertrand);
    ("reputation_trust", ReputationTrust);
    ("el_farol_bar", ElFarolBar);
    ("coordination_general", CoordinationGeneral);
    ("coalition_formation", CoalitionFormation);
    ("pirate_division", PirateDivision) ].

(** [game_id in _GAMES] *)
Definition contains (game_id : string) : bool :=
  existsb (fun kv => String.eqb game_id (fst kv)) _GAMES.

Definition get_game (game_id : string) : option BaseGame :=
  assoc game_id _GAMES.

Definition get_all_game_info : list GameInfo :=
  map (fun kv => info (snd kv)) _GAMES.

Definition get_game_info (game_id : string) : option GameInfo :=
  if contains game_id then
    match assoc game_id _GAMES with
    | Some g => Some (info g)
    | None => None
    end
  else None.

End registry.

(** ** [routes.py] *)

Module routes.

Record SimulationRequest : Type := {
  req_game_id : string;
  req_config : gmap string value;
}.

(** What a handler hands back: the value it returns or the [HTTPException]
    it raises. *)
Inductive response (B : Type) : Type :=
  | Returned (body : B)
  | HTTPException (status_code : Z) (detail : string).
Arguments Returned {B} body.
Arguments HTTPException {B} status_code detail.

Definition list_games : response (list GameInfo) :=
  Returned registry.get_all_game_info.

Definition game_detail (game_id : string) : response GameInfo :=
  match registry.get_game_info game_id with
  | None => HTTPException 404 ("Game '" ++ game_id ++ "' not found.")
  | Some info => Returned info
  end.

Section Simulate.

(** The outcome of the call [game.compute(req.config)], for any game
    class, and the text [str(e)] of an exception. *)
Variable Body : Type.
Variable compute : registry.BaseGame -> gmap string value -> result Body.
Variable exn_str : exn -> string.

Definition run_simulation (req : SimulationRequest) : response Body :=
  match registry.get_game (req_game_id req) with
  | None =>
      match registry.get_game_info (req_game_id req) with
      | Some info =>
          if negb (available info)
          then HTTPException 501
                 ("Game '" ++ req_game_id req ++ "' is coming soon.")
          else HTTPException 404
                 ("Game '" ++ req_game_id req ++ "' not found.")
      | None => HTTPException 404
                  ("Game '" ++ req_game_id req ++ "' not found.")
      end
  | Some game =>
      match compute game (req_config req) with
      | Ok r => Returned r
      | Raise e => HTTPException 500 ("Simulation error: " ++ exn_str e)
      end
  end.

End Simulate.

End routes.

(** * Properties *)

(** ** Vocabulary of the statements *)


(** The names of the parameters a catalogue entry declares. *)
Definition declared_names (i : GameInfo) : list string :=
  map p_name (parameters i).

(** What a caller observes of a finished computation. *)
Definition outcome {A : Type} (r : result (A * Rng)) : result A :=
  match r with
  | Ok (a, _) => Ok a
  | Raise e => Raise e
  end.

(** A tape for examples: every raw draw is [k], every uniform draw is [u],
    every normal deviate is [0]. *)
Definition const_rng (k : nat) (u : Q) : Rng :=
  {| index_tape := fun _ => k; uniform_tape := fun _ => u;
     gauss_tape := fun _ => 0%Q; cursor := 0 |}.

Definition valid_action (a : string) : Prop := a = "C" \/ a = "D".

(** The payoff of participant [i] in a round, and its sum over a trace. *)
Definition payoff_of {A S : Type} (i : nat) (rd : RoundData A S) : Q :=
  nth i (payoffs rd) 0%Q.

Definition sum_payoffs {A S : Type} (i : nat) (rds : list (RoundData A S)) : Q :=
  fold_right (fun rd acc => (payoff_of i rd + acc)%Q) 0%Q rds.

(** Two runs that agree on everything but the echoed configuration. *)
Definition same_run {R U : Type} (a b : result (SimulationResult R U * Rng)) : Prop :=
  match a, b with
  | Ok (x, g), Ok (y, g') =>
      game_id x = game_id y /\ rounds x = rounds y /\
      equilibria x = equilibria y /\ summary x = summary y /\
      metadata_engine x = metadata_engine y /\ g = g'
  | Raise e, Raise e' => e = e'
  | _, _ => False
  end.

(** The sample that selects every auction, and a generator moved [k] draws
    ahead. *)
Definition all_indices (n : Z) : gset Z := list_to_set (range0 n).

Definition skip (k : nat) (g : Rng) : Rng :=
  {| index_tape := index_tape g; uniform_tape := uniform_tape g;
     gauss_tape := gauss_tape g; cursor := (cursor g + k)%nat |}.

(** 201 auctions between two bidders.  The sampler reads the constant raw
    draw [pick]; the bidders of the first auction value the item at 100.001
    and 100.004, those of every other auction at 100 and 90. *)
Definition near_tie_config : gmap string value :=
  <["n_auctions" := VInt 201]> {["n_bidders" := VInt 2]}.

Definition near_tie_tape (pick : nat) : Rng :=
  {| index_tape := fun _ => pick;
     uniform_tape := fun _ => 0%Q;
     gauss_tape := fun k =>
       if (k =? 200)%nat then (1 # 20000)%Q
       else if (k =? 201)%nat then (4 # 20000)%Q
       else if Nat.even k then 0%Q else (-1 # 2)%Q;
     cursor := 0 |}.

(** A decision function of the prisoner's dilemma that, on histories of
    actions of equal length, returns an action of the game. *)
Definition pd_good_strategy (f : prisoners_dilemma.strategy) : Prop :=
  forall h opp g,
    Forall valid_action h -> Forall valid_action opp -> length h = length opp ->
    exists a g', f h opp g = Ok (a, g') /\ valid_action a.

(** What the round loop of the prisoner's dilemma maintains. *)
Record pd_Inv (st : prisoners_dilemma.Loop) : Prop := {
  inv_h1 : Forall valid_action (prisoners_dilemma.h1 st);
  inv_h2 : Forall valid_action (prisoners_dilemma.h2 st);
  inv_len : length (prisoners_dilemma.h1 st) = length (prisoners_dilemma.h2 st);
  inv_sum1 : prisoners_dilemma.total_p1 st
             == sum_payoffs 0 (prisoners_dilemma.round_data st);
  inv_sum2 : prisoners_dilemma.total_p2 st
             == sum_payoffs 1 (prisoners_dilemma.round_data st);
}.


(** Two states of the auction loop, or two outcomes of it, that agree on the
    accumulated revenues and surpluses. *)
Definition auction_agree (st st' : auction_mechanisms.Loop) : Prop :=
  auction_mechanisms.revenues st = auction_mechanisms.revenues st' /\
  auction_mechanisms.winner_surpluses st = auction_mechanisms.winner_surpluses st'.

Definition auction_agree_outcome
    (a b : result (auction_mechanisms.Loop * Rng)) : Prop :=
  match a, b with
  | Ok (s, g), Ok (s', g') => auction_agree s s' /\ g = g'
  | Raise e, Raise e' => e = e'
  | _, _ => False
  end.

(** A decision function of the commons that always returns. *)
Definition commons_total (f : tragedy_of_commons.strategy) : Prop :=
  forall h cap g, exists z g', f h cap g = Ok (z, g').

(** ** Vocabulary of the further properties *)

(** The state of the prisoner's dilemma loop after round [r] was played
    with the actions [a1], [a2] for the payoffs [p1], [p2]. *)
Definition pd_next (st : prisoners_dilemma.Loop) (r : Z) (a1 a2 : string) (p1 p2 : Z)
  : prisoners_dilemma.Loop :=
  let t1 := (prisoners_dilemma.total_p1 st + inject_Z p1)%Q in
  let t2 := (prisoners_dilemma.total_p2 st + inject_Z p2)%Q in
  let c := prisoners_dilemma.coop_count st + prisoners_dilemma.count_C a1
           + prisoners_dilemma.count_C a2 in
  {| prisoners_dilemma.h1 := prisoners_dilemma.h1 st ++ [a1];
     prisoners_dilemma.h2 := prisoners_dilemma.h2 st ++ [a2];
     prisoners_dilemma.round_data := prisoners_dilemma.round_data st ++
       [ {| round_num := r;
            actions := [a1; a2];
            payoffs := [inject_Z p1; inject_Z p2];
            state := {| prisoners_dilemma.cumulative := [t1; t2];
                        prisoners_dilemma.coop_rate :=
                          (inject_Z c / inject_Z (2 * r))%Q |} |} ];
     prisoners_dilemma.total_p1 := t1;
     prisoners_dilemma.total_p2 := t2;
     prisoners_dilemma.coop_count := c |}.

(** The actions of one player along a trace. *)
Definition actions_of {S : Type} (i : nat) (rds : list (RoundData string S))
  : list string :=
  map (fun rd => nth i (actions rd) "") rds.

(** A round of the prisoner's dilemma whose actions are actions of the game
    and whose payoffs are the cell of the payoff matrix for them. *)
Definition pd_round_ok (rd : prisoners_dilemma.Round) : Prop :=
  exists a1 a2 p1 p2,
    actions rd = [a1; a2] /\ valid_action a1 /\ valid_action a2 /\
    prisoners_dilemma.payoff_lookup a1 a2 prisoners_dilemma.PAYOFF_MATRIX
      = Ok (p1, p2) /\
    payoffs rd = [inject_Z p1; inject_Z p2].

Definition unit_interval (x : Q) : Prop := (0 <= x)%Q /\ (x <= 1)%Q.

(** What the trace of the prisoner's dilemma satisfies after [k] rounds. *)
Record pd_Trace (k : nat) (st : prisoners_dilemma.Loop) : Prop := {
  tr_len1 : length (prisoners_dilemma.h1 st) = k;
  tr_len2 : length (prisoners_dilemma.h2 st) = k;
  tr_nums : map round_num (prisoners_dilemma.round_data st)
            = map Z.of_nat (seq 1 k);
  tr_a1 : actions_of 0 (prisoners_dilemma.round_data st) = prisoners_dilemma.h1 st;
  tr_a2 : actions_of 1 (prisoners_dilemma.round_data st) = prisoners_dilemma.h2 st;
  tr_rounds : Forall pd_round_ok (prisoners_dilemma.round_data st);
  tr_rates : Forall (fun rd => unit_interval (prisoners_dilemma.coop_rate (state rd)))
                    (prisoners_dilemma.round_data st);
  tr_coop : 0 <= prisoners_dilemma.coop_count st <= 2 * Z.of_nat k;
  tr_tot1 : (0 <= prisoners_dilemma.total_p1 st)%Q
            /\ (prisoners_dilemma.total_p1 st <= inject_Z (5 * Z.of_nat k))%Q;
  tr_tot2 : (0 <= prisoners_dilemma.total_p2 st)%Q
            /\ (prisoners_dilemma.total_p2 st <= inject_Z (5 * Z.of_nat k))%Q;
  tr_last : match last (prisoners_dilemma.round_data st) with
            | Some rd => prisoners_dilemma.cumulative (state rd)
                         = [prisoners_dilemma.total_p1 st;
                            prisoners_dilemma.total_p2 st]
            | None => True
            end;
}.

(** A computation that reads no draw: it leaves the generator as it found it
    and does the same on every generator. *)
Definition tape_free {A : Type} (m : Sim A) : Prop :=
  forall g g2,
    match m g with
    | Ok (a, g') => g' = g /\ m g2 = Ok (a, g2)
    | Raise e => m g2 = Raise e
    end.

(** The entries of the prisoner's dilemma table that draw nothing, and those
    that never defect first. *)
Definition pd_deterministic_names : list string :=
  ["always_cooperate"; "always_defect"; "tit_for_tat"; "grim_trigger"; "pavlov"].

Definition pd_nice_names : list string :=
  ["always_cooperate"; "tit_for_tat"; "grim_trigger"; "pavlov"].




(** A decision function of the commons that asks for at least one unit, as
    [max(1, ...)] makes every entry of the table. *)
Definition commons_positive (f : tragedy_of_commons.strategy) : Prop :=
  forall h cap g x g', f h cap g = Ok (x, g') -> 1 <= x.

(** The state of the commons loop after round [r], in which the agents asked
    for [harvests] and the regeneration rate was [rg]. *)
Definition commons_next (ni : Z) (rg capacity : Q) (r : Z)
    (st : tragedy_of_commons.Loop) (harvests : list Z) : tragedy_of_commons.Loop :=
  let total_harvest := fold_left Z.add harvests 0 in
  let actual := qmin (inject_Z total_harvest) (tragedy_of_commons.pool st) in
  let scale := if 0 <? total_harvest
               then (actual / inject_Z total_harvest)%Q else 0%Q in
  let pool1 := (tragedy_of_commons.pool st - actual)%Q in
  let pool2 := Qred (qmin capacity (pool1 + pool1 * rg)) in
  let usage_ratio := if qgt capacity 0 then (actual / capacity)%Q else 0%Q in
  {| tragedy_of_commons.pool := pool2;
     tragedy_of_commons.rd := tragedy_of_commons.rd st ++
       [ {| round_num := r;
            actions := map (fun h => (inject_Z h * scale)%Q) harvests;
            payoffs := [Qred (actual / inject_Z ni)];
            state := {| tragedy_of_commons.st_pool := py_round pool2 2;
                        tragedy_of_commons.st_total_harvest := py_round actual 2;
                        tragedy_of_commons.st_usage_ratio := py_round usage_ratio 4 |} |} ];
     tragedy_of_commons.history := tragedy_of_commons.history st ++ [usage_ratio];
     tragedy_of_commons.total_harvested :=
       Qred (tragedy_of_commons.total_harvested st + actual);
     tragedy_of_commons.depleted_round :=
       if qgt 1 pool2
       then match tragedy_of_commons.depleted_round st with
            | None => Some r
            | Some d => Some d
            end
       else tragedy_of_commons.depleted_round st |}.

(** The per-agent payoff of each round of a trace. *)
Definition commons_payoffs (rds : list tragedy_of_commons.Round) : list Q :=
  map (fun rd => nth 0 (payoffs rd) 0%Q) rds.

(** A round of the commons between [ni] agents on a pool of capacity [cap]:
    one share per agent and a single payoff, none of them negative, a
    recorded pool between 0 and the rounded capacity, and a usage ratio
    between 0 and 1. *)
Definition commons_round_ok (ni : Z) (cap : Q) (rd : tragedy_of_commons.Round) : Prop :=
  length (actions rd) = Z.to_nat ni /\
  Forall (fun a => (0 <= a)%Q) (actions rd) /\
  (exists pay, payoffs rd = [pay] /\ (0 <= pay)%Q) /\
  (0 <= tragedy_of_commons.st_pool (state rd))%Q /\
  (tragedy_of_commons.st_pool (state rd) <= py_round cap 2)%Q /\
  (0 <= tragedy_of_commons.st_total_harvest (state rd))%Q /\
  unit_interval (tragedy_of_commons.st_usage_ratio (state rd)).

(** How the round of depletion relates to the pools of a trace of [k]
    rounds. *)
Definition commons_depletion (k : Z) (d : option Z)
    (rds : list tragedy_of_commons.Round) : Prop :=
  match d with
  | Some d =>
      1 <= d <= k /\
      Forall (fun rd => round_num rd < d ->
                        (1 <= tragedy_of_commons.st_pool (state rd))%Q) rds /\
      Forall (fun rd => round_num rd = d ->
                        (tragedy_of_commons.st_pool (state rd) <= 1)%Q) rds
  | None =>
      Forall (fun rd => (1 <= tragedy_of_commons.st_pool (state rd))%Q) rds
  end.

(** What the commons loop has established after [k] rounds. *)
Record commons_Trace (ni : Z) (cap : Q) (k : nat)
    (st : tragedy_of_commons.Loop) : Prop := {
  ct_pool_lo : (0 <= tragedy_of_commons.pool st)%Q;
  ct_pool_hi : (tragedy_of_commons.pool st <= cap)%Q;
  ct_total : (0 <= tragedy_of_commons.total_harvested st)%Q;
  ct_nums : map round_num (tragedy_of_commons.rd st) = map Z.of_nat (seq 1 k);
  ct_rounds : Forall (commons_round_ok ni cap) (tragedy_of_commons.rd st);
  ct_history : Forall unit_interval (tragedy_of_commons.history st);
  ct_sum : (tragedy_of_commons.total_harvested st
            == inject_Z ni * py_sum (commons_payoffs (tragedy_of_commons.rd st)))%Q;
  ct_depletion : commons_depletion (Z.of_nat k) (tragedy_of_commons.depleted_round st)
                   (tragedy_of_commons.rd st);
  ct_survived : tragedy_of_commons.depleted_round st = None -> k <> O ->
                (1 <= tragedy_of_commons.pool st)%Q;
}.


(** The two sides of a coin, and a decision function of matching pennies
    that, on histories of sides of equal length, returns a side. *)
Definition coin (a : string) : Prop := a = "H" \/ a = "T".

Definition mp_good_strategy (f : matching_pennies.strategy) : Prop :=
  forall h o g,
    Forall coin h -> Forall coin o -> length h = length o ->
    exists a g', f h o g = Ok (a, g') /\ coin a.

(** Whether the two coins of a round agree. *)
Definition mp_matched (rd : matching_pennies.Round) : bool :=
  match actions rd with
  | [a1; a2] => String.eqb a1 a2
  | _ => false
  end.

(** A round of matching pennies: two coins, and the matcher wins from the
    mismatcher what the mismatcher loses. *)
Definition mp_round_ok (rd : matching_pennies.Round) : Prop :=
  exists a1 a2 p,
    actions rd = [a1; a2] /\ coin a1 /\ coin a2 /\
    p = (if String.eqb a1 a2 then 1 else -1) /\
    payoffs rd = [inject_Z p; inject_Z (- p)].

(** What the loop of matching pennies has established after [k] rounds. *)
Record mp_Trace (k : nat) (st : matching_pennies.Loop) : Prop := {
  mt_h1 : Forall coin (matching_pennies.h1 st);
  mt_h2 : Forall coin (matching_pennies.h2 st);
  mt_len1 : length (matching_pennies.h1 st) = k;
  mt_len2 : length (matching_pennies.h2 st) = k;
  mt_nums : map round_num (matching_pennies.rd st) = map Z.of_nat (seq 1 k);
  mt_rounds : Forall mp_round_ok (matching_pennies.rd st);
  mt_rates : Forall (fun rd => unit_interval (matching_pennies.st_match_rate (state rd)))
                    (matching_pennies.rd st);
  mt_zero : matching_pennies.tot1 st + matching_pennies.tot2 st = 0;
  mt_tot : matching_pennies.tot1 st
           = 2 * matching_pennies.match_count st - Z.of_nat k;
  mt_count : matching_pennies.match_count st
             = Z.of_nat (length (List.filter mp_matched (matching_pennies.rd st)));
  mt_range : 0 <= matching_pennies.match_count st <= Z.of_nat k;
}.

(** ** The embedding on small inputs *)

Example pd_tit_for_tat_against_defector :
  exists res,
    outcome (prisoners_dilemma.compute {["rounds" := VInt 3]} (const_rng 0 0)) = Ok res /\
    map actions (rounds res) = [["C"; "D"]; ["D"; "D"]; ["D"; "D"]] /\
    map payoffs (rounds res) = [[0%Q; 5%Q]; [1%Q; 1%Q]; [1%Q; 1%Q]] /\
    prisoners_dilemma.cooperation_rate (summary res) = (1 # 6)%Q.
Proof.
  eexists. split; [vm_compute; reflexivity|].
  repeat split; vm_compute; reflexivity.
Qed.

Example pd_noise_flips_both_actions :
  exists res,
    outcome (prisoners_dilemma.compute
               (<["noise" := VFloat (1 # 2)]>
                  (<["strategy_p1" := VStr "pavlov"]> {["rounds" := VInt 4]}))
               (const_rng 0 (1 # 4))) = Ok res /\
    map actions (rounds res) = [["D"; "C"]; ["C"; "C"]; ["D"; "C"]; ["C"; "C"]].
Proof. eexists. split; vm_compute; reflexivity. Qed.

Example pd_rounds_must_be_an_int :
  outcome (prisoners_dilemma.compute {["rounds" := VFloat 3]} (const_rng 0 0))
  = Raise TypeError.
Proof. vm_compute. reflexivity. Qed.

Example commons_two_rounds :
  exists res,
    outcome (tragedy_of_commons.compute (fun _ => "") {["rounds" := VInt 2]}
               (const_rng 0 0)) = Ok res /\
    map payoffs (rounds res) = [[83%Q]; [50%Q]] /\
    tragedy_of_commons.final_pool (summary res) = (9072 # 25)%Q /\
    tragedy_of_commons.avg_harvest_per_agent (summary res) = (133 # 2)%Q.
Proof.
  eexists. split; [vm_compute; reflexivity|].
  repeat split; vm_compute; reflexivity.
Qed.

Example auction_needs_two_bidders :
  outcome (auction_mechanisms.compute
             (<["n_auctions" := VInt 2]> {["n_bidders" := VInt 1]}) (const_rng 0 0))
  = Raise IndexError.
Proof. vm_compute. reflexivity. Qed.

Example auction_negative_count :
  outcome (auction_mechanisms.compute {["n_auctions" := VInt (-1)]} (const_rng 0 0))
  = Raise ValueError.
Proof. vm_compute. reflexivity. Qed.

(** ** The [Sim] monad *)

Lemma bind_ok {A B : Type} (m : Sim A) (k : A -> Sim B) g a g' :
  m g = Ok (a, g') -> bind m k g = k a g'.
Proof. intros H. unfold bind. now rewrite H. Qed.

Lemma bind_raise {A B : Type} (m : Sim A) (k : A -> Sim B) g e :
  m g = Raise e -> bind m k g = Raise e.
Proof. intros H. unfold bind. now rewrite H. Qed.

Lemma lift_ok {A : Type} (r : result A) a g :
  r = Ok a -> lift r g = Ok (a, g).
Proof. intros ->. reflexivity. Qed.

Lemma for_each_app {I S : Type} (l1 l2 : list I) (body : I -> S -> Sim S) s g :
  for_each (l1 ++ l2) body s g =
  bind (for_each l1 body s) (fun s' => for_each l2 body s') g.
Proof.
  revert s g. induction l1 as [|i l1 IH]; intros s g; simpl.
  - reflexivity.
  - unfold bind in *. destruct (body i s g) as [[s' g']|e]; [|reflexivity].
    apply IH.
Qed.

Lemma range1_length n : length (range1 n) = Z.to_nat n.
Proof. unfold range1. now rewrite length_map, length_seq. Qed.



(** ** Prisoner's dilemma: the round loop *)

Section pd_facts.
Import prisoners_dilemma.

Lemma pd_last_item_valid (l : list string) :
  Forall valid_action l -> l <> [] ->
  exists a, last_item l = Ok a /\ valid_action a.
Proof.
  intros Hall Hne. unfold last_item.
  destruct (last l) as [a|] eqn:E.
  - exists a. split; [reflexivity|].
    rewrite Forall_forall in Hall. apply Hall.
    apply last_Some in E as [l' ->]. apply elem_of_app. right. now left.
  - apply last_None in E. contradiction.
Qed.

Lemma pd_always_cooperate_good : pd_good_strategy always_cooperate.
Proof. intros h opp g _ _ _. exists "C", g. split; [reflexivity|now left]. Qed.

Lemma pd_always_defect_good : pd_good_strategy always_defect.
Proof. intros h opp g _ _ _. exists "D", g. split; [reflexivity|now right]. Qed.

Lemma pd_random_good : pd_good_strategy random.
Proof.
  intros h opp g _ _ _. unfold random, random_choice.
  eexists _, _. split; [reflexivity|].
  change (length ["C"; "D"]) with 2%nat.
  pose proof (Nat.mod_upper_bound (index_tape g (cursor g)) 2 ltac:(lia)) as Hlt.
  destruct (index_tape g (cursor g) mod 2)%nat as [|[|j]]; simpl.
  - now left.
  - now right.
  - lia.
Qed.

Lemma pd_tit_for_tat_good : pd_good_strategy tit_for_tat.
Proof.
  intros h opp g _ Hopp _. unfold tit_for_tat.
  destruct opp as [|x opp'].
  - exists "C", g. split; [reflexivity|now left].
  - destruct (pd_last_item_valid (x :: opp') Hopp) as (a & Ha & Hv); [discriminate|].
    exists a, g. split; [|exact Hv]. now apply lift_ok.
Qed.

Lemma pd_grim_trigger_good : pd_good_strategy grim_trigger.
Proof.
  intros h opp g _ _ _. unfold grim_trigger.
  destruct (str_in "D" opp).
  - exists "D", g. split; [reflexivity|now right].
  - exists "C", g. split; [reflexivity|now left].
Qed.

Lemma pd_pavlov_good : pd_good_strategy pavlov.
Proof.
  intros h opp g Hh Hopp Hlen. unfold pavlov.
  destruct h as [|x h'].
  - exists "C", g. split; [reflexivity|now left].
  - destruct (pd_last_item_valid (x :: h') Hh) as (a & Ha & _); [discriminate|].
    destruct (pd_last_item_valid opp Hopp) as (b & Hb & _).
    { intros ->. discriminate Hlen. }
    rewrite (bind_ok _ _ g a g (lift_ok _ _ _ Ha)).
    rewrite (bind_ok _ _ g b g (lift_ok _ _ _ Hb)).
    eexists _, g. split; [reflexivity|].
    destruct (String.eqb a b); [now left|now right].
Qed.

(** Whatever the name, the resolved function is one of the table. *)
Lemma pd_resolve_cases (name : value) :
  resolve name = always_cooperate \/ resolve name = always_defect \/
  resolve name = random \/ resolve name = tit_for_tat \/
  resolve name = grim_trigger \/ resolve name = pavlov.
Proof.
  destruct name as [n|x|s]; simpl; auto.
  repeat match goal with
         | |- context [String.eqb s ?k] => destruct (String.eqb s k); [auto 7|]
         end.
  auto.
Qed.

Lemma pd_resolve_good (name : value) : pd_good_strategy (resolve name).
Proof.
  destruct (pd_resolve_cases name) as [->|[->|[->|[->|[->| ->]]]]];
    auto using pd_always_cooperate_good, pd_always_defect_good, pd_random_good,
               pd_tit_for_tat_good, pd_grim_trigger_good, pd_pavlov_good.
Qed.

End pd_facts.

Section pd_loop.
Import prisoners_dilemma.

Lemma pd_flip_valid a : valid_action (flip a).
Proof. unfold flip. destruct (String.eqb a "C"); [now right|now left]. Qed.

Lemma pd_maybe_flip_ok noise a g :
  is_number noise = true -> valid_action a ->
  exists a' g', maybe_flip noise a g = Ok (a', g') /\ valid_action a'.
Proof.
  intros Hn Ha. unfold maybe_flip.
  rewrite (bind_ok _ _ g _ (advance g) eq_refl).
  destruct noise as [n|x|s]; try discriminate; simpl;
    (erewrite bind_ok by (apply lift_ok; reflexivity));
    eexists _, _; (split; [reflexivity|]);
    match goal with |- context [if ?b then _ else _] => destruct b end;
    auto using pd_flip_valid.
Qed.

Lemma pd_apply_noise_ok noise a1 a2 g :
  is_number noise = true -> valid_action a1 -> valid_action a2 ->
  exists b1 b2 g', apply_noise noise a1 a2 g = Ok ((b1, b2), g') /\
                   valid_action b1 /\ valid_action b2.
Proof.
  intros Hn H1 H2. unfold apply_noise.
  assert (exists p, noise_positive noise = Ok p) as [p Hp].
  { destruct noise; try discriminate; simpl; eauto. }
  rewrite (bind_ok _ _ g p g (lift_ok _ _ _ Hp)).
  destruct p.
  - destruct (pd_maybe_flip_ok noise a1 g Hn H1) as (b1 & g1 & E1 & V1).
    rewrite (bind_ok _ _ _ _ _ E1).
    destruct (pd_maybe_flip_ok noise a2 g1 Hn H2) as (b2 & g2 & E2 & V2).
    rewrite (bind_ok _ _ _ _ _ E2).
    exists b1, b2, g2. auto.
  - exists a1, a2, g. auto.
Qed.

Lemma pd_payoff_lookup_valid a1 a2 :
  valid_action a1 -> valid_action a2 ->
  exists p1 p2, payoff_lookup a1 a2 PAYOFF_MATRIX = Ok (p1, p2).
Proof. intros [-> | ->] [-> | ->]; eexists _, _; reflexivity. Qed.

Lemma pd_sum_payoffs_snoc {A S : Type} i (l : list (RoundData A S)) rd :
  sum_payoffs i (l ++ [rd]) == sum_payoffs i l + payoff_of i rd.
Proof.
  induction l as [|x l IH]; simpl.
  - ring.
  - rewrite IH. ring.
Qed.

Lemma pd_Inv_init : pd_Inv loop_init.
Proof. split; simpl; auto; reflexivity. Qed.

Lemma pd_body_ok s1 s2 noise r st g :
  pd_good_strategy s1 -> pd_good_strategy s2 -> is_number noise = true -> pd_Inv st ->
  exists st' g',
    body s1 s2 noise r st g = Ok (st', g') /\ pd_Inv st' /\
    length (round_data st') = S (length (round_data st)).
Proof.
  intros G1 G2 Hn [I1 I2 IL S1 S2]. unfold body.
  destruct (G1 (h1 st) (h2 st) g I1 I2 IL) as (a1 & g1 & E1 & V1).
  rewrite (bind_ok _ _ _ _ _ E1).
  destruct (G2 (h2 st) (h1 st) g1 I2 I1 (eq_sym IL)) as (a2 & g2 & E2 & V2).
  rewrite (bind_ok _ _ _ _ _ E2).
  destruct (pd_apply_noise_ok noise a1 a2 g2 Hn V1 V2) as (b1 & b2 & g3 & E3 & W1 & W2).
  rewrite (bind_ok _ _ _ _ _ E3).
  destruct (pd_payoff_lookup_valid b1 b2 W1 W2) as (p1 & p2 & E4).
  rewrite (bind_ok _ _ _ _ _ (lift_ok _ _ _ E4)).
  eexists _, g3. split; [reflexivity|]. split.
  - split; cbn [h1 h2 round_data total_p1 total_p2].
    + apply Forall_app. split; [exact I1|]. now constructor.
    + apply Forall_app. split; [exact I2|]. now constructor.
    + rewrite !length_app. simpl. lia.
    + rewrite pd_sum_payoffs_snoc. unfold payoff_of. cbn [payoffs nth].
      apply Qplus_comp; [exact S1|reflexivity].
    + rewrite pd_sum_payoffs_snoc. unfold payoff_of. cbn [payoffs nth].
      apply Qplus_comp; [exact S2|reflexivity].
  - cbn [round_data]. rewrite length_app. simpl. lia.
Qed.

Lemma pd_loop_ok s1 s2 noise (l : list Z) st g :
  pd_good_strategy s1 -> pd_good_strategy s2 -> is_number noise = true -> pd_Inv st ->
  exists st' g',
    for_each l (body s1 s2 noise) st g = Ok (st', g') /\ pd_Inv st' /\
    length (round_data st') = (length (round_data st) + length l)%nat.
Proof.
  intros G1 G2 Hn. revert st g.
  induction l as [|r l IH]; intros st g HI; simpl.
  - exists st, g. split; [reflexivity|]. split; [exact HI|lia].
  - destruct (pd_body_ok s1 s2 noise r st g G1 G2 Hn HI) as (st1 & g1 & E & HI1 & L1).
    rewrite (bind_ok _ _ _ _ _ E).
    destruct (IH st1 g1 HI1) as (st2 & g2 & E2 & HI2 & L2).
    exists st2, g2. split; [exact E2|]. split; [exact HI2|]. lia.
Qed.

(** A positive integer round count and a numeric noise make the run
    complete, whatever the two decision functions are named. *)
Lemma pd_run_ok cfg (s1 s2 : strategy) g n :
  pd_good_strategy s1 -> pd_good_strategy s2 ->
  dict_get cfg "rounds" (VInt 100) = VInt n -> 0 < n ->
  is_number (dict_get cfg "noise" (VFloat 0)) = true ->
  exists res g',
    run cfg s1 s2 g = Ok (res, g') /\
    Z.of_nat (length (rounds res)) = n /\
    total_payoff_p1 (summary res) == sum_payoffs 0 (rounds res) /\
    total_payoff_p2 (summary res) == sum_payoffs 1 (rounds res) /\
    avg_payoff_p1 (summary res) == sum_payoffs 0 (rounds res) / inject_Z n /\
    avg_payoff_p2 (summary res) == sum_payoffs 1 (rounds res) / inject_Z n.
Proof.
  intros G1 G2 Hr Hn Hnoise. unfold run. rewrite Hr.
  destruct (pd_loop_ok s1 s2 (dict_get cfg "noise" (VFloat 0)) (range1 n)
              loop_init g G1 G2 Hnoise pd_Inv_init)
    as (st & g' & E & [I1 I2 IL S1 S2] & L).
  rewrite (bind_ok _ _ _ _ _ E).
  unfold finish, div_rounds.
  assert ((n =? 0) = false) as -> by lia.
  assert ((2 * n =? 0) = false) as -> by lia.
  cbn [rbind lift]. eexists _, g'. split; [reflexivity|].
  cbn [rounds summary total_payoff_p1 total_payoff_p2 avg_payoff_p1 avg_payoff_p2].
  rewrite L, range1_length. cbn [loop_init round_data length Nat.add].
  split; [lia|]. split; [exact S1|]. split; [exact S2|].
  split; (apply Qmult_comp; [assumption|reflexivity]).
Qed.

End pd_loop.

(** ** Prisoner's dilemma: what [compute] reads of the configuration *)

Lemma dict_get_insert_ne (cfg : gmap string value) k v key d :
  k <> key -> dict_get (<[k:=v]> cfg) key d = dict_get cfg key d.
Proof. intros H. unfold dict_get. now rewrite lookup_insert_ne. Qed.

Lemma dict_get_insert_default (cfg : gmap string value) key d :
  cfg !! key = None -> dict_get (<[key:=d]> cfg) key d = dict_get cfg key d.
Proof. intros H. unfold dict_get. now rewrite lookup_insert_eq, H. Qed.

Lemma same_run_refl_cfg cfg cfg' (s1 s2 : prisoners_dilemma.strategy) g :
  dict_get cfg "rounds" (VInt 100) = dict_get cfg' "rounds" (VInt 100) ->
  dict_get cfg "noise" (VFloat 0) = dict_get cfg' "noise" (VFloat 0) ->
  dict_get cfg "strategy_p1" (VStr "tit_for_tat") =
    dict_get cfg' "strategy_p1" (VStr "tit_for_tat") ->
  dict_get cfg "strategy_p2" (VStr "always_defect") =
    dict_get cfg' "strategy_p2" (VStr "always_defect") ->
  same_run (prisoners_dilemma.run cfg s1 s2 g) (prisoners_dilemma.run cfg' s1 s2 g).
Proof.
  intros Hr Hn H1 H2. unfold prisoners_dilemma.run.
  rewrite Hr, Hn, H1, H2.
  destruct (dict_get cfg' "rounds" (VInt 100)) as [n|x|s]; try reflexivity.
  unfold bind.
  destruct (for_each _ _ _ g) as [[st g']|e]; [|reflexivity].
  unfold prisoners_dilemma.finish, lift.
  destruct (prisoners_dilemma.div_rounds (prisoners_dilemma.total_p1 st) n);
    [|reflexivity].
  destruct (prisoners_dilemma.div_rounds (prisoners_dilemma.total_p2 st) n);
    [|reflexivity].
  destruct (prisoners_dilemma.div_rounds _ (2 * n)); [|reflexivity].
  simpl. auto 10.
Qed.

Lemma pd_compute_reads_declared cfg cfg' g :
  dict_get cfg "rounds" (VInt 100) = dict_get cfg' "rounds" (VInt 100) ->
  dict_get cfg "noise" (VFloat 0) = dict_get cfg' "noise" (VFloat 0) ->
  dict_get cfg "strategy_p1" (VStr "tit_for_tat") =
    dict_get cfg' "strategy_p1" (VStr "tit_for_tat") ->
  dict_get cfg "strategy_p2" (VStr "always_defect") =
    dict_get cfg' "strategy_p2" (VStr "always_defect") ->
  same_run (prisoners_dilemma.compute cfg g) (prisoners_dilemma.compute cfg' g).
Proof.
  intros Hr Hn H1 H2. unfold prisoners_dilemma.compute.
  rewrite H1, H2. now apply same_run_refl_cfg.
Qed.

(** A positive integer round count and a numeric noise make [compute]
    return, for every pair of strategy names. *)
Lemma pd_compute_ok cfg g n :
  dict_get cfg "rounds" (VInt 100) = VInt n -> 0 < n ->
  is_number (dict_get cfg "noise" (VFloat 0)) = true ->
  exists res g',
    prisoners_dilemma.compute cfg g = Ok (res, g') /\
    Z.of_nat (length (rounds res)) = n /\
    prisoners_dilemma.total_payoff_p1 (summary res) == sum_payoffs 0 (rounds res) /\
    prisoners_dilemma.total_payoff_p2 (summary res) == sum_payoffs 1 (rounds res) /\
    prisoners_dilemma.avg_payoff_p1 (summary res) ==
      sum_payoffs 0 (rounds res) / inject_Z n /\
    prisoners_dilemma.avg_payoff_p2 (summary res) ==
      sum_payoffs 1 (rounds res) / inject_Z n.
Proof.
  intros Hr Hn Hnoise. unfold prisoners_dilemma.compute.
  apply pd_run_ok; auto using pd_resolve_good.
Qed.

(** ** Claims on [prisoners_dilemma.py] *)




(** C3.  Ten rounds of always-cooperate against always-defect without noise
    total exactly 0 for player 1 and 50 for player 2, on every tape. *)
Theorem pd_cooperate_vs_defect_totals (g : Rng) :
  exists res,
    prisoners_dilemma.compute
      (<["rounds" := VInt 10]>
         (<["noise" := VFloat 0]>
            (<["strategy_p1" := VStr "always_cooperate"]>
               {["strategy_p2" := VStr "always_defect"]}))) g = Ok (res, g) /\
    prisoners_dilemma.total_payoff_p1 (summary res) = 0%Q /\
    prisoners_dilemma.total_payoff_p2 (summary res) = 50%Q /\
    Forall (fun rd => actions rd = ["C"; "D"] /\ payoffs rd = [0%Q; 5%Q]) (rounds res).
Proof.
  eexists. split; [vm_compute; reflexivity|].
  split; [reflexivity|]. split; [reflexivity|].
  repeat constructor.
Qed.

(** C4.  For a positive round count the reported averages are the sums of
    the per-round payoffs of each player over all rounds, divided by the
    round count. *)
Theorem pd_average_is_sum_over_rounds cfg g n :
  dict_get cfg "rounds" (VInt 100) = VInt n -> 0 < n ->
  is_number (dict_get cfg "noise" (VFloat 0)) = true ->
  exists res g',
    prisoners_dilemma.compute cfg g = Ok (res, g') /\
    Z.of_nat (length (rounds res)) = n /\
    prisoners_dilemma.avg_payoff_p1 (summary res) ==
      sum_payoffs 0 (rounds res) / inject_Z n /\
    prisoners_dilemma.avg_payoff_p2 (summary res) ==
      sum_payoffs 1 (rounds res) / inject_Z n.
Proof.
  intros Hr Hn Hnoise.
  destruct (pd_compute_ok cfg g n Hr Hn Hnoise)
    as (res & g' & E & L & _ & _ & A1 & A2).
  exists res, g'. auto.
Qed.

Lemma pd_average_is_sum_over_rounds_witness :
  exists res g',
    prisoners_dilemma.compute {["rounds" := VInt 4]} (const_rng 1 0) = Ok (res, g') /\
    Z.of_nat (length (rounds res)) = 4 /\
    prisoners_dilemma.avg_payoff_p1 (summary res) ==
      sum_payoffs 0 (rounds res) / inject_Z 4 /\
    prisoners_dilemma.avg_payoff_p2 (summary res) ==
      sum_payoffs 1 (rounds res) / inject_Z 4.
Proof.
  apply (pd_average_is_sum_over_rounds {["rounds" := VInt 4]} (const_rng 1 0) 4).
  - reflexivity.
  - lia.
  - reflexivity.
Defined.

(** C8.  On empty histories every entry of the strategy table returns "C" or
    "D"; tit-for-tat, grim trigger and Pavlov return "C" without consuming a
    draw; and a run of one round completes. *)
Theorem pd_first_round_is_safe cfg g :
  dict_get cfg "rounds" (VInt 100) = VInt 1 ->
  is_number (dict_get cfg "noise" (VFloat 0)) = true ->
  (forall name f g0, In (name, f) prisoners_dilemma.STRATEGIES ->
     exists a g1, f [] [] g0 = Ok (a, g1) /\ valid_action a) /\
  (forall g0, prisoners_dilemma.tit_for_tat [] [] g0 = Ok ("C", g0)) /\
  (forall g0, prisoners_dilemma.grim_trigger [] [] g0 = Ok ("C", g0)) /\
  (forall g0, prisoners_dilemma.pavlov [] [] g0 = Ok ("C", g0)) /\
  exists res g',
    prisoners_dilemma.compute cfg g = Ok (res, g') /\ length (rounds res) = 1%nat.
Proof.
  intros Hr Hnoise. split; [|split; [|split; [|split]]]; try reflexivity.
  - intros name f g0 Hin.
    assert (pd_good_strategy f) as Hg.
    { simpl in Hin.
      repeat (destruct Hin as [Hin|Hin]; [inversion Hin; subst|]);
        auto using pd_always_cooperate_good, pd_always_defect_good,
                   pd_random_good, pd_tit_for_tat_good,
                   pd_grim_trigger_good, pd_pavlov_good.
      contradiction. }
    apply Hg; auto.
  - destruct (pd_compute_ok cfg g 1 Hr ltac:(lia) Hnoise) as (res & g' & E & L & _).
    exists res, g'. split; [exact E|lia].
Qed.

Lemma pd_first_round_is_safe_witness :
  exists res g',
    prisoners_dilemma.compute
      (<["rounds" := VInt 1]> {["strategy_p1" := VStr "pavlov"]}) (const_rng 0 0)
      = Ok (res, g') /\ length (rounds res) = 1%nat.
Proof.
  apply (pd_first_round_is_safe
           (<["rounds" := VInt 1]> {["strategy_p1" := VStr "pavlov"]})
           (const_rng 0 0)); reflexivity.
Defined.

(** C9.  For every configuration and every generator state: a key that is
    not a declared parameter name does not influence the run (on the same
    tape the two runs raise the same exception or return the same rounds,
    equilibria and summary), and a declared parameter that is missing
    behaves as if it were present with its declared default. *)
Theorem pd_unknown_keys_ignored cfg g :
  (forall k v,
     ~ In k (declared_names prisoners_dilemma.info) ->
     same_run (prisoners_dilemma.compute cfg g)
              (prisoners_dilemma.compute (<[k:=v]> cfg) g)) /\
  (forall p,
     In p (parameters prisoners_dilemma.info) ->
     cfg !! p_name p = None ->
     same_run (prisoners_dilemma.compute cfg g)
              (prisoners_dilemma.compute (<[p_name p:=p_default p]> cfg) g)).
Proof.
  split.
  - intros k v Hk.
    assert (k <> "rounds" /\ k <> "noise" /\ k <> "strategy_p1" /\ k <> "strategy_p2")
      as (K1 & K2 & K3 & K4).
    { simpl in Hk. repeat split; intros ->; apply Hk; auto. }
    apply pd_compute_reads_declared; symmetry; now apply dict_get_insert_ne.
  - intros p Hp Hnone. simpl in Hp.
    destruct Hp as [<-|[<-|[<-|[<-|[]]]]]; cbn [p_name p_default] in *;
      apply pd_compute_reads_declared; symmetry;
      first [ now apply dict_get_insert_default
            | apply dict_get_insert_ne; discriminate ].
Qed.

(** The first run sets all four declared keys, the second leaves [noise]
    out. *)
Lemma pd_unknown_keys_ignored_witness :
  same_run
    (prisoners_dilemma.compute
       (<["rounds" := VInt 3]> (<["noise" := VFloat (1 # 10)]>
          (<["strategy_p1" := VStr "pavlov"]> {["strategy_p2" := VStr "random"]})))
       (const_rng 1 0))
    (prisoners_dilemma.compute
       (<["seed" := VInt 7]>
          (<["rounds" := VInt 3]> (<["noise" := VFloat (1 # 10)]>
             (<["strategy_p1" := VStr "pavlov"]> {["strategy_p2" := VStr "random"]}))))
       (const_rng 1 0)) /\
  same_run (prisoners_dilemma.compute {["rounds" := VInt 3]} (const_rng 1 0))
           (prisoners_dilemma.compute
              (<["noise" := VFloat 0]> {["rounds" := VInt 3]}) (const_rng 1 0)).
Proof.
  split.
  - pose proof (pd_unknown_keys_ignored
                  (<["rounds" := VInt 3]> (<["noise" := VFloat (1 # 10)]>
                     (<["strategy_p1" := VStr "pavlov"]>
                        {["strategy_p2" := VStr "random"]})))
                  (const_rng 1 0)) as [H _].
    apply (H "seed" (VInt 7)).
    simpl. intros [E|[E|[E|[E|[]]]]]; discriminate E.
  - pose proof (pd_unknown_keys_ignored {["rounds" := VInt 3]} (const_rng 1 0))
      as [_ H].
    apply (H {| p_name := "noise"; p_type := "float"; p_default := VFloat 0;
                p_min := Some 0%Q; p_max := Some (1 # 2)%Q; p_options := None |}).
    + simpl. right. left. reflexivity.
    + reflexivity.
Defined.

(** ** The sampler *)




Lemma elem_of_range0 n i : i ∈ range0 n <-> 0 <= i < n.
Proof.
  unfold range0. rewrite list_elem_of_fmap. split.
  - intros (k & -> & Hk). apply elem_of_seq in Hk. lia.
  - intros H. exists (Z.to_nat i). split; [lia|]. apply elem_of_seq. lia.
Qed.



(** ** Auctions: the auction loop *)


Lemma py_div_ok (x : Q) (z : Z) :
  z <> 0 -> exists q, py_div x (inject_Z z) = Ok q.
Proof.
  intros Hz. unfold py_div.
  destruct (Qeq_bool (inject_Z z) 0) eqn:E; [|eauto].
  apply Qeq_bool_eq in E. unfold Qeq in E. simpl in E. lia.
Qed.






Section auction_facts.
Import auction_mechanisms.



(** Only the winner's value is read, and it has been read before. *)
Lemma auction_round_payoffs_ok values w price v :
  list_index values w = Ok v ->
  forall idxs, exists ps, round_payoffs idxs values w price = Ok ps.
Proof.
  intros Hv. induction idxs as [|i idxs [ps IH]]; cbn [round_payoffs].
  - eauto.
  - rewrite IH. destruct (i =? w) eqn:E.
    + apply Z.eqb_eq in E. subst i. rewrite Hv. cbn [rbind]. eauto.
    + cbn [rbind]. eauto.
Qed.






End auction_facts.

(** ** Auctions: which statistics see the sample *)

Section auction_sampling.
Import auction_mechanisms.

Lemma auction_body_agree atype n_bidders v_mean v_std (S S' : gset Z) a st st' g :
  auction_agree st st' ->
  auction_agree_outcome (body atype n_bidders v_mean v_std S a st g)
                (body atype n_bidders v_mean v_std S' a st' g).
Proof.
  intros [Hr Hs]. unfold body, bind, lift, ret.
  destruct (as_int n_bidders) as [nb|e]; [|reflexivity].
  destruct (draw_values (Z.to_nat nb) v_mean v_std g) as [[vs g1]|e];
    [|reflexivity].
  destruct (mechanism atype nb vs) as [[[bids w] price]|e]; [|reflexivity].
  destruct (list_index vs w) as [vw|e] eqn:Hvw; [|reflexivity].
  destruct (auction_round_payoffs_ok vs w price vw Hvw (range0 nb)) as [ps Hps].
  rewrite Hps.
  destruct (bool_decide (a ∈ S)), (bool_decide (a ∈ S'));
    simpl; unfold auction_agree; simpl; rewrite Hr, Hs; auto.
Qed.

Lemma auction_loop_agree atype n_bidders v_mean v_std (S S' : gset Z) (l : list Z) :
  forall st st' g,
    auction_agree st st' ->
    auction_agree_outcome (for_each l (body atype n_bidders v_mean v_std S) st g)
                  (for_each l (body atype n_bidders v_mean v_std S') st' g).
Proof.
  induction l as [|a l IH]; intros st st' g H.
  - simpl. auto.
  - cbn [for_each]. unfold bind.
    pose proof (auction_body_agree atype n_bidders v_mean v_std S S' a st st' g H) as Hb.
    unfold auction_agree_outcome in Hb.
    destruct (body atype n_bidders v_mean v_std S a st g) as [[s1 g1]|e1],
             (body atype n_bidders v_mean v_std S' a st' g) as [[s2 g2]|e2];
      try contradiction.
    + destruct Hb as [Hb ->]. now apply IH.
    + exact Hb.
Qed.

Lemma auction_finish_agree cfg atype n_bidders st st' r r' :
  auction_agree st st' ->
  finish cfg atype n_bidders st = Ok r ->
  finish cfg atype n_bidders st' = Ok r' ->
  avg_revenue (summary r) = avg_revenue (summary r') /\
  avg_winner_surplus (summary r) = avg_winner_surplus (summary r') /\
  revenue_std (summary r) = revenue_std (summary r') /\
  auction_type (summary r) = auction_type (summary r').
Proof.
  intros [Hr Hs]. unfold finish. rewrite Hr, Hs.
  destruct (py_div (py_sum (revenues st')) _) as [avg|]; [|discriminate].
  destruct (py_div (py_sum (winner_surpluses st')) _) as [avs|]; [|discriminate].
  cbn [rbind].
  destruct (as_int n_bidders) as [nb|]; [|discriminate]. cbn [rbind].
  destruct (equilibria_of nb) as [eqs|]; [|discriminate]. cbn [rbind].
  destruct (variance (revenues st') avg) as [var|]; [|discriminate]. cbn [rbind].
  destruct (efficiency_of nb (round_data st)) as [e1|]; [|discriminate].
  destruct (efficiency_of nb (round_data st')) as [e2|]; [|discriminate].
  cbn [rbind]. intros [= <-] [= <-]. simpl. auto.
Qed.

(** The averages and the deviation of the revenue are the same whatever
    the set of sampled indices is. *)
Lemma auction_aggregates_ignore_sample cfg n (S S' : gset Z) g r r' g1 g2 :
  run cfg n S g = Ok (r, g1) ->
  run cfg n S' g = Ok (r', g2) ->
  avg_revenue (summary r) = avg_revenue (summary r') /\
  avg_winner_surplus (summary r) = avg_winner_surplus (summary r') /\
  revenue_std (summary r) = revenue_std (summary r') /\
  auction_type (summary r) = auction_type (summary r').
Proof.
  unfold run, bind.
  pose proof (auction_loop_agree (dict_get cfg "auction_type" (VStr "vickrey"))
                (dict_get cfg "n_bidders" (VInt 5))
                (dict_get cfg "value_mean" (VFloat 100))
                (dict_get cfg "value_std" (VFloat 20)) S S' (range0 n)
                loop_init loop_init g ltac:(split; reflexivity)) as H.
  unfold auction_agree_outcome in H.
  destruct (for_each _ (body _ _ _ _ S) _ _) as [[s1 h1]|e1]; [|discriminate].
  destruct (for_each _ (body _ _ _ _ S') _ _) as [[s2 h2]|e2]; [|contradiction].
  destruct H as [H ->]. unfold lift.
  destruct (finish cfg _ _ s1) as [x|] eqn:E1; [|discriminate].
  destruct (finish cfg _ _ s2) as [y|] eqn:E2; [|discriminate].
  intros [= <- <-] [= <- <-].
  eapply auction_finish_agree; eauto.
Qed.

End auction_sampling.

(** ** Claims on [auction_mechanisms.py] *)

(** C2, evaluated on the code.  The three revenue statistics auction_agree with the
    run in which every auction is sampled, but [efficiency] is read off the
    sampled rounds only: with the first auction left out of the sample the
    summary reports 1, although the value over all 201 auctions is 0.995,
    and another sample of the same auctions reports 0.995. *)
Theorem auction_efficiency_follows_sample :
  exists r r' r_all,
    outcome (auction_mechanisms.compute near_tie_config (near_tie_tape 1)) = Ok r /\
    outcome (auction_mechanisms.compute near_tie_config (near_tie_tape 0)) = Ok r' /\
    outcome (auction_mechanisms.run near_tie_config 201 (all_indices 201)
               (skip 200 (near_tie_tape 1))) = Ok r_all /\
    length (rounds r) = 200%nat /\ length (rounds r') = 200%nat /\
    length (rounds r_all) = 201%nat /\
    existsb (Z.eqb 1) (map round_num (rounds r)) = false /\
    existsb (Z.eqb 1) (map round_num (rounds r')) = true /\
    auction_mechanisms.avg_revenue (summary r)
      = auction_mechanisms.avg_revenue (summary r_all) /\
    auction_mechanisms.avg_winner_surplus (summary r)
      = auction_mechanisms.avg_winner_surplus (summary r_all) /\
    auction_mechanisms.revenue_std (summary r)
      = auction_mechanisms.revenue_std (summary r_all) /\
    auction_mechanisms.efficiency (summary r) = 1%Q /\
    auction_mechanisms.efficiency (summary r') = (199 # 200)%Q /\
    auction_mechanisms.efficiency (summary r_all) = (199 # 200)%Q.
Proof.
  eexists _, _, _.
  split; [vm_compute; reflexivity|].
  split; [vm_compute; reflexivity|].
  split; [vm_compute; reflexivity|].
  repeat split; vm_compute; reflexivity.
Qed.

(** ** Tragedy of the commons: the round loop *)

Section commons_facts.
Import tragedy_of_commons.

Lemma commons_resolve_cases (name : value) :
  resolve name = sustainable \/ resolve name = greedy \/
  resolve name = moderate \/ resolve name = adaptive \/
  resolve name = random \/ resolve name = tit_for_tat.
Proof.
  destruct name as [n|x|s]; simpl; auto.
  repeat match goal with
         | |- context [String.eqb s ?k] => destruct (String.eqb s k); [auto 7|]
         end.
  auto.
Qed.

Lemma commons_resolve_total (name : value) : commons_total (resolve name).
Proof.
  intros h cap g.
  destruct (commons_resolve_cases name) as [->|[->|[->|[->|[->| ->]]]]].
  - eexists _, _. reflexivity.
  - eexists _, _. reflexivity.
  - eexists _, _. reflexivity.
  - unfold adaptive. destruct h; eexists _, _; reflexivity.
  - eexists _, _. reflexivity.
  - unfold tit_for_tat. destruct (last h); eexists _, _; reflexivity.
Qed.

Lemma commons_call_each_total {A : Type} (n : nat) (f : Sim A) :
  (forall g, exists x g', f g = Ok (x, g')) ->
  forall g, exists xs g', call_each n f g = Ok (xs, g').
Proof.
  intros Hf. induction n as [|n IH]; intros g.
  - eexists _, _. reflexivity.
  - cbn [call_each]. destruct (Hf g) as (x & g1 & E1).
    rewrite (bind_ok _ _ _ _ _ E1).
    destruct (IH g1) as (xs & g2 & E2).
    rewrite (bind_ok _ _ _ _ _ E2).
    eexists _, _. reflexivity.
Qed.




End commons_facts.

(** ** Claim on strategy resolution *)




(** ** Registry and routes *)

Lemma assoc_none_iff {V : Type} (k : string) (l : list (string * V)) :
  assoc k l = None <-> existsb (fun kv => String.eqb k (fst kv)) l = false.
Proof.
  induction l as [|[k' v] l IH]; simpl.
  - tauto.
  - destruct (String.eqb k k'); simpl.
    + split; discriminate.
    + exact IH.
Qed.

Lemma get_game_none_iff (game_id : string) :
  registry.get_game game_id = None <-> registry.contains game_id = false.
Proof. apply assoc_none_iff. Qed.

Lemma get_game_info_none_iff (game_id : string) :
  registry.get_game_info game_id = None <-> registry.contains game_id = false.
Proof.
  unfold registry.get_game_info.
  destruct (registry.contains game_id) eqn:E.
  - split; [|discriminate].
    destruct (assoc game_id registry._GAMES) eqn:A; [discriminate|].
    apply assoc_none_iff in A. unfold registry.contains in E. congruence.
  - tauto.
Qed.

(** C7.  An identifier outside the registry makes both lookups return
    [None].  The catalogue lists the 22 registered games, one entry per key
    of the (duplicate-free) registry and in its insertion order; being a
    constant of the module, it is the same at every call. *)
Theorem registry_lookups_signal_absence (game_id : string) :
  registry.contains game_id = false ->
  registry.get_game game_id = None /\
  registry.get_game_info game_id = None /\
  length registry.get_all_game_info = 22%nat /\
  length registry.get_all_game_info = length registry._GAMES /\
  NoDup (map fst registry._GAMES) /\
  map id registry.get_all_game_info = map fst registry._GAMES.
Proof.
  intros H. split; [now apply get_game_none_iff|].
  split; [now apply get_game_info_none_iff|].
  split; [reflexivity|]. split; [reflexivity|]. split; [|reflexivity].
  apply (bool_decide_unpack _). vm_compute. exact I.
Qed.

Lemma registry_lookups_signal_absence_witness :
  registry.get_game "nonexistent_id" = None /\
  registry.get_game_info "nonexistent_id" = None.
Proof.
  destruct (registry_lookups_signal_absence "nonexistent_id" eq_refl)
    as (G & I & _).
  split; assumption.
Defined.

(** C10.  The two lookups are absent for the same identifiers, every
    registered game reports [available = True], and [run_simulation] never
    answers 501, whatever the games compute. *)
Theorem unavailable_branch_is_unreachable :
  (forall game_id,
     registry.get_game game_id = None <-> registry.get_game_info game_id = None) /\
  (forall game, available (registry.info game) = true) /\
  Forall (fun kv => available (registry.info (snd kv)) = true) registry._GAMES /\
  (forall (Body : Type) compute exn_str req detail,
     routes.run_simulation Body compute exn_str req
     <> routes.HTTPException 501 detail).
Proof.
  split; [|split; [|split]].
  - intros game_id. rewrite get_game_none_iff, get_game_info_none_iff. tauto.
  - intros game. destruct game; reflexivity.
  - repeat constructor.
  - intros Body compute exn_str req detail. unfold routes.run_simulation.
    destruct (registry.get_game (routes.req_game_id req)) as [game|] eqn:G.
    + destruct (compute game (routes.req_config req)); intros H; inversion H.
    + apply get_game_none_iff, get_game_info_none_iff in G. rewrite G.
      intros H. inversion H.
Qed.

(** * Further properties *)

(** ** The added functions on small inputs *)

Example pirate_five_pirates :
  pirate_division._backward_induction 5 100 = Ok [98; 0; 1; 0; 1].
Proof. reflexivity. Qed.

Example pirate_two_pirates :
  pirate_division._backward_induction 2 100 = Ok [100; 0].
Proof. reflexivity. Qed.

Example predict_mean_truncates :
  el_farol_bar._predict "mean" [40; 70; 56] 100 = Ok 55.
Proof. vm_compute. reflexivity. Qed.

Example predict_trend_is_clamped :
  el_farol_bar._predict "trend" [40; 90] 100 = Ok 100.
Proof. reflexivity. Qed.

Example predict_cycle_looks_three_back :
  el_farol_bar._predict "cycle" [10; 20; 30; 40] 100 = Ok 20.
Proof. reflexivity. Qed.

Example predict_unknown_name :
  el_farol_bar._predict "no_such_strategy" [10] 100 = Ok 50.
Proof. reflexivity. Qed.

Example matching_pennies_heads_against_anti_pattern :
  match matching_pennies.compute
          (<["rounds" := VInt 2]> {["strategy_matcher" := VStr "always_heads"]})
          (const_rng 0 0) with
  | Ok (res, _) =>
      map actions (rounds res) = [["H"; "H"]; ["H"; "T"]] /\
      map payoffs (rounds res) = [[1; -1]; [-1; 1]]%Q /\
      summary res
      = {| matching_pennies.total_payoff_matcher := 0;
           matching_pennies.total_payoff_mismatcher := 0;
           matching_pennies.avg_payoff_matcher := 0;
           matching_pennies.match_rate := 1 # 2 |}
  | Raise _ => False
  end.
Proof. vm_compute. repeat split; reflexivity. Qed.

Example matching_pennies_zero_rounds :
  matching_pennies.compute {["rounds" := VInt 0]} (const_rng 0 0)
  = Raise ZeroDivisionError.
Proof. reflexivity. Qed.

(** ** Rounding *)

Lemma round_half_even_bounds (x : Q) :
  Qfloor x <= round_half_even x <= Qfloor x + 1.
Proof.
  unfold round_half_even.
  destruct (Qcompare (x - inject_Z (Qfloor x)) (1 # 2)); [|lia|lia].
  destruct (Z.even (Qfloor x)); lia.
Qed.

Lemma round_half_even_comp (x y : Q) :
  x == y -> round_half_even x = round_half_even y.
Proof.
  intros H. unfold round_half_even.
  rewrite (Qfloor_comp x y H).
  assert (x - inject_Z (Qfloor y) == y - inject_Z (Qfloor y)) as E
    by (rewrite H; reflexivity).
  now rewrite (Qcompare_comp _ _ E _ _ (Qeq_refl (1 # 2))).
Qed.

Lemma round_half_even_Z (k : Z) : round_half_even (inject_Z k) = k.
Proof.
  unfold round_half_even. rewrite Qfloor_Z.
  assert (inject_Z k - inject_Z k == 0) as E by ring.
  now rewrite (Qcompare_comp _ _ E _ _ (Qeq_refl (1 # 2))).
Qed.

Lemma round_half_even_mono (x y : Q) :
  (x <= y)%Q -> round_half_even x <= round_half_even y.
Proof.
  intros H.
  pose proof (Qfloor_resp_le x y H) as Hf.
  pose proof (round_half_even_bounds x) as Bx.
  pose proof (round_half_even_bounds y) as By.
  destruct (Z.eq_dec (Qfloor x) (Qfloor y)) as [E|NE]; [|lia].
  unfold round_half_even. rewrite E.
  assert (x - inject_Z (Qfloor y) <= y - inject_Z (Qfloor y))%Q as Hd
    by (apply Qplus_le_l; exact H).
  destruct (Qcompare_spec (x - inject_Z (Qfloor y)) (1 # 2)) as [Ex|Lx|Gx];
    destruct (Qcompare_spec (y - inject_Z (Qfloor y)) (1 # 2)) as [Ey|Ly|Gy];
    try lia; try (destruct (Z.even (Qfloor y)); lia).
  - exfalso. rewrite Ex in Hd. apply (Qlt_irrefl (1 # 2)).
    eapply Qle_lt_trans; eauto.
  - exfalso. apply (Qlt_irrefl (1 # 2)). rewrite Ey in Hd.
    eapply Qlt_le_trans; eauto.
  - exfalso. apply (Qlt_irrefl (1 # 2)).
    eapply Qlt_trans; [exact Gx|]. eapply Qle_lt_trans; eauto.
Qed.

Lemma pow10_pos (nd : Z) : 0 <= nd -> 0 < 10 ^ nd.
Proof. intros H. apply Z.pow_pos_nonneg; lia. Qed.

Lemma py_round_value (x : Q) (nd : Z) :
  py_round x nd ==
  inject_Z (round_half_even (x * inject_Z (10 ^ nd))) / inject_Z (10 ^ nd).
Proof. unfold py_round. apply Qred_correct. Qed.


Lemma py_round_mono (x y : Q) (nd : Z) :
  0 <= nd -> (x <= y)%Q -> (py_round x nd <= py_round y nd)%Q.
Proof.
  intros Hnd H. rewrite !py_round_value.
  pose proof (pow10_pos nd Hnd) as Hp.
  assert (0 < inject_Z (10 ^ nd))%Q as Hq.
  { unfold Qlt. simpl. lia. }
  apply Qmult_le_compat_r.
  - rewrite <- Zle_Qle. apply round_half_even_mono.
    apply Qmult_le_compat_r; [exact H|]. now apply Qlt_le_weak.
  - apply Qlt_le_weak, Qinv_lt_0_compat, Hq.
Qed.

Lemma py_round_Z (k nd : Z) : 0 <= nd -> py_round (inject_Z k) nd == inject_Z k.
Proof.
  intros Hnd. rewrite py_round_value.
  pose proof (pow10_pos nd Hnd) as Hp.
  assert (inject_Z k * inject_Z (10 ^ nd) == inject_Z (k * 10 ^ nd)) as E
    by (rewrite inject_Z_mult; reflexivity).
  rewrite (round_half_even_comp _ _ E), round_half_even_Z, inject_Z_mult.
  field. intros H0. unfold Qeq in H0. simpl in H0. lia.
Qed.

(** Rounding keeps a value between two integers it lies between. *)
Lemma py_round_between (x : Q) (lo hi nd : Z) :
  0 <= nd -> (inject_Z lo <= x)%Q -> (x <= inject_Z hi)%Q ->
  (inject_Z lo <= py_round x nd)%Q /\ (py_round x nd <= inject_Z hi)%Q.
Proof.
  intros Hnd Hlo Hhi. split.
  - rewrite <- (py_round_Z lo nd Hnd). now apply py_round_mono.
  - rewrite <- (py_round_Z hi nd Hnd). now apply py_round_mono.
Qed.

Lemma py_round_nonneg (x : Q) (nd : Z) : 0 <= nd -> (0 <= x)%Q -> (0 <= py_round x nd)%Q.
Proof.
  intros Hnd Hx. change 0%Q with (inject_Z 0).
  rewrite <- (py_round_Z 0 nd Hnd). now apply py_round_mono.
Qed.

(** ** Sums of integers *)

Lemma fold_add_shift (l : list Z) (a : Z) :
  fold_left Z.add l a = a + fold_left Z.add l 0.
Proof.
  revert a. induction l as [|x l IH]; intros a; cbn [fold_left]; [lia|].
  rewrite (IH (a + x)), (IH (0 + x)). lia.
Qed.

Lemma fold_add_positive (l : list Z) :
  Forall (fun x => 1 <= x) l -> Z.of_nat (length l) <= fold_left Z.add l 0.
Proof.
  induction 1 as [|x l Hx _ IH]; [simpl; lia|].
  cbn [fold_left length]. rewrite fold_add_shift. lia.
Qed.


(** ** Prisoner's dilemma: the trace *)

Lemma pd_body_step s1 s2 noise r st g :
  pd_good_strategy s1 -> pd_good_strategy s2 -> is_number noise = true ->
  pd_Inv st ->
  exists b1 b2 g1 g2 a1 a2 g3 p1 p2,
    s1 (prisoners_dilemma.h1 st) (prisoners_dilemma.h2 st) g = Ok (b1, g1) /\
    s2 (prisoners_dilemma.h2 st) (prisoners_dilemma.h1 st) g1 = Ok (b2, g2) /\
    prisoners_dilemma.apply_noise noise b1 b2 g2 = Ok ((a1, a2), g3) /\
    valid_action a1 /\ valid_action a2 /\
    prisoners_dilemma.payoff_lookup a1 a2 prisoners_dilemma.PAYOFF_MATRIX
      = Ok (p1, p2) /\
    prisoners_dilemma.body s1 s2 noise r st g = Ok (pd_next st r a1 a2 p1 p2, g3).
Proof.
  intros G1 G2 Hn [I1 I2 IL S1 S2]. unfold prisoners_dilemma.body.
  destruct (G1 _ _ g I1 I2 IL) as (b1 & g1 & E1 & V1).
  destruct (G2 _ _ g1 I2 I1 (eq_sym IL)) as (b2 & g2 & E2 & V2).
  destruct (pd_apply_noise_ok noise b1 b2 g2 Hn V1 V2)
    as (a1 & a2 & g3 & E3 & W1 & W2).
  destruct (pd_payoff_lookup_valid a1 a2 W1 W2) as (p1 & p2 & E4).
  exists b1, b2, g1, g2, a1, a2, g3, p1, p2.
  repeat (split; [assumption|]).
  rewrite (bind_ok _ _ _ _ _ E1), (bind_ok _ _ _ _ _ E2), (bind_ok _ _ _ _ _ E3).
  rewrite (bind_ok _ _ _ _ _ (lift_ok _ _ _ E4)). reflexivity.
Qed.

(** An invariant indexed by the number of rounds played is carried through
    the loop as soon as one iteration carries it. *)
Lemma pd_loop_invariant (P : nat -> prisoners_dilemma.Loop -> Prop) s1 s2 noise :
  pd_good_strategy s1 -> pd_good_strategy s2 -> is_number noise = true ->
  (forall k st g st' g',
     pd_Inv st -> P k st ->
     prisoners_dilemma.body s1 s2 noise (Z.of_nat (S k)) st g = Ok (st', g') ->
     P (S k) st') ->
  forall m k st g,
    pd_Inv st -> P k st ->
    exists st' g',
      for_each (map Z.of_nat (seq (S k) m)) (prisoners_dilemma.body s1 s2 noise) st g
        = Ok (st', g') /\
      pd_Inv st' /\ P (k + m)%nat st'.
Proof.
  intros G1 G2 Hn Hstep. induction m as [|m IH]; intros k st g HI HP.
  - exists st, g. split; [reflexivity|]. split; [exact HI|].
    now rewrite Nat.add_0_r.
  - cbn [seq map for_each].
    destruct (pd_body_ok s1 s2 noise (Z.of_nat (S k)) st g G1 G2 Hn HI)
      as (st1 & g1 & E & HI1 & _).
    rewrite (bind_ok _ _ _ _ _ E).
    destruct (IH (S k) st1 g1 HI1 (Hstep k st g st1 g1 HI HP E))
      as (st2 & g2 & E2 & HI2 & HP2).
    exists st2, g2. split; [exact E2|]. split; [exact HI2|].
    now replace (k + S m)%nat with (S k + m)%nat by lia.
Qed.

Lemma count_C_bounds a : 0 <= prisoners_dilemma.count_C a <= 1.
Proof. unfold prisoners_dilemma.count_C. destruct (String.eqb a "C"); lia. Qed.

Lemma ratio_in_unit_interval (c d : Z) :
  0 <= c <= d -> 0 < d -> unit_interval (inject_Z c / inject_Z d).
Proof.
  intros Hc Hd. unfold unit_interval.
  assert (0 < inject_Z d)%Q as Hq by (unfold Qlt; simpl; lia).
  split.
  - apply Qle_shift_div_l; [exact Hq|]. rewrite Qmult_0_l.
    unfold Qle. simpl. lia.
  - apply Qle_shift_div_r; [exact Hq|]. rewrite Qmult_1_l.
    unfold Qle. simpl. lia.
Qed.

Lemma actions_of_snoc {S : Type} i (l : list (RoundData string S)) rd :
  actions_of i (l ++ [rd]) = (actions_of i l ++ [nth i (actions rd) ""])%list.
Proof. unfold actions_of. now rewrite map_app. Qed.

Lemma pd_payoff_range a1 a2 p1 p2 :
  prisoners_dilemma.payoff_lookup a1 a2 prisoners_dilemma.PAYOFF_MATRIX
    = Ok (p1, p2) ->
  0 <= p1 <= 5 /\ 0 <= p2 <= 5.
Proof.
  unfold prisoners_dilemma.PAYOFF_MATRIX. cbn [prisoners_dilemma.payoff_lookup].
  repeat match goal with
         | |- context [if ?b then _ else _] => destruct b
         end; intros [= <- <-]; lia.
Qed.

Lemma total_step (t : Q) (p k : Z) :
  (0 <= t)%Q /\ (t <= inject_Z (5 * k))%Q -> 0 <= p <= 5 ->
  (0 <= t + inject_Z p)%Q /\ (t + inject_Z p <= inject_Z (5 * (k + 1)))%Q.
Proof.
  intros [H0 H1] Hp. split.
  - replace 0%Q with (0 + 0)%Q by reflexivity.
    apply Qplus_le_compat; [exact H0|]. unfold Qle. simpl. lia.
  - replace (5 * (k + 1)) with (5 * k + 5) by lia. rewrite inject_Z_plus.
    apply Qplus_le_compat; [exact H1|]. unfold Qle. simpl. lia.
Qed.

Lemma pd_Trace_init : pd_Trace 0 prisoners_dilemma.loop_init.
Proof.
  split; simpl; try reflexivity; try constructor; try lia;
    try exact I; apply Qle_refl.
Qed.

Lemma pd_Trace_next k st r a1 a2 p1 p2 :
  r = Z.of_nat (S k) -> valid_action a1 -> valid_action a2 ->
  prisoners_dilemma.payoff_lookup a1 a2 prisoners_dilemma.PAYOFF_MATRIX
    = Ok (p1, p2) ->
  pd_Trace k st -> pd_Trace (S k) (pd_next st r a1 a2 p1 p2).
Proof.
  intros Hr V1 V2 Hp [L1 L2 N A1 A2 R U C T1 T2 La].
  pose proof (count_C_bounds a1). pose proof (count_C_bounds a2).
  destruct (pd_payoff_range a1 a2 p1 p2 Hp) as [P1 P2].
  split; unfold pd_next;
    cbn [prisoners_dilemma.h1 prisoners_dilemma.h2 prisoners_dilemma.round_data
         prisoners_dilemma.total_p1 prisoners_dilemma.total_p2
         prisoners_dilemma.coop_count].
  - rewrite length_app. simpl. lia.
  - rewrite length_app. simpl. lia.
  - rewrite map_app, seq_S, map_app. f_equal; [exact N|].
    simpl. now rewrite Hr.
  - unfold actions_of in *. rewrite map_app. f_equal. exact A1.
  - unfold actions_of in *. rewrite map_app. f_equal. exact A2.
  - apply Forall_app. split; [exact R|]. constructor; [|constructor].
    exists a1, a2, p1, p2. auto.
  - apply Forall_app. split; [exact U|]. constructor; [|constructor].
    cbn [state prisoners_dilemma.coop_rate].
    apply ratio_in_unit_interval; lia.
  - lia.
  - replace (Z.of_nat (S k)) with (Z.of_nat k + 1) by lia. now apply total_step.
  - replace (Z.of_nat (S k)) with (Z.of_nat k + 1) by lia. now apply total_step.
  - rewrite last_snoc. reflexivity.
Qed.

Lemma pd_Trace_step s1 s2 noise :
  pd_good_strategy s1 -> pd_good_strategy s2 -> is_number noise = true ->
  forall k st g st' g',
    pd_Inv st -> pd_Trace k st ->
    prisoners_dilemma.body s1 s2 noise (Z.of_nat (S k)) st g = Ok (st', g') ->
    pd_Trace (S k) st'.
Proof.
  intros G1 G2 Hn k st g st' g' HI HT E.
  destruct (pd_body_step s1 s2 noise (Z.of_nat (S k)) st g G1 G2 Hn HI)
    as (b1 & b2 & g1 & g2 & a1 & a2 & g3 & p1 & p2 & _ & _ & _ & V1 & V2 & Hp & E').
  rewrite E' in E. injection E as <- <-.
  now apply pd_Trace_next.
Qed.

(** The trace of a run with a positive integer round count and numeric
    noise. *)
Lemma pd_compute_trace cfg g n :
  dict_get cfg "rounds" (VInt 100) = VInt n -> 0 < n ->
  is_number (dict_get cfg "noise" (VFloat 0)) = true ->
  exists st res g',
    prisoners_dilemma.compute cfg g = Ok (res, g') /\
    pd_Trace (Z.to_nat n) st /\
    rounds res = prisoners_dilemma.round_data st /\
    prisoners_dilemma.total_payoff_p1 (summary res) = prisoners_dilemma.total_p1 st /\
    prisoners_dilemma.total_payoff_p2 (summary res) = prisoners_dilemma.total_p2 st /\
    prisoners_dilemma.cooperation_rate (summary res)
      = (inject_Z (prisoners_dilemma.coop_count st) / inject_Z (2 * n))%Q.
Proof.
  intros Hr Hn Hnoise. unfold prisoners_dilemma.compute, prisoners_dilemma.run.
  rewrite Hr. unfold range1.
  pose proof (pd_resolve_good (dict_get cfg "strategy_p1" (VStr "tit_for_tat")))
    as G1.
  pose proof (pd_resolve_good (dict_get cfg "strategy_p2" (VStr "always_defect")))
    as G2.
  destruct (pd_loop_invariant pd_Trace _ _ _ G1 G2 Hnoise
              (pd_Trace_step _ _ _ G1 G2 Hnoise)
              (Z.to_nat n) 0%nat prisoners_dilemma.loop_init g
              pd_Inv_init pd_Trace_init) as (st & g' & E & HI & HT).
  rewrite (bind_ok _ _ _ _ _ E).
  unfold prisoners_dilemma.finish, prisoners_dilemma.div_rounds.
  assert ((n =? 0) = false) as -> by lia.
  assert ((2 * n =? 0) = false) as -> by lia.
  cbn [rbind lift]. eexists st, _, g'. split; [reflexivity|].
  cbn [rounds summary prisoners_dilemma.total_payoff_p1
       prisoners_dilemma.total_payoff_p2 prisoners_dilemma.cooperation_rate].
  auto.
Qed.

(** ** Further properties of [prisoners_dilemma.py] *)

(** X1.  With a positive round count the rounds are numbered 1, 2, ... in
    order, the two actions of every round are "C" or "D", and the payoffs of
    the round are the cell of the payoff matrix for these actions. *)
Theorem pd_rounds_follow_payoff_matrix cfg g n :
  dict_get cfg "rounds" (VInt 100) = VInt n -> 0 < n ->
  is_number (dict_get cfg "noise" (VFloat 0)) = true ->
  exists res g',
    prisoners_dilemma.compute cfg g = Ok (res, g') /\
    map round_num (rounds res) = range1 n /\
    Forall pd_round_ok (rounds res).
Proof.
  intros Hr Hn Hnoise.
  destruct (pd_compute_trace cfg g n Hr Hn Hnoise)
    as (st & res & g' & E & HT & R & _).
  exists res, g'. split; [exact E|]. rewrite R.
  split; [apply (tr_nums _ _ HT)|]. apply (tr_rounds _ _ HT).
Qed.

Lemma pd_rounds_follow_payoff_matrix_witness :
  exists res g',
    prisoners_dilemma.compute
      (<["noise" := VFloat (1 # 10)]> {["rounds" := VInt 3]}) (const_rng 1 0)
      = Ok (res, g') /\
    map round_num (rounds res) = range1 3 /\
    Forall pd_round_ok (rounds res).
Proof.
  apply (pd_rounds_follow_payoff_matrix
           (<["noise" := VFloat (1 # 10)]> {["rounds" := VInt 3]}) (const_rng 1 0) 3).
  - reflexivity.
  - lia.
  - reflexivity.
Defined.

(** X2.  With a positive round count the cooperation rate of the summary
    and the running cooperation rate of every round lie between 0 and 1,
    and both average payoffs lie between 0 and 5. *)
Theorem pd_rates_in_unit_interval cfg g n :
  dict_get cfg "rounds" (VInt 100) = VInt n -> 0 < n ->
  is_number (dict_get cfg "noise" (VFloat 0)) = true ->
  exists res g',
    prisoners_dilemma.compute cfg g = Ok (res, g') /\
    unit_interval (prisoners_dilemma.cooperation_rate (summary res)) /\
    Forall (fun rd => unit_interval (prisoners_dilemma.coop_rate (state rd)))
           (rounds res) /\
    (0 <= prisoners_dilemma.avg_payoff_p1 (summary res) <= 5)%Q /\
    (0 <= prisoners_dilemma.avg_payoff_p2 (summary res) <= 5)%Q.
Proof.
  intros Hr Hn Hnoise.
  destruct (pd_compute_trace cfg g n Hr Hn Hnoise)
    as (st & res & g' & E & HT & R & T1 & T2 & C).
  exists res, g'. split; [exact E|]. rewrite R, C.
  pose proof (tr_coop _ _ HT) as HC.
  split; [apply ratio_in_unit_interval; lia|].
  split; [apply (tr_rates _ _ HT)|].
  assert (0 < inject_Z n)%Q as Hq by (unfold Qlt; simpl; lia).
  assert (forall t : Q,
             (0 <= t)%Q /\ (t <= inject_Z (5 * Z.of_nat (Z.to_nat n)))%Q ->
             (0 <= t / inject_Z n <= 5)%Q) as Hb.
  { intros t [H0 H1]. split.
    - apply Qle_shift_div_l; [exact Hq|]. now rewrite Qmult_0_l.
    - apply Qle_shift_div_r; [exact Hq|].
      eapply Qle_trans; [exact H1|].
      rewrite Z2Nat.id by lia. rewrite inject_Z_mult. apply Qle_refl. }
  unfold prisoners_dilemma.compute, prisoners_dilemma.run in E.
  rewrite Hr in E. unfold bind in E.
  destruct (for_each _ _ _ g) as [[st0 g0]|]; [|discriminate].
  unfold lift, prisoners_dilemma.finish, prisoners_dilemma.div_rounds in E.
  assert ((n =? 0) = false) as Hz by lia. rewrite Hz in E.
  assert ((2 * n =? 0) = false) as Hz2 by lia. rewrite Hz2 in E.
  cbn [rbind] in E. injection E as <- <-.
  cbn [summary prisoners_dilemma.avg_payoff_p1 prisoners_dilemma.avg_payoff_p2
       prisoners_dilemma.total_payoff_p1 prisoners_dilemma.total_payoff_p2] in *.
  rewrite T1, T2. split; apply Hb; [apply (tr_tot1 _ _ HT)|apply (tr_tot2 _ _ HT)].
Qed.

Lemma pd_rates_in_unit_interval_witness :
  exists res g',
    prisoners_dilemma.compute {["rounds" := VInt 5]} (const_rng 0 0) = Ok (res, g') /\
    unit_interval (prisoners_dilemma.cooperation_rate (summary res)).
Proof.
  pose proof (pd_rates_in_unit_interval {["rounds" := VInt 5]} (const_rng 0 0) 5)
    as H.
  destruct (H eq_refl ltac:(lia) eq_refl) as (res & g' & E & U & _).
  exists res, g'. split; assumption.
Defined.

(** X3.  The running totals stored in the state of the last round are the
    totals of the summary. *)
Theorem pd_last_round_holds_totals cfg g n :
  dict_get cfg "rounds" (VInt 100) = VInt n -> 0 < n ->
  is_number (dict_get cfg "noise" (VFloat 0)) = true ->
  exists res g' rd,
    prisoners_dilemma.compute cfg g = Ok (res, g') /\
    last (rounds res) = Some rd /\
    round_num rd = n /\
    prisoners_dilemma.cumulative (state rd)
    = [prisoners_dilemma.total_payoff_p1 (summary res);
       prisoners_dilemma.total_payoff_p2 (summary res)].
Proof.
  intros Hr Hn Hnoise.
  destruct (pd_compute_trace cfg g n Hr Hn Hnoise)
    as (st & res & g' & E & HT & R & T1 & T2 & _).
  pose proof (tr_last _ _ HT) as HL. pose proof (tr_nums _ _ HT) as HN.
  destruct (last (prisoners_dilemma.round_data st)) as [rd|] eqn:EL.
  - exists res, g', rd. split; [exact E|]. rewrite R, T1, T2.
    split; [exact EL|]. split; [|exact HL].
    apply last_Some in EL as [l' EL]. rewrite EL, map_app in HN.
    replace (Z.to_nat n) with (S (Z.to_nat n - 1)) in HN by lia.
    rewrite seq_S, map_app in HN. apply app_inj_tail in HN as [_ HN].
    rewrite HN. lia.
  - apply last_None in EL. rewrite EL in HN.
    replace (Z.to_nat n) with (S (Z.to_nat n - 1)) in HN by lia.
    discriminate HN.
Qed.

Lemma pd_last_round_holds_totals_witness :
  exists res g' rd,
    prisoners_dilemma.compute {["rounds" := VInt 5]} (const_rng 0 0) = Ok (res, g') /\
    last (rounds res) = Some rd /\ round_num rd = 5.
Proof.
  pose proof (pd_last_round_holds_totals {["rounds" := VInt 5]} (const_rng 0 0) 5)
    as H.
  destruct (H eq_refl ltac:(lia) eq_refl) as (res & g' & rd & E & L & N & _).
  exists res, g', rd. repeat split; assumption.
Defined.

(** ** Prisoner's dilemma: runs without randomness *)

Lemma tape_free_ret {A : Type} (a : A) : tape_free (ret a).
Proof. intros g g2. simpl. auto. Qed.

Lemma tape_free_lift {A : Type} (r : result A) : tape_free (lift r).
Proof. intros g g2. unfold lift. destruct r; auto. Qed.

Lemma tape_free_throw {A : Type} (e : exn) : tape_free (@throw A e).
Proof. intros g g2. reflexivity. Qed.

Lemma tape_free_bind {A B : Type} (m : Sim A) (k : A -> Sim B) :
  tape_free m -> (forall a, tape_free (k a)) -> tape_free (bind m k).
Proof.
  intros Hm Hk g g2. unfold bind. specialize (Hm g g2).
  destruct (m g) as [[a g']|e].
  - destruct Hm as [-> E2]. rewrite E2. apply Hk.
  - now rewrite Hm.
Qed.

Lemma tape_free_for_each {I S : Type} (l : list I) (body : I -> S -> Sim S) :
  (forall i s, tape_free (body i s)) -> forall s, tape_free (for_each l body s).
Proof.
  intros Hb. induction l as [|i l IH]; intros s; cbn [for_each].
  - apply tape_free_ret.
  - apply tape_free_bind; auto.
Qed.

Lemma pd_deterministic_tape_free (s : string) h opp :
  In s pd_deterministic_names ->
  tape_free (prisoners_dilemma.resolve (VStr s) h opp).
Proof.
  intros Hs. simpl in Hs.
  destruct Hs as [<-|[<-|[<-|[<-|[<-|[]]]]]];
    change (prisoners_dilemma.resolve (VStr _)) with prisoners_dilemma.always_cooperate
    || change (prisoners_dilemma.resolve (VStr _)) with prisoners_dilemma.always_defect
    || change (prisoners_dilemma.resolve (VStr _)) with prisoners_dilemma.tit_for_tat
    || change (prisoners_dilemma.resolve (VStr _)) with prisoners_dilemma.grim_trigger
    || change (prisoners_dilemma.resolve (VStr _)) with prisoners_dilemma.pavlov.
  - apply tape_free_ret.
  - apply tape_free_ret.
  - unfold prisoners_dilemma.tit_for_tat. destruct opp;
      [apply tape_free_ret|apply tape_free_lift].
  - unfold prisoners_dilemma.grim_trigger.
    destruct (str_in "D" opp); apply tape_free_ret.
  - unfold prisoners_dilemma.pavlov. destruct h; [apply tape_free_ret|].
    apply tape_free_bind; [apply tape_free_lift|]. intros a.
    apply tape_free_bind; [apply tape_free_lift|]. intros b.
    apply tape_free_ret.
Qed.

Lemma pd_apply_noise_tape_free noise a1 a2 :
  prisoners_dilemma.noise_positive noise <> Ok true ->
  tape_free (prisoners_dilemma.apply_noise noise a1 a2).
Proof.
  intros H g g2. unfold prisoners_dilemma.apply_noise, bind, lift.
  destruct (prisoners_dilemma.noise_positive noise) as [[|]|e];
    [congruence|simpl; auto|reflexivity].
Qed.

Lemma pd_body_tape_free s1 s2 noise r st :
  (forall h opp, tape_free (s1 h opp)) -> (forall h opp, tape_free (s2 h opp)) ->
  prisoners_dilemma.noise_positive noise <> Ok true ->
  tape_free (prisoners_dilemma.body s1 s2 noise r st).
Proof.
  intros H1 H2 Hn. unfold prisoners_dilemma.body.
  apply tape_free_bind; [apply H1|]. intros a1.
  apply tape_free_bind; [apply H2|]. intros a2.
  apply tape_free_bind; [now apply pd_apply_noise_tape_free|]. intros [b1 b2].
  apply tape_free_bind; [apply tape_free_lift|]. intros [p1 p2].
  apply tape_free_ret.
Qed.

(** X4.  When both strategy names are table entries other than "random"
    and the noise is not positive, [compute] consumes no random draw: it
    leaves the generator untouched and its outcome is the same on every
    tape. *)
Theorem pd_reads_no_draw_without_randomness cfg g g2 s1 s2 :
  dict_get cfg "strategy_p1" (VStr "tit_for_tat") = VStr s1 ->
  dict_get cfg "strategy_p2" (VStr "always_defect") = VStr s2 ->
  In s1 pd_deterministic_names -> In s2 pd_deterministic_names ->
  prisoners_dilemma.noise_positive (dict_get cfg "noise" (VFloat 0)) <> Ok true ->
  outcome (prisoners_dilemma.compute cfg g) = outcome (prisoners_dilemma.compute cfg g2) /\
  (forall res g', prisoners_dilemma.compute cfg g = Ok (res, g') -> g' = g).
Proof.
  intros E1 E2 D1 D2 Hn.
  assert (tape_free (prisoners_dilemma.compute cfg)) as H.
  { unfold prisoners_dilemma.compute, prisoners_dilemma.run. rewrite E1, E2.
    destruct (dict_get cfg "rounds" (VInt 100)); try apply tape_free_throw.
    apply tape_free_bind; [|intros st; apply tape_free_lift].
    apply tape_free_for_each. intros r st.
    apply pd_body_tape_free; auto using pd_deterministic_tape_free. }
  specialize (H g g2). split.
  - destruct (prisoners_dilemma.compute cfg g) as [[res g']|e].
    + destruct H as [_ ->]. reflexivity.
    + rewrite H. reflexivity.
  - intros res g' E. rewrite E in H. tauto.
Qed.

Lemma pd_reads_no_draw_without_randomness_witness :
  outcome (prisoners_dilemma.compute
             (<["strategy_p1" := VStr "pavlov"]> {["rounds" := VInt 3]})
             (const_rng 0 0))
  = outcome (prisoners_dilemma.compute
               (<["strategy_p1" := VStr "pavlov"]> {["rounds" := VInt 3]})
               (const_rng 1 (1 # 2))).
Proof.
  pose proof (pd_reads_no_draw_without_randomness
                (<["strategy_p1" := VStr "pavlov"]> {["rounds" := VInt 3]})
                (const_rng 0 0) (const_rng 1 (1 # 2)) "pavlov" "always_defect") as H.
  apply H.
  - reflexivity.
  - reflexivity.
  - simpl. tauto.
  - simpl. tauto.
  - discriminate.
Defined.

Lemma pd_apply_noise_off noise a1 a2 g :
  prisoners_dilemma.noise_positive noise = Ok false ->
  prisoners_dilemma.apply_noise noise a1 a2 g = Ok ((a1, a2), g).
Proof.
  intros H. unfold prisoners_dilemma.apply_noise, bind, lift. now rewrite H.
Qed.

Lemma noise_off_is_number noise :
  prisoners_dilemma.noise_positive noise = Ok false -> is_number noise = true.
Proof. destruct noise; simpl; intros H; [reflexivity|reflexivity|discriminate]. Qed.

(** One iteration without noise plays what the two decision functions
    return. *)
Lemma pd_body_step_quiet s1 s2 noise r st g st' g' :
  pd_good_strategy s1 -> pd_good_strategy s2 ->
  prisoners_dilemma.noise_positive noise = Ok false -> pd_Inv st ->
  prisoners_dilemma.body s1 s2 noise r st g = Ok (st', g') ->
  exists a1 a2 g1 p1 p2,
    s1 (prisoners_dilemma.h1 st) (prisoners_dilemma.h2 st) g = Ok (a1, g1) /\
    s2 (prisoners_dilemma.h2 st) (prisoners_dilemma.h1 st) g1 = Ok (a2, g') /\
    valid_action a1 /\ valid_action a2 /\
    prisoners_dilemma.payoff_lookup a1 a2 prisoners_dilemma.PAYOFF_MATRIX
      = Ok (p1, p2) /\
    st' = pd_next st r a1 a2 p1 p2.
Proof.
  intros G1 G2 Hoff HI E.
  destruct (pd_body_step s1 s2 noise r st g G1 G2 (noise_off_is_number _ Hoff) HI)
    as (b1 & b2 & g1 & g2 & a1 & a2 & g3 & p1 & p2 & E1 & E2 & E3 & V1 & V2 & Hp & E').
  rewrite (pd_apply_noise_off noise b1 b2 g2 Hoff) in E3.
  injection E3 as <- <- <-.
  rewrite E' in E. injection E as <- <-.
  exists b1, b2, g1, p1, p2. auto 10.
Qed.

Lemma tit_for_tat_answer h opp g b g1 :
  prisoners_dilemma.tit_for_tat h opp g = Ok (b, g1) ->
  last ("C" :: opp) = Some b /\ g1 = g.
Proof.
  unfold prisoners_dilemma.tit_for_tat. destruct opp as [|x opp].
  - intros [= <- <-]. auto.
  - unfold lift, last_item.
    destruct (last (x :: opp)) as [y|] eqn:E; [|discriminate].
    intros [= <- <-]. split; [|reflexivity].
    now rewrite (last_cons "C" (x :: opp)), E.
Qed.

Lemma mirror_step (h2 : list string) (b1 b2 : string) :
  last ("C" :: h2) = Some b1 ->
  take (S (length h2)) ("C" :: h2 ++ [b2])
  = (take (length h2) ("C" :: h2) ++ [b1])%list.
Proof.
  intros HL. apply last_Some in HL as [l' HL].
  assert (length l' = length h2) as Hlen.
  { apply (f_equal length) in HL. rewrite length_app in HL. simpl in HL. lia. }
  change ("C" :: h2 ++ [b2]) with (("C" :: h2) ++ [b2])%list.
  rewrite HL, <- Hlen.
  rewrite take_app_length.
  replace (S (length l')) with (length (l' ++ [b1])) by (rewrite length_app; simpl; lia).
  now rewrite take_app_length.
Qed.

(** X5.  Without noise, tit-for-tat as player 1 opens with "C" and then
    repeats the previous action of player 2, whatever player 2 does. *)
Theorem pd_tit_for_tat_mirrors_opponent cfg g n :
  dict_get cfg "rounds" (VInt 100) = VInt n -> 0 < n ->
  dict_get cfg "strategy_p1" (VStr "tit_for_tat") = VStr "tit_for_tat" ->
  prisoners_dilemma.noise_positive (dict_get cfg "noise" (VFloat 0)) = Ok false ->
  exists res g',
    prisoners_dilemma.compute cfg g = Ok (res, g') /\
    actions_of 0 (rounds res)
    = take (Z.to_nat n) ("C" :: actions_of 1 (rounds res)).
Proof.
  intros Hr Hn Hs Hoff.
  unfold prisoners_dilemma.compute, prisoners_dilemma.run. rewrite Hr, Hs.
  change (prisoners_dilemma.resolve (VStr "tit_for_tat"))
    with prisoners_dilemma.tit_for_tat.
  set (s2 := prisoners_dilemma.resolve _).
  set (noise := dict_get cfg "noise" (VFloat 0)) in *.
  pose proof (noise_off_is_number _ Hoff) as Hnum.
  assert (pd_good_strategy s2) as G2 by apply pd_resolve_good.
  pose (P := fun k st => pd_Trace k st /\
                         prisoners_dilemma.h1 st
                         = take k ("C" :: prisoners_dilemma.h2 st)).
  assert (forall k st g0 st' g0',
             pd_Inv st -> P k st ->
             prisoners_dilemma.body prisoners_dilemma.tit_for_tat s2 noise
               (Z.of_nat (S k)) st g0 = Ok (st', g0') ->
             P (S k) st') as Hstep.
  { intros k st g0 st' g0' HI [HT HM] E.
    split;
      [exact (pd_Trace_step _ _ _ pd_tit_for_tat_good G2 Hnum k st g0 st' g0'
                HI HT E)|].
    destruct (pd_body_step_quiet _ _ _ _ _ _ _ _ pd_tit_for_tat_good G2 Hoff HI E)
      as (a1 & a2 & g1 & p1 & p2 & E1 & _ & _ & _ & _ & ->).
    apply tit_for_tat_answer in E1 as [E1 _].
    unfold pd_next. cbn [prisoners_dilemma.h1 prisoners_dilemma.h2].
    rewrite HM. rewrite <- (tr_len2 _ _ HT). symmetry. now apply mirror_step. }
  destruct (pd_loop_invariant P prisoners_dilemma.tit_for_tat s2 noise
              pd_tit_for_tat_good G2 Hnum Hstep (Z.to_nat n) 0%nat
              prisoners_dilemma.loop_init g pd_Inv_init)
    as (st & g' & E & HI & HT & HM).
  { split; [apply pd_Trace_init|reflexivity]. }
  unfold range1. rewrite (bind_ok _ _ _ _ _ E).
  unfold prisoners_dilemma.finish, prisoners_dilemma.div_rounds.
  assert ((n =? 0) = false) as -> by lia.
  assert ((2 * n =? 0) = false) as -> by lia.
  cbn [rbind lift]. eexists _, g'. split; [reflexivity|].
  cbn [rounds]. rewrite (tr_a1 _ _ HT), (tr_a2 _ _ HT). exact HM.
Qed.

Lemma pd_tit_for_tat_mirrors_opponent_witness :
  exists res g',
    prisoners_dilemma.compute
      (<["strategy_p2" := VStr "random"]> {["rounds" := VInt 4]}) (const_rng 1 0)
      = Ok (res, g') /\
    actions_of 0 (rounds res) = take 4 ("C" :: actions_of 1 (rounds res)).
Proof.
  pose proof (pd_tit_for_tat_mirrors_opponent
                (<["strategy_p2" := VStr "random"]> {["rounds" := VInt 4]})
                (const_rng 1 0) 4) as H.
  apply H; first [ reflexivity | lia ].
Defined.

Lemma last_repeat {A : Type} (x : A) (k : nat) : last (repeat x (S k)) = Some x.
Proof.
  induction k as [|k IH]; [reflexivity|].
  change (repeat x (S (S k))) with (x :: repeat x (S k)).
  now rewrite last_cons, IH.
Qed.

Lemma str_in_repeat_other (x y : string) (k : nat) :
  String.eqb x y = false -> str_in x (repeat y k) = false.
Proof.
  intros H. induction k as [|k IH]; [reflexivity|].
  simpl. now rewrite H.
Qed.

(** A strategy that never defects first cooperates after full cooperation. *)
Lemma pd_nice_cooperates (s : string) (k : nat) g :
  In s pd_nice_names ->
  prisoners_dilemma.resolve (VStr s) (repeat "C" k) (repeat "C" k) g = Ok ("C", g).
Proof.
  intros Hs. simpl in Hs.
  destruct Hs as [<-|[<-|[<-|[<-|[]]]]].
  - reflexivity.
  - change (prisoners_dilemma.resolve (VStr "tit_for_tat"))
      with prisoners_dilemma.tit_for_tat.
    unfold prisoners_dilemma.tit_for_tat.
    destruct k as [|k]; [reflexivity|].
    change (repeat "C" (S k)) with ("C" :: repeat "C" k).
    unfold lift, last_item.
    change ("C" :: repeat "C" k) with (repeat "C" (S k)).
    now rewrite last_repeat.
  - change (prisoners_dilemma.resolve (VStr "grim_trigger"))
      with prisoners_dilemma.grim_trigger.
    unfold prisoners_dilemma.grim_trigger.
    now rewrite str_in_repeat_other.
  - change (prisoners_dilemma.resolve (VStr "pavlov"))
      with prisoners_dilemma.pavlov.
    unfold prisoners_dilemma.pavlov.
    destruct k as [|k]; [reflexivity|].
    change (repeat "C" (S k)) with ("C" :: repeat "C" k).
    unfold bind, lift, last_item.
    change ("C" :: repeat "C" k) with (repeat "C" (S k)).
    now rewrite last_repeat.
Qed.

(** X6.  Without noise, two strategies that never defect first
    (always-cooperate, tit-for-tat, grim trigger, Pavlov) cooperate in
    every round: each player totals 3 per round and the cooperation rate
    is 1. *)
Theorem pd_nice_strategies_always_cooperate cfg g n s1 s2 :
  dict_get cfg "rounds" (VInt 100) = VInt n -> 0 < n ->
  dict_get cfg "strategy_p1" (VStr "tit_for_tat") = VStr s1 ->
  dict_get cfg "strategy_p2" (VStr "always_defect") = VStr s2 ->
  In s1 pd_nice_names -> In s2 pd_nice_names ->
  prisoners_dilemma.noise_positive (dict_get cfg "noise" (VFloat 0)) = Ok false ->
  exists res,
    prisoners_dilemma.compute cfg g = Ok (res, g) /\
    Forall (fun rd => actions rd = ["C"; "C"]) (rounds res) /\
    prisoners_dilemma.total_payoff_p1 (summary res) == inject_Z (3 * n) /\
    prisoners_dilemma.total_payoff_p2 (summary res) == inject_Z (3 * n) /\
    prisoners_dilemma.cooperation_rate (summary res) == 1.
Proof.
  intros Hr Hn E1 E2 N1 N2 Hoff.
  unfold prisoners_dilemma.compute, prisoners_dilemma.run. rewrite Hr, E1, E2.
  set (f1 := prisoners_dilemma.resolve (VStr s1)).
  set (f2 := prisoners_dilemma.resolve (VStr s2)).
  set (noise := dict_get cfg "noise" (VFloat 0)) in *.
  pose proof (noise_off_is_number _ Hoff) as Hnum.
  assert (pd_good_strategy f1) as G1 by apply pd_resolve_good.
  assert (pd_good_strategy f2) as G2 by apply pd_resolve_good.
  pose (P := fun (k : nat) st =>
               prisoners_dilemma.h1 st = repeat "C" k /\
               prisoners_dilemma.h2 st = repeat "C" k /\
               Forall (fun rd : prisoners_dilemma.Round => actions rd = ["C"; "C"])
                      (prisoners_dilemma.round_data st) /\
               prisoners_dilemma.total_p1 st == inject_Z (3 * Z.of_nat k) /\
               prisoners_dilemma.total_p2 st == inject_Z (3 * Z.of_nat k) /\
               prisoners_dilemma.coop_count st = 2 * Z.of_nat k).
  assert (forall m k st g0,
             pd_Inv st -> P k st ->
             exists st',
               for_each (map Z.of_nat (seq (S k) m))
                 (prisoners_dilemma.body f1 f2 noise) st g0 = Ok (st', g0) /\
               P (k + m)%nat st') as Hloop.
  { induction m as [|m IH]; intros k st g0 HI HP.
    - exists st. split; [reflexivity|]. now rewrite Nat.add_0_r.
    - cbn [seq map for_each].
      destruct (pd_body_ok f1 f2 noise (Z.of_nat (S k)) st g0 G1 G2 Hnum HI)
        as (st1 & g1 & E & HI1 & _).
      destruct (pd_body_step_quiet _ _ _ _ _ _ _ _ G1 G2 Hoff HI E)
        as (a1 & a2 & g' & p1 & p2 & A1 & A2 & _ & _ & Hp & ->).
      destruct HP as (H1 & H2 & HF & T1 & T2 & HC).
      rewrite H1, H2 in A1, A2.
      unfold f1 in A1. rewrite (pd_nice_cooperates s1 k g0 N1) in A1.
      injection A1 as <- <-.
      unfold f2 in A2. rewrite (pd_nice_cooperates s2 k g0 N2) in A2.
      injection A2 as <- <-.
      injection Hp as <- <-.
      rewrite (bind_ok _ _ _ _ _ E).
      destruct (IH (S k) _ g0 HI1) as (st2 & E' & HP2).
      + unfold P, pd_next.
        cbn [prisoners_dilemma.h1 prisoners_dilemma.h2 prisoners_dilemma.round_data
             prisoners_dilemma.total_p1 prisoners_dilemma.total_p2
             prisoners_dilemma.coop_count].
        rewrite H1, H2, HC.
        repeat split.
        * now rewrite <- repeat_cons.
        * now rewrite <- repeat_cons.
        * apply Forall_app. split; [exact HF|]. now constructor.
        * rewrite T1. replace (3 * Z.of_nat (S k)) with (3 * Z.of_nat k + 3) by lia.
          now rewrite inject_Z_plus.
        * rewrite T2. replace (3 * Z.of_nat (S k)) with (3 * Z.of_nat k + 3) by lia.
          now rewrite inject_Z_plus.
        * change (prisoners_dilemma.count_C "C") with 1. lia.
      + exists st2. split; [exact E'|].
        now replace (k + S m)%nat with (S k + m)%nat by lia. }
  destruct (Hloop (Z.to_nat n) 0%nat prisoners_dilemma.loop_init g pd_Inv_init)
    as (st & E & H1 & H2 & HF & T1 & T2 & HC).
  { unfold P. repeat split; try reflexivity. constructor. }
  unfold range1. rewrite (bind_ok _ _ _ _ _ E).
  unfold prisoners_dilemma.finish, prisoners_dilemma.div_rounds.
  assert ((n =? 0) = false) as -> by lia.
  assert ((2 * n =? 0) = false) as -> by lia.
  cbn [rbind lift]. eexists. split; [reflexivity|].
  cbn [rounds summary prisoners_dilemma.total_payoff_p1
       prisoners_dilemma.total_payoff_p2 prisoners_dilemma.cooperation_rate].
  simpl in T1, T2, HC. rewrite Z2Nat.id in T1, T2, HC by lia.
  split; [exact HF|]. split; [exact T1|]. split; [exact T2|].
  rewrite HC. unfold Qeq, Qdiv, Qmult, Qinv. simpl.
  destruct n; try lia. simpl. lia.
Qed.

Lemma pd_nice_strategies_always_cooperate_witness :
  exists res,
    prisoners_dilemma.compute
      (<["strategy_p2" := VStr "grim_trigger"]> {["rounds" := VInt 4]})
      (const_rng 1 0) = Ok (res, const_rng 1 0) /\
    Forall (fun rd => actions rd = ["C"; "C"]) (rounds res) /\
    prisoners_dilemma.total_payoff_p1 (summary res) == inject_Z (3 * 4).
Proof.
  pose proof (pd_nice_strategies_always_cooperate
                (<["strategy_p2" := VStr "grim_trigger"]> {["rounds" := VInt 4]})
                (const_rng 1 0) 4 "tit_for_tat" "grim_trigger") as H.
  destruct H as (res & E & F & T & _);
    first [ reflexivity | lia | (simpl; tauto) | idtac ].
  exists res. repeat split; assumption.
Defined.

(** X7.  A noise that is a string makes [compute] raise [TypeError] as soon
    as one round runs, for every pair of strategy names. *)
Theorem pd_string_noise_is_a_type_error cfg g n s :
  dict_get cfg "rounds" (VInt 100) = VInt n -> 0 < n ->
  dict_get cfg "noise" (VFloat 0) = VStr s ->
  prisoners_dilemma.compute cfg g = Raise TypeError.
Proof.
  intros Hr Hn Hs.
  unfold prisoners_dilemma.compute, prisoners_dilemma.run. rewrite Hr, Hs.
  unfold range1. replace (Z.to_nat n) with (S (Z.to_nat n - 1)) by lia.
  cbn [seq map for_each].
  apply bind_raise. apply bind_raise. unfold prisoners_dilemma.body.
  destruct (pd_resolve_good (dict_get cfg "strategy_p1" (VStr "tit_for_tat"))
              [] [] g) as (a1 & g1 & E1 & _); auto.
  destruct (pd_resolve_good (dict_get cfg "strategy_p2" (VStr "always_defect"))
              [] [] g1) as (a2 & g2 & E2 & _); auto.
  cbn [prisoners_dilemma.loop_init prisoners_dilemma.h1 prisoners_dilemma.h2].
  rewrite (bind_ok _ _ _ _ _ E1), (bind_ok _ _ _ _ _ E2).
  reflexivity.
Qed.

Lemma pd_string_noise_is_a_type_error_witness :
  prisoners_dilemma.compute
    (<["noise" := VStr "high"]> {["rounds" := VInt 2]}) (const_rng 0 0)
  = Raise TypeError.
Proof.
  pose proof (pd_string_noise_is_a_type_error
                (<["noise" := VStr "high"]> {["rounds" := VInt 2]})
                (const_rng 0 0) 2 "high") as H.
  apply H; first [ reflexivity | lia ].
Defined.

(** ** Auctions: winner and price *)

Lemma Qle_bool_false (x y : Q) : Qle_bool x y = false -> (y < x)%Q.
Proof.
  intros H. apply Qnot_le_lt. intros Hle.
  apply Qle_bool_iff in Hle. congruence.
Qed.

Lemma list_index_In {A : Type} (l : list A) (i : Z) (x : A) :
  list_index l i = Ok x -> In x l.
Proof.
  unfold list_index.
  destruct (_ <? 0); [discriminate|].
  destruct (nth_error l _) as [y|] eqn:E; [|discriminate].
  intros [= <-]. eapply nth_error_In; eauto.
Qed.

Lemma list_index_map {A B : Type} (f : A -> B) (l : list A) (i : Z) (y : B) :
  list_index (map f l) i = Ok y ->
  exists x, list_index l i = Ok x /\ y = f x.
Proof.
  unfold list_index. rewrite length_map.
  destruct (_ <? 0); [discriminate|].
  rewrite nth_error_map.
  destruct (nth_error l _) as [x|]; [|discriminate].
  intros [= <-]. eauto.
Qed.

Lemma max_from_is_max (key : Z -> result Q) (idxs : list Z) :
  forall best kbest w,
    key best = Ok kbest ->
    max_from best kbest idxs key = Ok w ->
    exists kw,
      key w = Ok kw /\ (kbest <= kw)%Q /\
      (forall i ki, In i idxs -> key i = Ok ki -> (ki <= kw)%Q).
Proof.
  induction idxs as [|i idxs IH]; intros best kbest w Hb Hw.
  - injection Hw as <-. exists kbest. split; [exact Hb|].
    split; [apply Qle_refl|]. intros i ki [].
  - cbn [max_from] in Hw.
    destruct (key i) as [ki|] eqn:Hi; [|discriminate]. cbn [rbind] in Hw.
    destruct (Qle_bool ki kbest) eqn:Hc.
    + destruct (IH best kbest w Hb Hw) as (kw & Kw & Hle & Hall).
      exists kw. split; [exact Kw|]. split; [exact Hle|].
      intros j kj [<-|Hj] Hkj.
      * rewrite Hi in Hkj. injection Hkj as <-.
        apply Qle_bool_iff in Hc. eapply Qle_trans; eauto.
      * eapply Hall; eauto.
    + destruct (IH i ki w Hi Hw) as (kw & Kw & Hle & Hall).
      exists kw. split; [exact Kw|].
      apply Qle_bool_false in Hc. split.
      * eapply Qle_trans; [apply Qlt_le_weak; exact Hc|exact Hle].
      * intros j kj [<-|Hj] Hkj.
        -- rewrite Hi in Hkj. injection Hkj as <-. exact Hle.
        -- eapply Hall; eauto.
Qed.

Lemma max_by_key_is_max (key : Z -> result Q) (idxs : list Z) (w : Z) :
  max_by_key idxs key = Ok w ->
  exists kw,
    key w = Ok kw /\
    (forall i ki, In i idxs -> key i = Ok ki -> (ki <= kw)%Q).
Proof.
  destruct idxs as [|i idxs]; [discriminate|]. cbn [max_by_key].
  destruct (key i) as [ki|] eqn:Hi; [|discriminate]. cbn [rbind]. intros Hw.
  destruct (max_from_is_max key idxs i ki w Hi Hw) as (kw & Kw & Hle & Hall).
  exists kw. split; [exact Kw|].
  intros j kj [<-|Hj] Hkj.
  - rewrite Hi in Hkj. injection Hkj as <-. exact Hle.
  - eapply Hall; eauto.
Qed.

(** The winner of [max(range(n), key=lambda i: l[i])] holds a largest
    element of [l]. *)
Lemma argmax_range_is_max (nb : Z) (l : list Q) (w : Z) :
  length l = Z.to_nat nb ->
  max_by_key (range0 nb) (list_index l) = Ok w ->
  exists vw, list_index l w = Ok vw /\ Forall (fun v => (v <= vw)%Q) l.
Proof.
  intros Hl Hw.
  destruct (max_by_key_is_max _ _ _ Hw) as (vw & Kw & Hall).
  exists vw. split; [exact Kw|].
  apply Forall_forall. intros v Hv. apply list_elem_of_In in Hv.
  apply In_nth_error in Hv as [j Hj].
  assert (j < length l)%nat as Hlt by (apply nth_error_Some; congruence).
  apply (Hall (Z.of_nat j) v).
  - apply list_elem_of_In, elem_of_range0. lia.
  - unfold list_index.
    assert ((Z.of_nat j <? 0) = false) as -> by lia.
    assert ((Z.of_nat j <? 0) = false) as -> by lia.
    now rewrite Nat2Z.id, Hj.
Qed.

Lemma insert_desc_In (x y : Q) (l : list Q) :
  In y (insert_desc x l) -> y = x \/ In y l.
Proof.
  induction l as [|z l IH]; simpl.
  - intros [<-|[]]. now left.
  - destruct (Qle_bool z x); simpl.
    + intros [<-|[<-|H]]; auto.
    + intros [<-|H]; auto. destruct (IH H); auto.
Qed.

Lemma sorted_desc_In (y : Q) (l : list Q) : In y (sorted_desc l) -> In y l.
Proof.
  induction l as [|x l IH]; simpl; [tauto|].
  intros H. apply insert_desc_In in H as [->|H]; auto.
Qed.

(** The winner and the price of one auction. *)
Lemma auction_mechanism_winner_price atype nb values bids w price :
  2 <= nb -> length values = Z.to_nat nb ->
  Forall (fun v => (0 <= v)%Q) values ->
  auction_mechanisms.mechanism atype nb values = Ok (bids, w, price) ->
  exists vw,
    list_index values w = Ok vw /\
    Forall (fun v => (v <= vw)%Q) values /\
    (0 <= price)%Q /\ (price <= vw)%Q.
Proof.
  intros Hnb Hl Hpos. unfold auction_mechanisms.mechanism.
  assert (forall w p,
             max_by_key (range0 nb) (list_index values) = Ok w ->
             list_index (sorted_desc values) 1 = Ok p ->
             exists vw,
               list_index values w = Ok vw /\
               Forall (fun v => (v <= vw)%Q) values /\
               (0 <= p)%Q /\ (p <= vw)%Q) as Second.
  { intros w0 p Hw Hp.
    destruct (argmax_range_is_max nb values w0 Hl Hw) as (vw & Kw & Hall).
    exists vw. split; [exact Kw|]. split; [exact Hall|].
    apply list_index_In, sorted_desc_In in Hp.
    rewrite Forall_forall in Hpos, Hall.
    split; [apply Hpos|apply Hall]; now apply list_elem_of_In. }
  destruct (auction_mechanisms.is_type atype "vickrey");
    [|destruct (auction_mechanisms.is_type atype "english")].
  - destruct (max_by_key _ _) as [w0|] eqn:Hw; [|discriminate]. cbn [rbind].
    destruct (list_index (sorted_desc values) 1) as [p|] eqn:Hp; [|discriminate].
    intros [= <- <- <-]. now apply Second.
  - destruct (max_by_key _ _) as [w0|] eqn:Hw; [|discriminate]. cbn [rbind].
    destruct (list_index (sorted_desc values) 1) as [p|] eqn:Hp; [|discriminate].
    intros [= <- <- <-]. now apply Second.
  - set (c := (inject_Z (nb - 1) / inject_Z nb)%Q).
    set (shade := fun v : Q => (v * inject_Z (nb - 1) / inject_Z nb)%Q).
    assert (0 < inject_Z nb)%Q as Hq by (unfold Qlt; simpl; lia).
    assert (0 < inject_Z (nb - 1))%Q as Hq1 by (unfold Qlt; simpl; lia).
    assert (forall u v, (shade u <= shade v)%Q -> (u <= v)%Q) as Hmono.
    { assert (~ inject_Z nb == 0) as N0
        by (intros H0; rewrite H0 in Hq; now apply Qlt_irrefl in Hq).
      assert (~ inject_Z (nb - 1) == 0) as N1
        by (intros H0; rewrite H0 in Hq1; now apply Qlt_irrefl in Hq1).
      assert (forall t, shade t * (inject_Z nb / inject_Z (nb - 1)) == t) as E
        by (intros t; unfold shade; field; auto).
      intros u v H. rewrite <- (E u), <- (E v).
      apply Qmult_le_compat_r; [exact H|].
      apply Qle_shift_div_l; [exact Hq1|]. rewrite Qmult_0_l.
      now apply Qlt_le_weak. }
    assert (forall v, (0 <= v)%Q -> (0 <= shade v)%Q /\ (shade v <= v)%Q) as Hshade.
    { intros v Hv. unfold shade. split.
      - apply Qle_shift_div_l; [exact Hq|]. rewrite Qmult_0_l.
        apply Qmult_le_0_compat; [exact Hv|now apply Qlt_le_weak].
      - apply Qle_shift_div_r; [exact Hq|].
        rewrite (Qmult_comm v (inject_Z (nb - 1))), (Qmult_comm v (inject_Z nb)).
        apply Qmult_le_compat_r; [|exact Hv].
        unfold Qle. simpl. lia. }
    cbv zeta. fold shade.
    destruct (max_by_key (range0 nb) (list_index (map shade values)))
      as [w0|] eqn:Hw; cbn [rbind]; [|discriminate].
    destruct (list_index (map shade values) w0) as [p|] eqn:Hp;
      cbn [rbind]; [|discriminate].
    intros [= <- <- <-].
    destruct (argmax_range_is_max nb (map shade values) w0
                ltac:(now rewrite length_map) Hw) as (bw & Kw & Hall).
    rewrite Hp in Kw. injection Kw as <-.
    apply list_index_map in Hp as (vw & Hvw & ->).
    exists vw. split; [exact Hvw|].
    assert (0 <= vw)%Q as Hvw0.
    { rewrite Forall_forall in Hpos. apply Hpos, list_elem_of_In.
      eapply list_index_In; eauto. }
    split; [|now apply Hshade].
    apply Forall_forall. intros v Hv. apply Hmono.
    rewrite Forall_forall in Hall. apply Hall.
    apply list_elem_of_fmap. eauto.
Qed.

(** X8.  In the Vickrey and the English format bidding is truthful and the
    price is the second-highest value: the bids are the private values, the
    winner holds a highest value, and the price, the second entry of the
    values in decreasing order, is neither negative nor above the winner's
    value.  (These two formats compare the values and do no arithmetic on
    them.) *)
Theorem auction_winner_pays_at_most_value atype nb values bids w price :
  (auction_mechanisms.is_type atype "vickrey"
   || auction_mechanisms.is_type atype "english") = true ->
  2 <= nb -> length values = Z.to_nat nb ->
  Forall (fun v => (0 <= v)%Q) values ->
  auction_mechanisms.mechanism atype nb values = Ok (bids, w, price) ->
  bids = values /\
  list_index (sorted_desc values) 1 = Ok price /\
  exists vw,
    list_index values w = Ok vw /\
    Forall (fun v => (v <= vw)%Q) values /\
    (0 <= price)%Q /\ (price <= vw)%Q.
Proof.
  intros Ht Hnb Hlen Hpos EM.
  split; [|split].
  - unfold auction_mechanisms.mechanism in EM.
    destruct (auction_mechanisms.is_type atype "vickrey");
      [|destruct (auction_mechanisms.is_type atype "english"); [|discriminate Ht]];
      cbv zeta in EM;
      destruct (max_by_key (range0 nb) (list_index values)) as [w0|]; cbn [rbind] in EM;
        try discriminate EM;
      destruct (list_index (sorted_desc values) 1) as [p0|]; cbn [rbind] in EM;
        try discriminate EM;
      now injection EM as <- _ _.
  - unfold auction_mechanisms.mechanism in EM.
    destruct (auction_mechanisms.is_type atype "vickrey");
      [|destruct (auction_mechanisms.is_type atype "english"); [|discriminate Ht]];
      cbv zeta in EM;
      destruct (max_by_key (range0 nb) (list_index values)) as [w0|]; cbn [rbind] in EM;
        try discriminate EM;
      destruct (list_index (sorted_desc values) 1) as [p0|]; cbn [rbind] in EM;
        try discriminate EM;
      now injection EM as _ _ <-.
  - exact (auction_mechanism_winner_price atype nb values bids w price
             Hnb Hlen Hpos EM).
Qed.

Lemma auction_winner_pays_at_most_value_witness :
  [10%Q; 7%Q] = [10%Q; 7%Q] /\
  list_index (sorted_desc [10%Q; 7%Q]) 1 = Ok 7%Q /\
  exists vw,
    list_index [10%Q; 7%Q] 0 = Ok vw /\
    Forall (fun v => (v <= vw)%Q) [10%Q; 7%Q] /\
    (0 <= 7)%Q /\ (7 <= vw)%Q.
Proof.
  apply (auction_winner_pays_at_most_value (VStr "vickrey") 2 [10%Q; 7%Q]
           [10%Q; 7%Q] 0 7%Q).
  - reflexivity.
  - lia.
  - reflexivity.
  - repeat constructor; discriminate.
  - reflexivity.
Defined.

(** ** Auctions: the trace and the ranges of the summary *)























(** X11.  Without auctions nothing is returned: [n_auctions = 0] ends in the
    [ZeroDivisionError] of the average revenue, and a negative [n_auctions]
    in the [ValueError] of [random.sample], whatever the other parameters
    are. *)
Theorem auction_needs_one_auction cfg g n :
  dict_get cfg "n_auctions" (VInt 500) = VInt n -> n <= 0 ->
  auction_mechanisms.compute cfg g
  = Raise (if n =? 0 then ZeroDivisionError else ValueError).
Proof.
  intros Hn Hle. unfold auction_mechanisms.compute. rewrite Hn.
  rewrite (bind_ok _ _ g n g eq_refl). unfold random_sample.
  destruct (n =? 0) eqn:E.
  - apply Z.eqb_eq in E. subst n. reflexivity.
  - assert ((Z.min 200 n <? 0) = true) as -> by lia. reflexivity.
Qed.

Lemma auction_needs_one_auction_witness :
  auction_mechanisms.compute {["n_auctions" := VInt 0]} (const_rng 0 0)
    = Raise ZeroDivisionError /\
  auction_mechanisms.compute {["n_auctions" := VInt (-5)]} (const_rng 0 0)
    = Raise ValueError.
Proof.
  split.
  - pose proof (auction_needs_one_auction {["n_auctions" := VInt 0]}
                  (const_rng 0 0) 0) as H.
    apply H; [reflexivity|lia].
  - pose proof (auction_needs_one_auction {["n_auctions" := VInt (-5)]}
                  (const_rng 0 0) (-5)) as H.
    apply H; [reflexivity|lia].
Defined.







(** ** Tragedy of the commons: what a run keeps *)

Lemma qmin_le_l (x y : Q) : (qmin x y <= x)%Q.
Proof.
  unfold qmin. destruct (Qle_bool x y) eqn:E; [apply Qle_refl|].
  destruct (Qlt_le_dec y x) as [H|H]; [now apply Qlt_le_weak|].
  apply Qle_bool_iff in H. congruence.
Qed.

Lemma qmin_le_r (x y : Q) : (qmin x y <= y)%Q.
Proof.
  unfold qmin. destruct (Qle_bool x y) eqn:E; [now apply Qle_bool_iff|apply Qle_refl].
Qed.

Lemma qmin_glb (x y z : Q) : (z <= x)%Q -> (z <= y)%Q -> (z <= qmin x y)%Q.
Proof. intros Hx Hy. unfold qmin. now destruct (Qle_bool x y). Qed.

Lemma qgt_true (x y : Q) : qgt x y = true <-> (y < x)%Q.
Proof.
  unfold qgt. rewrite negb_true_iff. split.
  - intros E. destruct (Qlt_le_dec y x) as [H|H]; [exact H|].
    apply Qle_bool_iff in H. congruence.
  - intros H. destruct (Qle_bool x y) eqn:E; [|reflexivity].
    apply Qle_bool_iff in E. lra.
Qed.

Lemma qgt_false (x y : Q) : qgt x y = false <-> (x <= y)%Q.
Proof.
  unfold qgt. rewrite negb_false_iff. apply Qle_bool_iff.
Qed.

Lemma py_sum_snoc (l : list Q) (x : Q) : (py_sum (l ++ [x]) == py_sum l + x)%Q.
Proof. unfold py_sum. rewrite fold_left_app. cbn [fold_left]. apply Qred_correct. Qed.

Section commons_run.
Import tragedy_of_commons.

Lemma commons_call_each_facts (f : Sim Z) (n : nat) :
  (forall g x g', f g = Ok (x, g') -> 1 <= x) ->
  forall g xs g', call_each n f g = Ok (xs, g') ->
    length xs = n /\ Forall (fun x => 1 <= x) xs.
Proof.
  intros Hf. induction n as [|n IH]; intros g xs g' E.
  - injection E as <- <-. split; [reflexivity|constructor].
  - cbn [call_each] in E. unfold bind at 1 in E.
    destruct (f g) as [[x g1]|e] eqn:E1; [|discriminate].
    unfold bind at 1 in E.
    destruct (call_each n f g1) as [[rest g2]|e] eqn:E2; [|discriminate].
    injection E as <- <-. destruct (IH _ _ _ E2) as [L F].
    split; [simpl; now rewrite L|]. constructor; [now apply (Hf g x g1)|exact F].
Qed.

Lemma commons_resolve_positive (name : value) : commons_positive (resolve name).
Proof.
  intros h cap g x g'.
  destruct (commons_resolve_cases name) as [->|[->|[->|[->|[->| ->]]]]].
  - intros [= <- <-]. unfold harvest. lia.
  - intros [= <- <-]. unfold harvest. lia.
  - intros [= <- <-]. unfold harvest. lia.
  - unfold adaptive. destruct h; intros [= <- <-]; unfold harvest; lia.
  - intros [= <- <-]. unfold harvest. lia.
  - unfold tit_for_tat. destruct (last h); intros [= <- <-]; unfold harvest; lia.
Qed.

(** One iteration of the loop, for a positive agent count and a numeric
    regeneration rate: the agents are asked in turn and the loop state moves
    to [commons_next]. *)
Lemma commons_body_step ni regen rg capacity strat_fn r st g :
  0 < ni -> as_number regen = Ok rg ->
  commons_total strat_fn -> commons_positive strat_fn ->
  exists hs g',
    body (VInt ni) regen capacity strat_fn r st g
    = Ok (commons_next ni rg capacity r st hs, g') /\
    length hs = Z.to_nat ni /\ Forall (fun x => 1 <= x) hs.
Proof.
  intros Hni Hregen Htot Hpos. unfold body.
  assert (exists cap,
             (if qgt (pool st) 0
              then rbind (as_number (VInt ni)) (fun nq => py_div (pool st) nq)
              else Ok 0%Q) = Ok cap) as [cap Hcap].
  { destruct (qgt (pool st) 0); [|eauto].
    cbn [as_number rbind]. apply py_div_ok. lia. }
  rewrite (bind_ok _ _ _ _ _ (lift_ok _ _ g Hcap)).
  rewrite (bind_ok _ _ g ni g eq_refl).
  destruct (commons_call_each_total (Z.to_nat ni) (strat_fn (history st) cap)
              (Htot (history st) cap) g) as (hs & g1 & E1).
  rewrite (bind_ok _ _ _ _ _ E1).
  rewrite (bind_ok _ _ _ _ _ (lift_ok _ _ g1 Hregen)).
  assert (forall x, py_div x (inject_Z ni) = Ok (Qred (x / inject_Z ni))) as Hdiv.
  { intros x. unfold py_div.
    destruct (Qeq_bool (inject_Z ni) 0) eqn:E; [|reflexivity].
    apply Qeq_bool_iff in E. unfold Qeq in E. simpl in E. lia. }
  rewrite (bind_ok _ _ _ _ _ (lift_ok _ _ g1 (Hdiv _))).
  exists hs, g1. split; [reflexivity|].
  apply (commons_call_each_facts (strat_fn (history st) cap) (Z.to_nat ni)
           (fun g0 x g0' => Hpos (history st) cap g0 x g0') g hs g1 E1).
Qed.

Section next.
Variables (ni : Z) (rg cap : Q).
Hypothesis Hni : 0 < ni.
Hypothesis Hrg : (0 <= rg)%Q.
Hypothesis Hcap : (0 < cap)%Q.

Lemma commons_Trace_init :
  commons_Trace ni cap 0
    {| pool := cap; rd := []; history := [];
       total_harvested := 0; depleted_round := None |}.
Proof.
  constructor; cbn [pool rd history total_harvested depleted_round];
    try solve [constructor]; try lra.
  - unfold commons_payoffs, py_sum. simpl. ring.
  - intros _ H. now contradiction H.
Qed.

Lemma commons_Trace_next (k : nat) st hs :
  commons_Trace ni cap k st ->
  length hs = Z.to_nat ni -> Forall (fun x => 1 <= x) hs ->
  commons_Trace ni cap (S k) (commons_next ni rg cap (Z.of_nat (S k)) st hs).
Proof.
  intros [Plo Phi Tot Nums Rounds Hist Sum Depl Surv] L F.
  pose proof (fold_add_positive hs F) as HT. rewrite L in HT.
  unfold commons_next.
  set (total := fold_left Z.add hs 0) in *.
  assert (0 < total) as HT0 by lia.
  assert (0 < inject_Z total)%Q as HTq by (unfold Qlt; simpl; lia).
  assert (0 < inject_Z ni)%Q as Hnq by (unfold Qlt; simpl; lia).
  set (actual := qmin (inject_Z total) (pool st)).
  assert (0 <= actual)%Q as Alo by (apply qmin_glb; lra).
  assert (actual <= pool st)%Q as Ahi by apply qmin_le_r.
  assert ((0 <? total) = true) as -> by (apply Z.ltb_lt; lia).
  set (scale := (actual / inject_Z total)%Q).
  assert (0 <= scale)%Q as Slo.
  { unfold scale. apply Qle_shift_div_l; [exact HTq|]. lra. }
  set (pool1 := (pool st - actual)%Q).
  assert (0 <= pool1)%Q as P1lo by (unfold pool1; lra).
  assert (0 <= pool1 * rg)%Q as P1rg by (now apply Qmult_le_0_compat).
  set (pool2 := Qred (qmin cap (pool1 + pool1 * rg))).
  assert (0 <= pool2)%Q as P2lo.
  { unfold pool2. rewrite Qred_correct. apply qmin_glb; lra. }
  assert (pool2 <= cap)%Q as P2hi.
  { unfold pool2. rewrite Qred_correct. apply qmin_le_l. }
  assert (qgt cap 0 = true) as -> by (now apply qgt_true).
  assert (unit_interval (actual / cap)) as Hu.
  { split.
    - apply Qle_shift_div_l; [exact Hcap|]. lra.
    - apply Qle_shift_div_r; [exact Hcap|]. lra. }
  set (pay := Qred (actual / inject_Z ni)).
  assert (inject_Z ni * pay == actual)%Q as Hpay.
  { unfold pay. rewrite Qred_correct. field. lra. }
  assert (0 <= pay)%Q as Paylo.
  { unfold pay. rewrite Qred_correct. apply Qle_shift_div_l; [exact Hnq|]. lra. }
  set (rec := {| round_num := Z.of_nat (S k);
                 actions := map (fun h => (inject_Z h * scale)%Q) hs;
                 payoffs := [pay];
                 state := {| st_pool := py_round pool2 2;
                             st_total_harvest := py_round actual 2;
                             st_usage_ratio := py_round (actual / cap) 4 |} |}).
  assert (commons_round_ok ni cap rec) as Hrec.
  { unfold commons_round_ok, rec. cbn [actions payoffs state st_pool
      st_total_harvest st_usage_ratio]. repeat split.
    - now rewrite length_map.
    - apply List.Forall_forall. intros a Ha. apply in_map_iff in Ha.
      destruct Ha as (h & <- & Hh). rewrite List.Forall_forall in F.
      apply Qmult_le_0_compat; [|exact Slo].
      pose proof (F h Hh). unfold Qle. simpl. lia.
    - exists pay. split; [reflexivity|exact Paylo].
    - now apply py_round_nonneg.
    - now apply py_round_mono.
    - now apply py_round_nonneg.
    - apply (py_round_between _ 0 1 4); [lia|apply Hu|apply Hu].
    - apply (py_round_between _ 0 1 4); [lia|apply Hu|apply Hu]. }
  subst rec.
  constructor; cbn [pool rd history total_harvested depleted_round].
  - exact P2lo.
  - exact P2hi.
  - rewrite Qred_correct. lra.
  - rewrite map_app, seq_S, map_app. f_equal. exact Nums.
  - apply Forall_app. split; [exact Rounds|]. constructor; [exact Hrec|constructor].
  - apply Forall_app. split; [exact Hist|]. constructor; [exact Hu|constructor].
  - unfold commons_payoffs. rewrite map_app. cbn [map payoffs nth].
    rewrite py_sum_snoc, Qred_correct, Sum, <- Hpay.
    unfold commons_payoffs. cbn [payoffs nth]. symmetry. apply Qmult_plus_distr_r.
  - assert (Forall (fun x : Round => round_num x <= Z.of_nat k) (rd st)) as Hle.
    { apply List.Forall_forall. intros x Hx.
      assert (In (round_num x) (map round_num (rd st))) as Hi by now apply in_map.
      rewrite Nums in Hi. apply in_map_iff in Hi. destruct Hi as (j & <- & Hj).
      apply in_seq in Hj. lia. }
    unfold commons_depletion in *.
    destruct (qgt 1 pool2) eqn:Elow.
    + apply qgt_true in Elow.
      assert (py_round pool2 2 <= 1)%Q as Hlow.
      { change 1%Q with (inject_Z 1). rewrite <- (py_round_Z 1 2 ltac:(lia)).
        apply py_round_mono; [lia|]. apply Qlt_le_weak. exact Elow. }
      destruct (depleted_round st) as [d|].
      * destruct Depl as (Hd & Hbefore & Hat). split; [lia|]. split.
        -- apply Forall_app. split; [exact Hbefore|].
           constructor; [|constructor]. cbn [round_num]. intros. lia.
        -- apply Forall_app. split; [exact Hat|].
           constructor; [|constructor]. cbn [round_num]. intros. lia.
      * split; [lia|]. split.
        -- apply Forall_app. split.
           ++ eapply List.Forall_impl; [|exact Depl]. intros x Hx _. exact Hx.
           ++ constructor; [|constructor]. cbn [round_num]. intros. lia.
        -- apply Forall_app. split.
           ++ eapply List.Forall_impl; [|exact Hle]. intros x Hx Hx'. cbv beta in Hx. lia.
           ++ constructor; [|constructor]. intros _. exact Hlow.
    + apply qgt_false in Elow.
      assert (1 <= py_round pool2 2)%Q as Hhigh.
      { change 1%Q with (inject_Z 1). rewrite <- (py_round_Z 1 2 ltac:(lia)).
        apply py_round_mono; [lia|]. exact Elow. }
      destruct (depleted_round st) as [d|].
      * destruct Depl as (Hd & Hbefore & Hat). split; [lia|]. split.
        -- apply Forall_app. split; [exact Hbefore|].
           constructor; [|constructor]. intros _. exact Hhigh.
        -- apply Forall_app. split; [exact Hat|].
           constructor; [|constructor]. cbn [round_num]. intros. lia.
      * apply Forall_app. split; [exact Depl|].
        constructor; [exact Hhigh|constructor].
  - intros Hnone _. destruct (qgt 1 pool2) eqn:Elow.
    + destruct (depleted_round st); discriminate.
    + now apply qgt_false in Elow.
Qed.

Lemma commons_loop_trace regen strat_fn :
  as_number regen = Ok rg ->
  commons_total strat_fn -> commons_positive strat_fn ->
  forall (m k : nat) st g,
    commons_Trace ni cap k st ->
    exists st' g',
      for_each (map Z.of_nat (seq (S k) m)) (body (VInt ni) regen cap strat_fn) st g
      = Ok (st', g') /\
      commons_Trace ni cap (k + m) st'.
Proof.
  intros Hregen Htot Hpos. induction m as [|m IH]; intros k st g HT.
  - exists st, g. split; [reflexivity|]. now rewrite Nat.add_0_r.
  - cbn [seq map for_each].
    destruct (commons_body_step ni regen rg cap strat_fn (Z.of_nat (S k)) st g
                Hni Hregen Htot Hpos) as (hs & g1 & E & L & F).
    rewrite (bind_ok _ _ _ _ _ E).
    destruct (IH (S k) _ g1 (commons_Trace_next k st hs HT L F)) as (st' & g' & E' & HT').
    exists st', g'. split; [exact E'|].
    now replace (k + S m)%nat with (S k + m)%nat by lia.
Qed.

End next.

(** A run with positive counts, a positive capacity and a non-negative
    regeneration rate returns, and its final loop state satisfies the
    invariant of the loop. *)
Lemma commons_compute_trace float_str cfg g nr ni c rg :
  dict_get cfg "rounds" (VInt 100) = VInt nr -> 0 < nr ->
  dict_get cfg "n_agents" (VInt 6) = VInt ni -> 0 < ni ->
  as_number (dict_get cfg "resource_capacity" (VFloat 1000)) = Ok c -> (0 < c)%Q ->
  as_number (dict_get cfg "regeneration_rate" (VFloat (1 # 5))) = Ok rg -> (0 <= rg)%Q ->
  exists st g',
    commons_Trace ni c (Z.to_nat nr) st /\
    compute float_str cfg g
    = Ok ({| game_id := "tragedy_of_commons";
             config := cfg;
             rounds := rd st;
             equilibria :=
               [ {| eq_name := "Overexploitation NE";
                    eq_strategies :=
                      repeat (dict_get cfg "strategy" (VStr "moderate")) (Z.to_nat ni);
                    eq_payoffs := None;
                    eq_description :=
                      "Pool " ++
                      match depleted_round st with
                      | Some d => "depleted at round " ++ pretty d
                      | None => "survived"
                      end ++
                      " with " ++ pretty ni ++ " agents using '" ++
                      py_str float_str (dict_get cfg "strategy" (VStr "moderate")) ++
                      "' strategy." |} ];
             summary :=
               {| final_pool := py_round (pool st) 2;
                  sum_total_harvested := py_round (total_harvested st) 2;
                  depleted := match depleted_round st with
                              | Some _ => true
                              | None => false
                              end;
                  sum_depleted_round := depleted_round st;
                  avg_harvest_per_agent :=
                    py_round (Qred (total_harvested st / inject_Z (ni * nr))) 2;
                  sustainability_score := py_round (Qred (pool st / c)) 3 |};
             metadata_engine := "server" |}, g').
Proof.
  intros Hr Hnr Hn Hni Hc Hc0 Hregen Hrg. unfold compute, run.
  rewrite Hr, Hn. rewrite (bind_ok _ _ g nr g eq_refl).
  rewrite (bind_ok _ _ _ _ _ (lift_ok _ _ g Hc)).
  set (name := dict_get cfg "strategy" (VStr "moderate")).
  destruct (commons_loop_trace ni rg c Hni Hrg Hc0 _ (resolve name) Hregen
              (commons_resolve_total name) (commons_resolve_positive name)
              (Z.to_nat nr) 0%nat _ g (commons_Trace_init ni c Hc0))
    as (st & g1 & E & HT).
  unfold range1. rewrite (bind_ok _ _ _ _ _ E).
  exists st, g1. split; [exact HT|].
  unfold finish. cbn [as_int rbind].
  assert (forall x y, ~ y == 0 -> py_div x y = Ok (Qred (x / y))) as Hdiv.
  { intros x y Hy. unfold py_div. destruct (Qeq_bool y 0) eqn:E0; [|reflexivity].
    apply Qeq_bool_iff in E0. contradiction. }
  rewrite (Hdiv _ (inject_Z (ni * nr))).
  2:{ unfold Qeq. simpl. nia. }
  cbn [rbind]. rewrite (Hdiv _ c) by lra. reflexivity.
Qed.

End commons_run.

(** X14.  With a positive round count and the agent count, the capacity and
    the regeneration rate within their declared ranges (2 to 20, 100 to
    10000, 0.05 to 0.5), [TragedyOfCommons.compute] returns for every
    strategy name; its rounds are numbered 1 to [rounds], and every round
    lists one share per agent and a single payoff, none of them negative,
    a recorded pool between 0 and the rounded capacity, and a usage ratio
    between 0 and 1. *)
Theorem commons_rounds_share_the_harvest float_str cfg g nr ni c rg :
  dict_get cfg "rounds" (VInt 100) = VInt nr -> 0 < nr ->
  dict_get cfg "n_agents" (VInt 6) = VInt ni -> 2 <= ni <= 20 ->
  as_number (dict_get cfg "resource_capacity" (VFloat 1000)) = Ok c ->
  (100 <= c)%Q -> (c <= 10000)%Q ->
  as_number (dict_get cfg "regeneration_rate" (VFloat (1 # 5))) = Ok rg ->
  ((1 # 20) <= rg)%Q -> (rg <= (1 # 2))%Q ->
  exists res g',
    tragedy_of_commons.compute float_str cfg g = Ok (res, g') /\
    map round_num (rounds res) = range1 nr /\
    Forall (commons_round_ok ni c) (rounds res).
Proof.
  intros Hr Hnr Hn Hni Hc Hc0 _ Hregen Hrg _.
  destruct (commons_compute_trace float_str cfg g nr ni c rg Hr Hnr Hn ltac:(lia)
              Hc ltac:(lra) Hregen ltac:(lra))
    as (st & g' & HT & E).
  eexists _, g'. split; [exact E|]. cbn [rounds]. split.
  - exact (ct_nums _ _ _ _ HT).
  - exact (ct_rounds _ _ _ _ HT).
Qed.

Lemma commons_rounds_share_the_harvest_witness :
  exists res g',
    tragedy_of_commons.compute (fun _ => "")
      (<["rounds" := VInt 2]> {["n_agents" := VInt 2]}) (const_rng 0 0)
    = Ok (res, g') /\
    map round_num (rounds res) = range1 2 /\
    Forall (commons_round_ok 2 1000) (rounds res).
Proof.
  pose proof (commons_rounds_share_the_harvest (fun _ => "")
                (<["rounds" := VInt 2]> {["n_agents" := VInt 2]})
                (const_rng 0 0) 2 2 1000 (1 # 5)) as H.
  apply H; first [ reflexivity | lia | (unfold Qle; simpl; lia) ].
Defined.










(** ** Registry and routes: the catalogue and the handlers *)

Lemma assoc_In {V : Type} (k : string) (v : V) (l : list (string * V)) :
  assoc k l = Some v -> In (k, v) l.
Proof.
  induction l as [|[k' v'] l IH]; simpl; [discriminate|].
  destruct (String.eqb k k') eqn:E.
  - apply String.eqb_eq in E. intros [= ->]. left. now subst.
  - intros H. right. now apply IH.
Qed.

Lemma registry_keys_are_ids :
  Forall (fun kv => id (registry.info (snd kv)) = fst kv) registry._GAMES.
Proof. repeat constructor. Qed.

Lemma registry_entries_resolve :
  Forall (fun kv => registry.get_game (fst kv) = Some (snd kv)) registry._GAMES.
Proof. repeat constructor. Qed.

Lemma get_game_info_get_game (game_id : string) :
  registry.get_game_info game_id
  = match registry.get_game game_id with
    | Some g => Some (registry.info g)
    | None => None
    end.
Proof.
  unfold registry.get_game_info, registry.get_game.
  destruct (registry.contains game_id) eqn:E; [reflexivity|].
  apply get_game_none_iff in E. unfold registry.get_game in E. now rewrite E.
Qed.

(** X19.  The catalogue and the detail handler agree: [game_detail]
    returns an entry for an identifier exactly when the entry is listed by
    [list_games] under that identifier, so every listed game is found again
    by its own [id]. *)
Theorem catalogue_entries_found_by_id (game_id : string) (i : GameInfo) :
  routes.game_detail game_id = routes.Returned i
  <-> In i registry.get_all_game_info /\ id i = game_id.
Proof.
  unfold routes.game_detail. rewrite get_game_info_get_game. split.
  - destruct (registry.get_game game_id) as [g|] eqn:G; [|discriminate].
    intros [= <-]. apply assoc_In in G.
    pose proof registry_keys_are_ids as K. rewrite List.Forall_forall in K.
    split; [|exact (K _ G)].
    unfold registry.get_all_game_info.
    apply in_map_iff. exists (game_id, g). split; [reflexivity|exact G].
  - intros [Hin <-]. unfold registry.get_all_game_info in Hin.
    apply in_map_iff in Hin. destruct Hin as ([k g] & <- & Hkg).
    pose proof registry_keys_are_ids as K. rewrite List.Forall_forall in K.
    pose proof registry_entries_resolve as R. rewrite List.Forall_forall in R.
    specialize (K _ Hkg). specialize (R _ Hkg). cbn [fst snd] in *.
    rewrite K, R. reflexivity.
Qed.

Lemma catalogue_entries_found_by_id_witness :
  routes.game_detail "auction_mechanisms" = routes.Returned auction_mechanisms.info.
Proof.
  apply (proj2 (catalogue_entries_found_by_id "auction_mechanisms"
                  auction_mechanisms.info)).
  split; [|reflexivity].
  unfold registry.get_all_game_info. simpl. do 10 right. left. reflexivity.
Defined.

(** X20.  The answer of [run_simulation] is decided by the registry and by
    [compute]: it is the 404 of [game_detail], with the same text, exactly
    when the identifier is not registered; it returns [r] exactly when the
    registered game computes [r]; and it is a 500 that quotes the exception
    exactly when the registered game raises. *)
Theorem simulate_answer_follows_registry_and_compute
    (Body : Type) (compute : registry.BaseGame -> gmap string value -> result Body)
    (exn_str : exn -> string) (req : routes.SimulationRequest) :
  (forall detail,
     routes.run_simulation Body compute exn_str req = routes.HTTPException 404 detail
     <-> routes.game_detail (routes.req_game_id req) = routes.HTTPException 404 detail) /\
  (forall r,
     routes.run_simulation Body compute exn_str req = routes.Returned r
     <-> exists game,
           registry.get_game (routes.req_game_id req) = Some game /\
           compute game (routes.req_config req) = Ok r) /\
  (forall detail,
     routes.run_simulation Body compute exn_str req = routes.HTTPException 500 detail
     <-> exists game e,
           registry.get_game (routes.req_game_id req) = Some game /\
           compute game (routes.req_config req) = Raise e /\
           detail = "Simulation error: " ++ exn_str e).
Proof.
  unfold routes.run_simulation, routes.game_detail.
  rewrite get_game_info_get_game.
  destruct (registry.get_game (routes.req_game_id req)) as [game|] eqn:G.
  - destruct (compute game (routes.req_config req)) as [r0|e] eqn:C.
    + split; [|split].
      * intros detail. split; discriminate.
      * intros r. split.
        -- intros [= <-]. eauto.
        -- intros (game' & [= <-] & C'). congruence.
      * intros detail. split; [discriminate|].
        intros (game' & e & [= <-] & C' & _). congruence.
    + split; [|split].
      * intros detail. split; discriminate.
      * intros r. split; [discriminate|].
        intros (game' & [= <-] & C'). congruence.
      * intros detail. split.
        -- intros [= <-]. eauto.
        -- intros (game' & e' & [= <-] & C' & ->). congruence.
  - cbv beta iota. split; [|split].
    + intros detail. split; intros [= <-]; reflexivity.
    + intros r. split; [discriminate|]. intros (game & ? & _). discriminate.
    + intros detail. split; [discriminate|]. intros (game & e & ? & _). discriminate.
Qed.

(** ** Pirate division: the division of backward induction *)














(** ** El Farol: the attendance predictors *)

Lemma list_index_from_end {A : Type} (l : list A) (k : Z) :
  1 <= k <= Z.of_nat (length l) ->
  exists x, list_index l (- k) = Ok x /\ In x l.
Proof.
  intros H. unfold list_index.
  assert ((- k <? 0) = true) as E by (apply Z.ltb_lt; lia).
  rewrite E. cbv zeta.
  assert ((Z.of_nat (length l) + - k <? 0) = false) as -> by (apply Z.ltb_ge; lia).
  destruct (nth_error l (Z.to_nat (Z.of_nat (length l) + - k))) as [x|] eqn:N.
  - exists x. split; [reflexivity|]. eapply nth_error_In. exact N.
  - apply nth_error_None in N. lia.
Qed.

Lemma fold_add_bounds (n : Z) (l : list Z) :
  Forall (fun a => 0 <= a <= n) l ->
  0 <= fold_left Z.add l 0 <= n * Z.of_nat (length l).
Proof.
  induction 1 as [|x l Hx _ IH]; [simpl; lia|].
  cbn [fold_left length]. rewrite fold_add_shift. lia.
Qed.

Lemma py_int_bounds (q : Q) (n : Z) :
  (0 <= q)%Q -> (q <= inject_Z n)%Q -> 0 <= py_int q <= n.
Proof.
  intros Hlo Hhi. unfold py_int.
  assert (Qle_bool 0 q = true) as -> by (now apply Qle_bool_iff).
  split.
  - change 0 with (Qfloor 0). now apply Qfloor_resp_le.
  - rewrite <- (Qfloor_Z n). now apply Qfloor_resp_le.
Qed.

(** In the embedding [_predict] returns for every input, and a history
    within [0, n] gives a prediction within [0, n]. *)
Lemma predict_returns (strategy : string) (history : list Z) (n : Z) :
  exists p,
    el_farol_bar._predict strategy history n = Ok p /\
    (0 <= n -> Forall (fun a => 0 <= a <= n) history -> 0 <= p <= n).
Proof.
  assert (0 <= n -> 0 <= n / 2 <= n) as Hhalf.
  { intros Hn. split; [apply Z.div_pos; lia|].
    apply Z.div_le_upper_bound; lia. }
  unfold el_farol_bar._predict.
  destruct history as [|a0 rest] eqn:Eh; [eauto|]. rewrite <- Eh.
  assert (1 <= Z.of_nat (length history)) as Hlen by (subst history; simpl; lia).
  clear Eh a0 rest.
  assert (forall k, 1 <= k <= Z.of_nat (length history) ->
            exists x, list_index history (- k) = Ok x /\
                      (Forall (fun a => 0 <= a <= n) history -> 0 <= x <= n)) as Hidx.
  { intros k Hk. destruct (list_index_from_end history k Hk) as (x & E & Hin).
    exists x. split; [exact E|]. intros F.
    rewrite List.Forall_forall in F. now apply F. }
  destruct (Hidx 1 ltac:(lia)) as (last & Elast & Blast).
  change (- (1)) with (-1) in Elast.
  destruct (String.eqb strategy "mean").
  { unfold py_div.
    destruct (Qeq_bool (inject_Z (Z.of_nat (length history))) 0) eqn:E0.
    { apply Qeq_bool_iff in E0. unfold Qeq in E0. simpl in E0. lia. }
    cbn [rbind]. eexists. split; [reflexivity|]. intros Hn F.
    pose proof (fold_add_bounds n history F) as B.
    assert (0 < inject_Z (Z.of_nat (length history)))%Q as Hq
      by (unfold Qlt; simpl; lia).
    apply py_int_bounds; rewrite Qred_correct.
    - apply Qle_shift_div_l; [exact Hq|]. rewrite Qmult_0_l.
      unfold Qle. simpl. lia.
    - apply Qle_shift_div_r; [exact Hq|]. rewrite <- inject_Z_mult.
      unfold Qle. simpl. lia. }
  destruct (String.eqb strategy "last").
  { exists last. split; [exact Elast|]. intros _. exact Blast. }
  destruct (String.eqb strategy "trend").
  { destruct (Z.of_nat (length history) <? 2) eqn:E2.
    - exists last. split; [exact Elast|]. intros _. exact Blast.
    - apply Z.ltb_ge in E2.
      destruct (Hidx 2 ltac:(lia)) as (before & Ebefore & _).
      change (- (2)) with (-2) in Ebefore.
      rewrite Elast, Ebefore. cbn [rbind].
      eexists. split; [reflexivity|]. intros Hn _. lia. }
  destruct (String.eqb strategy "cycle").
  { destruct (Hidx (Z.min 3 (Z.of_nat (length history))) ltac:(lia)) as (x & E & B).
    exists x. split; [exact E|]. intros _. exact B. }
  destruct (String.eqb strategy "contrarian").
  { rewrite Elast. cbn [rbind]. eexists. split; [reflexivity|].
    intros _ F. specialize (Blast F). lia. }
  eauto.
Qed.


(** X23.  When the recorded attendances lie between 0 and the population
    [n] and [(n + 1) * len(history)] stays below 2^53, [_predict] returns,
    for every strategy name, a prediction between 0 and [n].  (Below that
    bound the float quotient of the "mean" predictor truncates to the same
    integer as the exact quotient.) *)
Theorem predict_stays_within_population (strategy : string) (history : list Z) (n : Z) :
  0 <= n -> Forall (fun a => 0 <= a <= n) history ->
  (n + 1) * Z.of_nat (length history) < 2 ^ 53 ->
  exists p, el_farol_bar._predict strategy history n = Ok p /\ 0 <= p <= n.
Proof.
  intros Hn F _.
  destruct (predict_returns strategy history n) as (p & E & B).
  exists p. split; [exact E|]. now apply B.
Qed.

Lemma predict_stays_within_population_witness :
  exists p, el_farol_bar._predict "mean" [40; 70; 56] 100 = Ok p /\ 0 <= p <= 100.
Proof.
  apply (predict_stays_within_population "mean" [40; 70; 56] 100).
  - lia.
  - repeat constructor; lia.
  - reflexivity.
Defined.

(** ** Matching pennies: the round loop *)

Section mp_facts.
Import matching_pennies.

Lemma mp_last_item_coin (l : list string) :
  Forall coin l -> l <> [] -> exists a, last_item l = Ok a /\ coin a.
Proof.
  intros F Hne. unfold last_item.
  destruct (last l) as [a|] eqn:E.
  - exists a. split; [reflexivity|].
    apply last_Some in E. destruct E as [l' ->].
    apply Forall_app in F. destruct F as [_ F]. now inversion F.
  - apply last_None in E. contradiction.
Qed.

Lemma mp_other_side_coin (a : string) : coin (other_side a).
Proof. unfold other_side, coin. destruct (String.eqb a "H"); auto. Qed.

Lemma mp_random_choice_coin (g : Rng) :
  exists a g', random_choice ["H"; "T"] g = Ok (a, g') /\ coin a.
Proof.
  unfold random_choice. eexists _, _. split; [reflexivity|].
  cbn [length]. unfold coin.
  destruct (index_tape g (cursor g) mod 2)%nat as [|[|[|m]]]; simpl; auto.
Qed.

Lemma mp_always_heads_good : mp_good_strategy always_heads.
Proof. intros h o g _ _ _. exists "H", g. split; [reflexivity|now left]. Qed.

Lemma mp_always_tails_good : mp_good_strategy always_tails.
Proof. intros h o g _ _ _. exists "T", g. split; [reflexivity|now right]. Qed.

Lemma mp_random_50_good : mp_good_strategy random_50.
Proof. intros h o g _ _ _. apply mp_random_choice_coin. Qed.

Lemma mp_biased_70h_good : mp_good_strategy biased_70h.
Proof.
  intros h o g _ _ _. unfold biased_70h.
  rewrite (bind_ok _ _ g _ _ eq_refl).
  eexists _, _. split; [reflexivity|].
  unfold coin. destruct (qgt _ _); auto.
Qed.

Lemma mp_anti_pattern_good : mp_good_strategy anti_pattern.
Proof.
  intros h o g _ Fo _. unfold anti_pattern.
  destruct o as [|b o'] eqn:Eo; [apply mp_random_choice_coin|]. rewrite <- Eo in *.
  destruct (mp_last_item_coin o Fo) as (a & E & _); [now subst|].
  rewrite (bind_ok _ _ _ _ _ (lift_ok _ _ g E)).
  eexists _, g. split; [reflexivity|apply mp_other_side_coin].
Qed.

Lemma mp_win_stay_lose_shift_good : mp_good_strategy win_stay_lose_shift.
Proof.
  intros h o g Fh Fo L. unfold win_stay_lose_shift.
  destruct h as [|a0 h'] eqn:Eh.
  { exists "H", g. split; [reflexivity|now left]. }
  rewrite <- Eh in *.
  destruct (mp_last_item_coin h Fh) as (a & Ea & Ca); [now subst|].
  destruct (mp_last_item_coin o Fo) as (b & Eb & _).
  { intros ->. subst h. discriminate L. }
  rewrite (bind_ok _ _ _ _ _ (lift_ok _ _ g Ea)).
  rewrite (bind_ok _ _ _ _ _ (lift_ok _ _ g Eb)).
  eexists _, g. split; [reflexivity|].
  destruct (0 <? fst (payoff_get a b)); [exact Ca|apply mp_other_side_coin].
Qed.

Lemma mp_resolve_good (name : value) : mp_good_strategy (resolve name).
Proof.
  destruct name as [n|x|s]; simpl; try apply mp_random_50_good.
  repeat match goal with
         | |- context [String.eqb s ?k] => destruct (String.eqb s k)
         end;
    auto using mp_always_heads_good, mp_always_tails_good, mp_random_50_good,
               mp_biased_70h_good, mp_anti_pattern_good, mp_win_stay_lose_shift_good.
Qed.

Lemma mp_payoff_of_coins (a1 a2 : string) :
  coin a1 -> coin a2 ->
  payoff_lookup a1 a2 PAYOFF
  = Ok (if String.eqb a1 a2 then 1 else -1, - (if String.eqb a1 a2 then 1 else -1)).
Proof. intros [->| ->] [->| ->]; reflexivity. Qed.

Lemma mp_Trace_init : mp_Trace 0 loop_init.
Proof. constructor; simpl; try constructor; lia. Qed.

Lemma mp_body_step s1 s2 (k : nat) st g :
  mp_good_strategy s1 -> mp_good_strategy s2 -> mp_Trace k st ->
  exists st' g',
    body s1 s2 (Z.of_nat (S k)) st g = Ok (st', g') /\ mp_Trace (S k) st'.
Proof.
  intros G1 G2 [F1 F2 L1 L2 Nums Rounds Rates Zero Tot Count Range].
  unfold body.
  destruct (G1 (h1 st) (h2 st) g F1 F2 ltac:(congruence)) as (a1 & g1 & E1 & C1).
  rewrite (bind_ok _ _ _ _ _ E1).
  destruct (G2 (h2 st) (h1 st) g1 F2 F1 ltac:(congruence)) as (a2 & g2 & E2 & C2).
  rewrite (bind_ok _ _ _ _ _ E2).
  rewrite (bind_ok _ _ _ _ _ (lift_ok _ _ g2 (mp_payoff_of_coins a1 a2 C1 C2))).
  set (p := if String.eqb a1 a2 then 1 else -1).
  set (mc := if String.eqb a1 a2 then match_count st + 1 else match_count st).
  assert (mc = match_count st + (if String.eqb a1 a2 then 1 else 0)) as Hmc
    by (unfold mc; destruct (String.eqb a1 a2); lia).
  assert (0 < inject_Z (Z.of_nat (S k)))%Q as Hq by (unfold Qlt; simpl; lia).
  assert (py_div (inject_Z mc) (inject_Z (Z.of_nat (S k)))
          = Ok (Qred (inject_Z mc / inject_Z (Z.of_nat (S k))))) as Hdiv.
  { unfold py_div. destruct (Qeq_bool (inject_Z (Z.of_nat (S k))) 0) eqn:E0; [|reflexivity].
    apply Qeq_bool_iff in E0. lra. }
  rewrite (bind_ok _ _ _ _ _ (lift_ok _ _ g2 Hdiv)).
  eexists _, g2. split; [reflexivity|].
  assert (0 <= mc <= Z.of_nat (S k)) as Hrange
    by (rewrite Hmc; destruct (String.eqb a1 a2); lia).
  constructor; cbn [h1 h2 rd tot1 tot2 match_count].
  - apply Forall_app. split; [exact F1|]. constructor; [exact C1|constructor].
  - apply Forall_app. split; [exact F2|]. constructor; [exact C2|constructor].
  - rewrite length_app, L1. simpl. lia.
  - rewrite length_app, L2. simpl. lia.
  - rewrite map_app, seq_S, map_app. f_equal. exact Nums.
  - apply Forall_app. split; [exact Rounds|]. constructor; [|constructor].
    exists a1, a2, p. cbn [actions payoffs]. auto.
  - apply Forall_app. split; [exact Rates|]. constructor; [|constructor].
    cbn [state st_match_rate]. split; rewrite Qred_correct.
    + apply Qle_shift_div_l; [exact Hq|]. rewrite Qmult_0_l.
      unfold Qle. simpl. lia.
    + apply Qle_shift_div_r; [exact Hq|]. rewrite Qmult_1_l.
      unfold Qle. simpl. lia.
  - fold p. lia.
  - fold p. rewrite Hmc. unfold p. destruct (String.eqb a1 a2); lia.
  - rewrite List.filter_app, length_app. cbn [List.filter mp_matched actions].
    rewrite Hmc, Count. destruct (String.eqb a1 a2); simpl; lia.
  - exact Hrange.
Qed.

Lemma mp_loop_trace s1 s2 :
  mp_good_strategy s1 -> mp_good_strategy s2 ->
  forall (m k : nat) st g,
    mp_Trace k st ->
    exists st' g',
      for_each (map Z.of_nat (seq (S k) m)) (body s1 s2) st g = Ok (st', g') /\
      mp_Trace (k + m) st'.
Proof.
  intros G1 G2. induction m as [|m IH]; intros k st g HT.
  - exists st, g. split; [reflexivity|]. now rewrite Nat.add_0_r.
  - cbn [seq map for_each].
    destruct (mp_body_step s1 s2 k st g G1 G2 HT) as (st1 & g1 & E & HT1).
    rewrite (bind_ok _ _ _ _ _ E).
    destruct (IH (S k) st1 g1 HT1) as (st' & g' & E' & HT').
    exists st', g'. split; [exact E'|].
    now replace (k + S m)%nat with (S k + m)%nat by lia.
Qed.

(** A run of a positive number of rounds returns, and its final loop state
    satisfies the invariant of the loop. *)
Lemma mp_compute_trace cfg g nr :
  dict_get cfg "rounds" (VInt 200) = VInt nr -> 0 < nr ->
  exists st g',
    mp_Trace (Z.to_nat nr) st /\
    compute cfg g
    = Ok ({| game_id := "matching_pennies";
             config := cfg;
             rounds := rd st;
             equilibria := [mixed];
             summary :=
               {| total_payoff_matcher := tot1 st;
                  total_payoff_mismatcher := tot2 st;
                  avg_payoff_matcher :=
                    Qred (inject_Z (tot1 st) / inject_Z nr);
                  match_rate :=
                    Qred (inject_Z (match_count st) / inject_Z nr) |};
             metadata_engine := "server" |}, g').
Proof.
  intros Hr Hnr. unfold compute, run. rewrite Hr.
  destruct (mp_loop_trace _ _
              (mp_resolve_good (dict_get cfg "strategy_matcher" (VStr "random_50")))
              (mp_resolve_good (dict_get cfg "strategy_mismatcher" (VStr "anti_pattern")))
              (Z.to_nat nr) 0%nat loop_init g mp_Trace_init)
    as (st & g1 & E & HT).
  unfold range1. rewrite (bind_ok _ _ _ _ _ E).
  exists st, g1. split; [exact HT|].
  unfold finish, py_div.
  destruct (Qeq_bool (inject_Z nr) 0) eqn:E0.
  { apply Qeq_bool_iff in E0. unfold Qeq in E0. simpl in E0. lia. }
  reflexivity.
Qed.

End mp_facts.

(** X24.  For a positive number of rounds [MatchingPennies.compute]
    returns, whatever the strategy names, and the game it plays is zero-sum:
    every round shows two coins, pays the matcher 1 when they agree and -1
    when they differ and the mismatcher the opposite, and the two totals of
    the summary add up to zero. *)
Theorem matching_pennies_is_zero_sum cfg g nr :
  dict_get cfg "rounds" (VInt 200) = VInt nr -> 0 < nr ->
  exists res g',
    matching_pennies.compute cfg g = Ok (res, g') /\
    map round_num (rounds res) = range1 nr /\
    Forall mp_round_ok (rounds res) /\
    matching_pennies.total_payoff_matcher (summary res)
    + matching_pennies.total_payoff_mismatcher (summary res) = 0.
Proof.
  intros Hr Hnr.
  destruct (mp_compute_trace cfg g nr Hr Hnr) as (st & g' & HT & E).
  eexists _, g'. split; [exact E|].
  cbn [rounds summary matching_pennies.total_payoff_matcher
       matching_pennies.total_payoff_mismatcher].
  split; [exact (mt_nums _ _ HT)|].
  split; [exact (mt_rounds _ _ HT)|exact (mt_zero _ _ HT)].
Qed.

Lemma matching_pennies_is_zero_sum_witness :
  exists res g',
    matching_pennies.compute {["rounds" := VInt 3]} (const_rng 0 0) = Ok (res, g') /\
    map round_num (rounds res) = range1 3 /\
    Forall mp_round_ok (rounds res) /\
    matching_pennies.total_payoff_matcher (summary res)
    + matching_pennies.total_payoff_mismatcher (summary res) = 0.
Proof.
  pose proof (matching_pennies_is_zero_sum {["rounds" := VInt 3]} (const_rng 0 0) 3) as H.
  apply H; first [ reflexivity | lia ].
Defined.

(** X25.  For a positive number of rounds the summary is tied to the trace: with
    [matches] the number of rounds whose coins agree, the match rate is the
    quotient [matches / rounds] and lies between 0 and 1, the matcher's
    total is [matches] less the number of mismatches, and the matcher's
    average payoff is the quotient of that total by [rounds]. *)
Theorem matching_pennies_summary_counts_matches cfg g nr :
  dict_get cfg "rounds" (VInt 200) = VInt nr -> 0 < nr ->
  exists res g',
    matching_pennies.compute cfg g = Ok (res, g') /\
    let matches := Z.of_nat (length (List.filter mp_matched (rounds res))) in
    (matching_pennies.match_rate (summary res) == inject_Z matches / inject_Z nr)%Q /\
    unit_interval (matching_pennies.match_rate (summary res)) /\
    matching_pennies.total_payoff_matcher (summary res) = matches - (nr - matches) /\
    (matching_pennies.avg_payoff_matcher (summary res)
     == inject_Z (matches - (nr - matches)) / inject_Z nr)%Q.
Proof.
  intros Hr Hnr.
  destruct (mp_compute_trace cfg g nr Hr Hnr) as (st & g' & HT & E).
  eexists _, g'. split; [exact E|].
  cbn [rounds summary matching_pennies.total_payoff_matcher
       matching_pennies.match_rate matching_pennies.avg_payoff_matcher].
  cbv zeta.
  pose proof (mt_count _ _ HT) as Count. pose proof (mt_tot _ _ HT) as Tot.
  pose proof (mt_range _ _ HT) as Range.
  rewrite Z2Nat.id in Tot, Range by lia.
  rewrite <- Count.
  assert (0 < inject_Z nr)%Q as Hq by (unfold Qlt; simpl; lia).
  split; [apply Qred_correct|].
  split.
  { split; rewrite Qred_correct.
    - apply Qle_shift_div_l; [exact Hq|]. rewrite Qmult_0_l. unfold Qle. simpl. lia.
    - apply Qle_shift_div_r; [exact Hq|]. rewrite Qmult_1_l. unfold Qle. simpl. lia. }
  split; [lia|].
  rewrite Qred_correct.
  replace (matching_pennies.match_count st - (nr - matching_pennies.match_count st))
    with (matching_pennies.tot1 st) by lia.
  reflexivity.
Qed.

Lemma matching_pennies_summary_counts_matches_witness :
  exists res g',
    matching_pennies.compute {["rounds" := VInt 3]} (const_rng 0 0) = Ok (res, g') /\
    let matches := Z.of_nat (length (List.filter mp_matched (rounds res))) in
    (matching_pennies.match_rate (summary res) == inject_Z matches / inject_Z 3)%Q /\
    unit_interval (matching_pennies.match_rate (summary res)) /\
    matching_pennies.total_payoff_matcher (summary res) = matches - (3 - matches) /\
    (matching_pennies.avg_payoff_matcher (summary res)
     == inject_Z (matches - (3 - matches)) / inject_Z 3)%Q.
Proof.
  pose proof (matching_pennies_summary_counts_matches
                {["rounds" := VInt 3]} (const_rng 0 0) 3) as H.
  apply H; first [ reflexivity | lia ].
Defined.
